(** * Code_Reviewer: the review endpoint and the model client

    A shallow embedding of [backend/app.py] and [backend/gemini_client.py]:
    the two output sanitizers ([clean_json_output], [_clean_to_json_str]),
    the model client [review_code] and the HTTP handler [api_review],
    together with the parts of Python they rest on (str methods, the two
    regular-expression substitutions, [json.loads] and [json.dumps]). *)

From Stdlib Require Import List NArith ZArith Bool Lia String Ascii.
From Stdlib Require Import DecimalString.
Import ListNotations.

Set Implicit Arguments.
Set Warnings "-register-all".

(** ** Python strings *)

Module Py.

Local Open Scope N_scope.

(** A Python [str] is a sequence of Unicode code points. *)
Definition char := N.
Definition pystr := list char.

(** A literal: the code points of an ASCII string. *)
Definition py (s : string) : pystr :=
  List.map N_of_ascii (list_ascii_of_string s).

Fixpoint str_eqb (a b : pystr) : bool :=
  match a, b with
  | [], [] => true
  | x :: a', y :: b' => N.eqb x y && str_eqb a' b'
  | _, _ => false
  end.

(** Named code points. *)
Definition LF : char := 10.
Definition QUOTE : char := 34.
Definition BACKSLASH : char := 92.
Definition BACKTICK : char := 96.
Definition LBRACE : char := 123.
Definition RBRACE : char := 125.

Definition between (lo hi c : char) : bool := N.leb lo c && N.leb c hi.

(** [str.isspace] on one code point: the characters [str.strip()] removes. *)
Definition is_space (c : char) : bool :=
  between 9 13 c || between 28 32 c || N.eqb c 133 || N.eqb c 160
  || N.eqb c 5760 || between 8192 8202 c || N.eqb c 8232 || N.eqb c 8233
  || N.eqb c 8239 || N.eqb c 8287 || N.eqb c 12288.

(** The class [[a-zA-Z]] of the fence pattern. *)
Definition is_ascii_letter (c : char) : bool :=
  between 97 122 c || between 65 90 c.

Fixpoint drop_while (p : char -> bool) (s : pystr) : pystr :=
  match s with
  | [] => []
  | c :: r => if p c then drop_while p r else s
  end.

(** [s.lstrip()], [s.rstrip()], [s.strip()]. *)
Definition lstrip (s : pystr) : pystr := drop_while is_space s.
Definition rstrip (s : pystr) : pystr := rev (drop_while is_space (rev s)).
Definition strip (s : pystr) : pystr := rstrip (lstrip s).

(** [s.find(c)]: the index of the first occurrence of [c], or [-1]. *)
Fixpoint find_from (c : char) (s : pystr) (i : Z) : Z :=
  match s with
  | [] => (-1)%Z
  | x :: r => if N.eqb x c then i else find_from c r (i + 1)%Z
  end.
Definition find (c : char) (s : pystr) : Z := find_from c s 0%Z.

(** [s.rfind(c)]: the index of the last occurrence of [c], or [-1]. *)
Fixpoint rfind_from (c : char) (s : pystr) (i : Z) (last : Z) : Z :=
  match s with
  | [] => last
  | x :: r => rfind_from c r (i + 1)%Z (if N.eqb x c then i else last)
  end.
Definition rfind (c : char) (s : pystr) : Z := rfind_from c s 0%Z (-1)%Z.

(** [s[lo:hi]]: a negative bound counts from the end, and both bounds are
    clamped to the string; the slice is empty when [hi] does not exceed
    [lo]. *)
Definition clamp (len i : Z) : Z :=
  if (i <? 0)%Z then Z.max 0 (i + len)%Z else Z.min i len.
Definition slice (s : pystr) (lo hi : Z) : pystr :=
  let len := Z.of_nat (List.length s) in
  let a := clamp len lo in
  let b := clamp len hi in
  firstn (Z.to_nat (b - a)) (skipn (Z.to_nat a) s).

(** [re.sub] of the leading fence by the empty string: the pattern is a
    caret, three backticks, any number of ASCII letters and an optional
    newline.  Without [re.MULTILINE] the caret matches at index 0 only, so
    there is at most one match: three backticks, the longest run of ASCII
    letters, and one newline if there is one. *)
Definition sub_leading_fence (s : pystr) : pystr :=
  match s with
  | a :: b :: c :: r =>
      if N.eqb a BACKTICK && N.eqb b BACKTICK && N.eqb c BACKTICK then
        match drop_while is_ascii_letter r with
        | d :: r' => if N.eqb d LF then r' else d :: r'
        | [] => []
        end
      else s
  | _ => s
  end.

(** Whether the pattern of the trailing fence (three backticks and a
    dollar) matches at the head of [s]: the dollar matches at the end of the
    string and just before a newline that ends it. *)
Definition fence_at_end (s : pystr) : bool :=
  str_eqb s [BACKTICK; BACKTICK; BACKTICK]
  || str_eqb s [BACKTICK; BACKTICK; BACKTICK; LF].

(** [re.sub] of the trailing fence by the empty string: the string is
    scanned from the left and the first match is removed; what is left
    behind it is empty or one newline, where the pattern cannot match
    again. *)
Fixpoint sub_trailing_fence (s : pystr) : pystr :=
  match s with
  | [] => []
  | c :: r =>
      if fence_at_end s then skipn 3 s
      else c :: sub_trailing_fence r
  end.

(** A [dict] with [str] keys, in insertion order and without duplicate
    keys.  [dict_set] is [d[k] = v]; [dict_get] is the lookup. *)
Fixpoint dict_set (V : Type) (k : pystr) (v : V) (d : list (pystr * V))
  : list (pystr * V) :=
  match d with
  | [] => [(k, v)]
  | (k', v') :: r =>
      if str_eqb k' k then (k', v) :: r else (k', v') :: dict_set k v r
  end.

Fixpoint dict_get (V : Type) (k : pystr) (d : list (pystr * V)) : option V :=
  match d with
  | [] => None
  | (k', v) :: r => if str_eqb k' k then Some v else dict_get k r
  end.

(** ** Exceptions

    An exception is an instance of [Exception]: what [except Exception]
    handles.  Of its class only what the handlers of the program tell apart is
    kept; [str_of] is [str(e)]. *)
Inductive exn_kind := AttributeError | JSONDecodeError | OtherException.

Record exn := Exn { kind : exn_kind; str_of : pystr }.

(** The outcome of a call: it returns a value or raises. *)
Inductive result (A : Type) : Type :=
| Ok (a : A)
| Raise (e : exn).
Arguments Ok {A} a.
Arguments Raise {A} e.

Definition bind (A B : Type) (c : result A) (k : A -> result B) : result B :=
  match c with
  | Ok a => k a
  | Raise e => Raise e
  end.

(** ** Run-time values

    The values the program receives from outside: the decoded request body
    and the response object of the provider.  Of a float only its truth
    value is observed.  An object has a class name, a truth value and named
    attributes; reading an attribute returns a value or raises. *)
Inductive pyval :=
| VNone
| VBool (b : bool)
| VInt (z : Z)
| VFloat (nonzero : bool)
| VStr (s : pystr)
| VList (items : list pyval)
| VDict (d : list (pystr * pyval))
| VObj (cls : pystr) (truth : bool) (attrs : list (pystr * result pyval)).

(** [bool(v)]. *)
Definition truthy (v : pyval) : bool :=
  match v with
  | VNone => false
  | VBool b => b
  | VInt z => negb (Z.eqb z 0)
  | VFloat nonzero => nonzero
  | VStr s => match s with [] => false | _ => true end
  | VList l => match l with [] => false | _ => true end
  | VDict d => match d with [] => false | _ => true end
  | VObj _ t _ => t
  end.

(** [type(v).__name__]. *)
Definition type_name (v : pyval) : pystr :=
  match v with
  | VNone => py "NoneType"
  | VBool _ => py "bool"
  | VInt _ => py "int"
  | VFloat _ => py "float"
  | VStr _ => py "str"
  | VList _ => py "list"
  | VDict _ => py "dict"
  | VObj cls _ _ => cls
  end.

Definition APOSTROPHE : char := 39.

Definition no_attribute (v : pyval) (name : pystr) : exn :=
  Exn AttributeError
      (APOSTROPHE :: type_name v ++ py "' object has no attribute '"
         ++ name ++ [APOSTROPHE]).

Definition not_callable (v : pyval) : exn :=
  Exn OtherException
      (APOSTROPHE :: type_name v ++ py "' object is not callable").

Definition not_subscriptable (v : pyval) : exn :=
  Exn OtherException
      (APOSTROPHE :: type_name v ++ py "' object is not subscriptable").

(** [v.name] for the names the program reads ([text], [candidates],
    [content], [parts], and [strip] and [get] on a value that is not a [str]
    or a [dict]): none of the built-in types has them. *)
Definition attr_lookup (v : pyval) (name : pystr) : result pyval :=
  match v with
  | VObj _ _ attrs =>
      match dict_get name attrs with
      | Some r => r
      | None => Raise (no_attribute v name)
      end
  | _ => Raise (no_attribute v name)
  end.

(** [getattr(v, name, default)]: an [AttributeError] gives the default, any
    other exception goes through. *)
Definition getattr (v : pyval) (name : pystr) (default : pyval)
  : result pyval :=
  match attr_lookup v name with
  | Ok a => Ok a
  | Raise e =>
      match kind e with
      | AttributeError => Ok default
      | _ => Raise e
      end
  end.

(** [hasattr(v, name)]. *)
Definition hasattr (v : pyval) (name : pystr) : result bool :=
  match attr_lookup v name with
  | Ok _ => Ok true
  | Raise e =>
      match kind e with
      | AttributeError => Ok false
      | _ => Raise e
      end
  end.

(** [v[0]]. *)
Definition index0 (v : pyval) : result pyval :=
  match v with
  | VList (x :: _) => Ok x
  | VList [] => Raise (Exn OtherException (py "list index out of range"))
  | VStr (c :: _) => Ok (VStr [c])
  | VStr [] => Raise (Exn OtherException (py "string index out of range"))
  | VDict _ => Raise (Exn OtherException (py "0"))
  | _ => Raise (not_subscriptable v)
  end.

(** [v.strip()]: the method of [str]; no other value of this model is or
    has a callable. *)
Definition call_strip (v : pyval) : result pystr :=
  match v with
  | VStr s => Ok (strip s)
  | _ => bind (attr_lookup v (py "strip")) (fun f => Raise (not_callable f))
  end.

(** [v.get(key, default)]: the method of [dict]. *)
Definition call_get (v : pyval) (key : pystr) (default : pyval)
  : result pyval :=
  match v with
  | VDict d =>
      match dict_get key d with
      | Some x => Ok x
      | None => Ok default
      end
  | _ => bind (attr_lookup v (py "get")) (fun f => Raise (not_callable f))
  end.

End Py.

(** ** The [json] module: [json.loads] and [json.dumps] with their default
    settings *)

Module Json.
Import Py.

Local Open Scope N_scope.

(** A JSON document as [json.loads] builds it and [json.dumps] reads it.  A
    number is kept as it is written: its conversion to [int] or [float] is
    not needed here. *)
Inductive json :=
| JNull
| JBool (b : bool)
| JNumber (lit : pystr)
| JStr (s : pystr)
| JArr (items : list json)
| JObj (members : list (pystr * json)).

Definition COMMA : char := 44.
Definition COLON : char := 58.
Definition LBRACKET : char := 91.
Definition RBRACKET : char := 93.
Definition LOWER_U : char := 117.

(** *** Decoding *)

(** The whitespace of the decoder: space, tab, newline, carriage return. *)
Definition is_json_ws (c : char) : bool :=
  N.eqb c 32 || N.eqb c 9 || N.eqb c 10 || N.eqb c 13.

Definition skip_ws (s : pystr) : pystr := drop_while is_json_ws s.

Definition hex_value (c : char) : option N :=
  if between 48 57 c then Some (c - 48)
  else if between 97 102 c then Some (c - 87)
  else if between 65 70 c then Some (c - 55)
  else None.

(** The four hexadecimal digits of a unicode escape. *)
Definition hex4 (a b c d : char) : option N :=
  match hex_value a, hex_value b, hex_value c, hex_value d with
  | Some x, Some y, Some z, Some w => Some (x * 4096 + y * 256 + z * 16 + w)
  | _, _, _, _ => None
  end.

Definition is_high_surrogate (u : N) : bool := between 55296 56319 u.
Definition is_low_surrogate (u : N) : bool := between 56320 57343 u.
Definition join_surrogates (hi lo : N) : N :=
  65536 + N.lor (N.shiftl (hi - 55296) 10) (lo - 56320).

(** The one-letter escapes. *)
Definition unescape (e : char) : option char :=
  if N.eqb e QUOTE then Some QUOTE
  else if N.eqb e BACKSLASH then Some BACKSLASH
  else if N.eqb e 47 then Some 47
  else if N.eqb e 98 then Some 8
  else if N.eqb e 102 then Some 12
  else if N.eqb e 110 then Some 10
  else if N.eqb e 114 then Some 13
  else if N.eqb e 116 then Some 9
  else None.

Definition cons_char (c : char) (o : option (pystr * pystr))
  : option (pystr * pystr) :=
  match o with
  | Some (t, r) => Some (c :: t, r)
  | None => None
  end.

(** What follows the escape of a high surrogate: [Some (Some (u2, rest))]
    when it is the unicode escape of a low surrogate [u2], to be joined to
    it; [Some None] when it is something else, to be read on its own; [None]
    when it is a malformed unicode escape, on which the decoder raises.
    [scanstring] below has this case analysis inlined. *)
Definition low_surrogate_escape (s : pystr) : option (option (N * pystr)) :=
  match s with
  | b :: s1 =>
      if N.eqb b BACKSLASH then
        match s1 with
        | x :: s2 =>
            if N.eqb x LOWER_U then
              match s2 with
              | l1 :: l2 :: l3 :: l4 :: s3 =>
                  match hex4 l1 l2 l3 l4 with
                  | Some u2 =>
                      if is_low_surrogate u2 then Some (Some (u2, s3))
                      else Some None
                  | None => None
                  end
              | _ => None
              end
            else Some None
        | [] => Some None
        end
      else Some None
  | [] => Some None
  end.

(** [scanstring] in strict mode, from behind the opening quote: the decoded
    string and what follows the closing quote; [None] when the decoder
    raises (no closing quote, a control character, a bad escape). *)
Fixpoint scanstring (s : pystr) : option (pystr * pystr) :=
  match s with
  | [] => None
  | c :: r =>
      if N.eqb c QUOTE then Some ([], r)
      else if N.eqb c BACKSLASH then
        match r with
        | [] => None
        | e :: r1 =>
            if N.eqb e LOWER_U then
              match r1 with
              | h1 :: h2 :: h3 :: h4 :: r2 =>
                  match hex4 h1 h2 h3 h4 with
                  | None => None
                  | Some u =>
                      if is_high_surrogate u then
                        match r2 with
                        | b :: s1 =>
                            if N.eqb b BACKSLASH then
                              match s1 with
                              | x :: s2 =>
                                  if N.eqb x LOWER_U then
                                    match s2 with
                                    | l1 :: l2 :: l3 :: l4 :: s3 =>
                                        match hex4 l1 l2 l3 l4 with
                                        | Some u2 =>
                                            if is_low_surrogate u2 then
                                              cons_char (join_surrogates u u2)
                                                        (scanstring s3)
                                            else cons_char u (scanstring r2)
                                        | None => None
                                        end
                                    | _ => None
                                    end
                                  else cons_char u (scanstring r2)
                              | [] => cons_char u (scanstring r2)
                              end
                            else cons_char u (scanstring r2)
                        | [] => cons_char u (scanstring r2)
                        end
                      else cons_char u (scanstring r2)
                  end
              | _ => None
              end
            else
              match unescape e with
              | Some x => cons_char x (scanstring r1)
              | None => None
              end
        end
      else if N.leb c 31 then None
      else cons_char c (scanstring r)
  end.

Definition is_digit (c : char) : bool := between 48 57 c.

Fixpoint span_digits (s : pystr) : pystr * pystr :=
  match s with
  | c :: r =>
      if is_digit c then let (d, r') := span_digits r in (c :: d, r')
      else ([], s)
  | [] => ([], [])
  end.

(** The number pattern of the scanner, group by group: an integer part (an
    optional minus sign, then a single 0 or a digit from 1 to 9 followed by
    digits), an optional fraction (a dot and at least one digit) and an
    optional exponent (e or E, an optional sign, at least one digit).  Each
    function returns the matched text and what follows it. *)
Definition match_int (s : pystr) : option (pystr * pystr) :=
  let (sign, r) :=
    match s with
    | c :: r => if N.eqb c 45 then ([c], r) else ([], s)
    | [] => ([], s)
    end in
  match r with
  | c :: r' =>
      if N.eqb c 48 then Some (sign ++ [c], r')
      else if between 49 57 c then
        let (d, r'') := span_digits r' in Some (sign ++ c :: d, r'')
      else None
  | [] => None
  end.

Definition match_frac (s : pystr) : pystr * pystr :=
  match s with
  | c :: r =>
      if N.eqb c 46 then
        match span_digits r with
        | ([], _) => ([], s)
        | (d, r') => (c :: d, r')
        end
      else ([], s)
  | [] => ([], s)
  end.

Definition match_exp (s : pystr) : pystr * pystr :=
  match s with
  | c :: r =>
      if N.eqb c 101 || N.eqb c 69 then
        let (sign, r1) :=
          match r with
          | x :: r1 => if N.eqb x 43 || N.eqb x 45 then ([x], r1) else ([], r)
          | [] => ([], r)
          end in
        match span_digits r1 with
        | ([], _) => ([], s)
        | (d, r2) => (c :: sign ++ d, r2)
        end
      else ([], s)
  | [] => ([], s)
  end.

Definition match_number (s : pystr) : option (pystr * pystr) :=
  match match_int s with
  | None => None
  | Some (i, r) =>
      let (f, r1) := match_frac r in
      let (e, r2) := match_exp r1 in
      Some (i ++ f ++ e, r2)
  end.

(** [s] without the prefix [p], when it starts with it. *)
Fixpoint strip_prefix (p s : pystr) : option pystr :=
  match p, s with
  | [], _ => Some s
  | x :: p', y :: s' => if N.eqb x y then strip_prefix p' s' else None
  | _ :: _, [] => None
  end.

(** *** The limits of the interpreter

    What [json.loads] does with a text also depends on the interpreter that
    runs it.  The scanner enters a recursive call for every object and every
    array it opens, and raises [RecursionError] when the interpreter has no
    level left for it; [int] refuses an integer literal of more than
    [sys.get_int_max_str_digits()] digits with [ValueError], unless that
    limit is 0 or the literal has at most 640 digits.  Neither exception is a
    [json.JSONDecodeError].

    [max_depth] is the number of levels of objects and arrays the scanner
    can enter at the call, [int_max_str_digits] the limit on the digits; the
    texts of the two messages are the interpreter's.  As the calls of the
    program itself are taken not to use up the stack, the interpreter is
    taken to have room for two levels at least, which is what the program's
    own dictionaries need; no other bound is assumed. *)
Inductive container := InObject | InArray.

Class limits := {
  max_depth : nat;
  int_max_str_digits : nat;
  recursion_message : container -> pystr;
  digits_message : nat -> pystr;
  depth_enough : (2 <= max_depth)%nat
}.

(** The result of a scan from a position: the value and what follows it,
    or malformed input, or an exception of the interpreter, or no budget
    left for the scan. *)
Inductive scan (A : Type) : Type :=
| Scanned (a : A) (rest : pystr)
| Malformed
| Failed (e : exn)
| Exhausted.
Arguments Scanned {A} a rest.
Arguments Malformed {A}.
Arguments Failed {A} e.
Arguments Exhausted {A}.

Definition scan_map (A B : Type) (f : A -> B) (x : scan A) : scan B :=
  match x with
  | Scanned a r => Scanned (f a) r
  | Malformed => Malformed
  | Failed e => Failed e
  | Exhausted => Exhausted
  end.

(** A number literal without fraction and exponent is converted by [int],
    any other by [float]. *)
Definition is_integer_literal (lit : pystr) : bool :=
  negb (existsb (fun c => N.eqb c 46 || N.eqb c 101 || N.eqb c 69) lit).

Definition count_digits (lit : pystr) : nat :=
  List.length (List.filter is_digit lit).

(** The outcome of [json.loads]: the document, [json.JSONDecodeError], or
    another exception. *)
Inductive loaded :=
| Loaded (v : json)
| DecodeError
| OtherError (e : exn).

Definition BOM : char := 65279.

Section Decoder.

Context {L : limits}.

Definition RecursionError (c : container) : exn :=
  Exn OtherException (recursion_message c).

Definition ValueError (digits : nat) : exn :=
  Exn OtherException (digits_message digits).

(** The test of [int] on the number of digits of a literal. *)
Definition exceeds_digits (digits : nat) : bool :=
  Nat.ltb 640 digits && Nat.ltb 0 int_max_str_digits
  && Nat.ltb int_max_str_digits digits.

(** The values that are neither strings, objects nor arrays, in the order
    the scanner tries them. *)
Definition scan_literal (s : pystr) : scan json :=
  match strip_prefix (py "null") s with
  | Some r => Scanned JNull r
  | None =>
  match strip_prefix (py "true") s with
  | Some r => Scanned (JBool true) r
  | None =>
  match strip_prefix (py "false") s with
  | Some r => Scanned (JBool false) r
  | None =>
  match match_number s with
  | Some (lit, r) =>
      if is_integer_literal lit && exceeds_digits (count_digits lit)
      then Failed (ValueError (count_digits lit))
      else Scanned (JNumber lit) r
  | None =>
  match strip_prefix (py "NaN") s with
  | Some r => Scanned (JNumber (py "NaN")) r
  | None =>
  match strip_prefix (py "Infinity") s with
  | Some r => Scanned (JNumber (py "Infinity")) r
  | None =>
  match strip_prefix (py "-Infinity") s with
  | Some r => Scanned (JNumber (py "-Infinity")) r
  | None => Malformed
  end end end end end end end.

(** [scan_once], [JSONArray] and [JSONObject] of the decoder.  [JSONArray]
    starts at the first character of an element, [JSONObject] behind the
    opening quote of a key; both carry what they have read so far.  [depth]
    is the number of levels that can still be entered: an opening brace or
    bracket takes one before anything behind it is read. *)
Fixpoint scan_once (fuel : nat) (depth : nat) (s : pystr) {struct fuel}
  : scan json :=
  match fuel with
  | O => Exhausted
  | S f =>
      match s with
      | [] => Malformed
      | c :: r =>
          if N.eqb c QUOTE then
            match scanstring r with
            | Some (t, r') => Scanned (JStr t) r'
            | None => Malformed
            end
          else if N.eqb c LBRACE then
            match depth with
            | O => Failed (RecursionError InObject)
            | S d =>
                match skip_ws r with
                | x :: r' =>
                    if N.eqb x RBRACE then Scanned (JObj []) r'
                    else if N.eqb x QUOTE
                         then scan_map JObj (JSONObject f d [] r')
                    else Malformed
                | [] => Malformed
                end
            end
          else if N.eqb c LBRACKET then
            match depth with
            | O => Failed (RecursionError InArray)
            | S d =>
                match skip_ws r with
                | x :: r' =>
                    if N.eqb x RBRACKET then Scanned (JArr []) r'
                    else scan_map JArr (JSONArray f d [] (x :: r'))
                | [] => Malformed
                end
            end
          else scan_literal s
      end
  end
with JSONArray (fuel : nat) (depth : nat) (acc : list json) (s : pystr)
  {struct fuel} : scan (list json) :=
  match fuel with
  | O => Exhausted
  | S f =>
      match scan_once f depth s with
      | Scanned v r =>
          match skip_ws r with
          | x :: r' =>
              if N.eqb x RBRACKET then Scanned (acc ++ [v]) r'
              else if N.eqb x COMMA
                   then JSONArray f depth (acc ++ [v]) (skip_ws r')
              else Malformed
          | [] => Malformed
          end
      | Malformed => Malformed
      | Failed e => Failed e
      | Exhausted => Exhausted
      end
  end
with JSONObject (fuel : nat) (depth : nat) (acc : list (pystr * json))
  (s : pystr) {struct fuel} : scan (list (pystr * json)) :=
  match fuel with
  | O => Exhausted
  | S f =>
      match scanstring s with
      | None => Malformed
      | Some (key, r) =>
          match skip_ws r with
          | x :: r1 =>
              if N.eqb x COLON then
                match scan_once f depth (skip_ws r1) with
                | Scanned v r2 =>
                    match skip_ws r2 with
                    | y :: r3 =>
                        if N.eqb y RBRACE then Scanned (dict_set key v acc) r3
                        else if N.eqb y COMMA then
                          match skip_ws r3 with
                          | q :: r4 =>
                              if N.eqb q QUOTE
                              then JSONObject f depth (dict_set key v acc) r4
                              else Malformed
                          | [] => Malformed
                          end
                        else Malformed
                    | [] => Malformed
                    end
                | Malformed => Malformed
                | Failed e => Failed e
                | Exhausted => Exhausted
                end
              else Malformed
          | [] => Malformed
          end
      end
  end.

(** [json.loads(s)] for a [str].  Every call of the scanner consumes a
    character, so the budget below is never used up ([json_loads_budget]):
    what ends a scan is the end of the value, malformed input, which is
    [json.JSONDecodeError], or a limit of the interpreter. *)
Definition json_loads (s : pystr) : loaded :=
  match s with
  | c :: _ => if N.eqb c BOM then DecodeError else
      match scan_once (2 * List.length s + 1) max_depth (skip_ws s) with
      | Scanned v r =>
          match skip_ws r with [] => Loaded v | _ :: _ => DecodeError end
      | Failed e => OtherError e
      | Malformed | Exhausted => DecodeError
      end
  | [] => DecodeError
  end.

End Decoder.

(** *** Encoding *)

(** A hexadecimal digit in lower case, as the format [04x] writes it. *)
Definition hex_digit (d : N) : char := if N.ltb d 10 then 48 + d else 87 + d.

(** A unicode escape with four digits, for [u] below 65536. *)
Definition u_escape (u : N) : pystr :=
  [BACKSLASH; LOWER_U;
   hex_digit (u / 4096 mod 16); hex_digit (u / 256 mod 16);
   hex_digit (u / 16 mod 16); hex_digit (u mod 16)].

(** The replacement of one character by [encode_basestring_ascii]: quote,
    backslash and what is not between space and tilde are escaped, a
    character beyond the basic plane as a surrogate pair. *)
Definition escape_char (c : char) : pystr :=
  if N.eqb c QUOTE then [BACKSLASH; QUOTE]
  else if N.eqb c BACKSLASH then [BACKSLASH; BACKSLASH]
  else if N.eqb c 10 then [BACKSLASH; 110]
  else if N.eqb c 13 then [BACKSLASH; 114]
  else if N.eqb c 9 then [BACKSLASH; 116]
  else if N.eqb c 8 then [BACKSLASH; 98]
  else if N.eqb c 12 then [BACKSLASH; 102]
  else if between 32 126 c then [c]
  else if N.ltb c 65536 then u_escape c
  else
    let n := c - 65536 in
    u_escape (N.lor 55296 (N.land (N.shiftr n 10) 1023))
    ++ u_escape (N.lor 56320 (N.land n 1023)).

Definition encode_basestring_ascii (s : pystr) : pystr :=
  QUOTE :: flat_map escape_char s ++ [QUOTE].

(** [", ".join(parts)]. *)
Fixpoint join_comma (parts : list pystr) : pystr :=
  match parts with
  | [] => []
  | [x] => x
  | x :: rest => x ++ py ", " ++ join_comma rest
  end.

(** [json.dumps(v)] with the default settings: ASCII only, the separators
    comma-space and colon-space, the members in the order of the [dict]. *)
Fixpoint json_dumps (v : json) : pystr :=
  match v with
  | JNull => py "null"
  | JBool true => py "true"
  | JBool false => py "false"
  | JNumber lit => lit
  | JStr s => encode_basestring_ascii s
  | JArr items => LBRACKET :: join_comma (List.map json_dumps items) ++ [RBRACKET]
  | JObj members =>
      LBRACE ::
      join_comma
        (List.map (fun kv => encode_basestring_ascii (fst kv) ++ py ": "
                               ++ json_dumps (snd kv)) members)
      ++ [RBRACE]
  end.

End Json.

(** ** [backend/gemini_client.py] *)

Module gemini_client.
Import Py Json.

(** [_clean_to_json_str(text)]: the JSON object found in the output of the
    model when there is one, else [None]; whatever [json.loads] raises is
    caught. *)
Definition _clean_to_json_str {L : limits} (text : pystr) : option pystr :=
  match text with
  | [] => None
  | _ :: _ =>
      let cleaned := strip text in
      let cleaned := sub_leading_fence cleaned in
      let cleaned := sub_trailing_fence cleaned in
      let start := find LBRACE cleaned in
      let end_ := rfind RBRACE cleaned in
      if negb (Z.eqb start (-1)) && negb (Z.eqb end_ (-1))
         && Z.ltb start end_
      then
        let candidate := slice cleaned start (end_ + 1) in
        match json_loads candidate with
        | Loaded _ => Some candidate
        | DecodeError | OtherError _ => None
        end
      else None
  end.

(** The two fallback dictionaries of [review_code]. *)
Definition fallback : json :=
  JObj [ (py "code_status", JStr (py "Incorrect"));
         (py "issues_found",
          JArr [JStr (py "Model did not return valid JSON output.")]);
         (py "suggestions",
          JArr [JStr (py "Re-run the review.");
                JStr (py "Ensure the snippet is complete and includes required imports.")]) ].

Definition error_json (e : exn) : json :=
  JObj [ (py "code_status", JStr (py "Incorrect"));
         (py "issues_found",
          JArr [JStr (py "Model call failed: " ++ str_of e)]);
         (py "suggestions",
          JArr [JStr (py "Check your GEMINI_API_KEY and internet connectivity.");
                JStr (py "Ensure google-genai is installed (version 0.3.0).")]) ].

(** The text of the response: its [text] attribute, or else the text of the
    first part of the content of the first candidate. *)
Definition extract_text (response : pyval) : result pyval :=
  bind (getattr response (py "text") VNone) (fun text =>
  if truthy text then Ok text else
  bind (getattr response (py "candidates") (VList [])) (fun candidates =>
  if truthy candidates then
    bind (index0 candidates) (fun candidate =>
    bind (getattr candidate (py "content") VNone) (fun content =>
    if truthy content then
      bind (getattr content (py "parts") (VList [])) (fun parts =>
      if truthy parts then
        bind (index0 parts) (fun part =>
        bind (hasattr part (py "text")) (fun has =>
        if has then attr_lookup part (py "text") else Ok text))
      else Ok text)
    else Ok text))
  else Ok text)).

(** [_clean_to_json_str(text or '')] on whatever [text] is: a value that is
    true and not a [str] has no [strip]. *)
Definition clean_text {L : limits} (text : pyval) : result (option pystr) :=
  match (if truthy text then text else VStr []) with
  | VStr s => Ok (_clean_to_json_str s)
  | v => bind (call_strip v) (fun _ => Ok None)
  end.

Section Client.

(** The interpreter the client runs in. *)
Context {L : limits}.

(** The module constants [SYSTEM_INSTRUCTIONS] (a fixed text, sent to the
    provider only) and [GEMINI_MODEL], the environment variable
    [GEMINI_API_KEY], and the provider:
    [generate_content model contents] is what
    [client.models.generate_content] does, it returns a response object or
    raises. *)
Variable SYSTEM_INSTRUCTIONS : pystr.
Variable GEMINI_MODEL : pystr.
Variable GEMINI_API_KEY : option pystr.
Variable generate_content : pystr -> pystr -> result pyval.

(** [get_client()]: fails without an API key; the construction of the
    client itself is taken to succeed. *)
Definition get_client : result unit :=
  match GEMINI_API_KEY with
  | Some (_ :: _) => Ok tt
  | _ => Raise (Exn OtherException
                    (10060%N :: py " GEMINI_API_KEY environment variable is not set."))
  end.

Definition build_prompt (user_code : pystr) (language_hint : option pystr)
  : pystr :=
  let lang :=
    match language_hint with
    | Some (c :: l) => c :: l
    | _ => py "Auto-detect"
    end in
  LF :: py "Language: " ++ lang ++ [LF; LF]
  ++ py "Analyze this code for syntax or logic errors." ++ [LF; LF]
  ++ py "Code:" ++ [LF] ++ user_code ++ [LF; LF]
  ++ py "Now, return JSON exactly as per the format above." ++ [LF].

(** [review_code(user_code, language_hint)]. *)
Definition review_code (user_code : pystr) (language_hint : option pystr)
  : result pystr :=
  bind get_client (fun _ =>
  let full_prompt :=
    SYSTEM_INSTRUCTIONS ++ [LF; LF] ++ build_prompt user_code language_hint in
  let attempt :=
    bind (generate_content GEMINI_MODEL full_prompt) (fun response =>
    bind (extract_text response) (fun text =>
    bind (clean_text text) (fun json_str =>
    match json_str with
    | Some (c :: j) => Ok (c :: j)
    | _ => Ok (json_dumps fallback)
    end))) in
  match attempt with
  | Ok s => Ok s
  | Raise e => Ok (json_dumps (error_json e))
  end).

End Client.

End gemini_client.

(** ** [backend/app.py] *)

Module app.
Import Py Json.

(** [clean_json_output(raw)]. *)
Definition clean_json_output (raw : pystr) : pystr :=
  match raw with
  | [] => py "{}"
  | _ :: _ =>
      let cleaned := sub_leading_fence (strip raw) in
      let cleaned := sub_trailing_fence cleaned in
      let start := find LBRACE cleaned in
      let end_ := rfind RBRACE cleaned in
      if negb (Z.eqb start (-1)) && negb (Z.eqb end_ (-1))
      then slice cleaned start (end_ + 1)
      else cleaned
  end.

(** A response of the handler: the status and the body given to
    [jsonify]. *)
Record response := Response { status : Z; body : json }.

(** What a request comes to: a response, or an exception that leaves the
    handler; and the calls of the model client it made, with their
    arguments. *)
Record served := Served {
  outcome : result response;
  model_calls : list (pystr * pyval)
}.

Definition error_body (msg : pystr) : json := JObj [(py "error", JStr msg)].

Definition soft_fail_body (raw : pystr) : json :=
  JObj [ (py "summary", JStr (py "Gemini returned non-JSON. Showing raw."));
         (py "raw", JStr raw) ].

(** The exception of reading the local [raw] before it is assigned. *)
Definition raw_unbound : exn :=
  Exn OtherException
      (py "cannot access local variable 'raw' where it is not associated with a value").

(** [request.get_json(silent=True) or {}]. *)
Definition request_data (got_json : pyval) : pyval :=
  if truthy got_json then got_json else VDict [].

(** The first statements of [api_review], before the test on [code]:
    [code = data.get('code', '').strip()] and
    [language = data.get('language')]. *)
Definition request_fields (data : pyval) : result (pystr * pyval) :=
  bind (call_get data (py "code") (VStr [])) (fun c =>
  bind (call_strip c) (fun code =>
  bind (call_get data (py "language") VNone) (fun language =>
  Ok (code, language)))).

Section Front.

(** The interpreter the handler runs in. *)
Context {L : limits}.

(** The model client [review_code] imported from [gemini_client], called
    with the trimmed code and with [data.get('language')]. *)
Variable review_code : pystr -> pyval -> result pystr.

(** [api_review()], where [got_json] is what
    [request.get_json(silent=True)] returns: the decoded body, or [None].
    Of the two handlers of the [try] block the first takes
    [json.JSONDecodeError], the second every other exception, whether
    [review_code] or [json.loads] raised it. *)
Definition api_review (got_json : pyval) : served :=
  let data := request_data got_json in
  match request_fields data with
  | Raise e => Served (Raise e) []
  | Ok ([], _) =>
      Served (Ok (Response 400 (error_body (py "No code provided.")))) []
  | Ok (code, language) =>
      Served
        match review_code code language with
        | Ok raw =>
            match json_loads (clean_json_output raw) with
            | Loaded parsed => Ok (Response 200 parsed)
            | DecodeError => Ok (Response 200 (soft_fail_body raw))
            | OtherError e => Ok (Response 500 (error_body (str_of e)))
            end
        | Raise e =>
            match kind e with
            | JSONDecodeError => Raise raw_unbound
            | _ => Ok (Response 500 (error_body (str_of e)))
            end
        end
        [(code, language)]
  end.

End Front.

End app.

(** ** Notions used in the statements *)

Module Notions.
Import Py Json gemini_client.

(** The text both sanitizers work on: trimmed, without the fences. *)
Definition unfenced (raw : pystr) : pystr :=
  sub_trailing_fence (sub_leading_fence (strip raw)).

(** The seven characters of the object with the one member a, of value 1. *)
Definition object_a1 : pystr :=
  [LBRACE; QUOTE; 97; QUOTE; COLON; 49; RBRACE]%N.

(** The same object in a fence with the language tag json. *)
Definition fenced_object_a1 : pystr :=
  py "```json" ++ [LF] ++ object_a1 ++ [LF] ++ py "```".

(** The pieces an encoded string is made of, as the decoder reads them: a
    character that stands for itself, a one-letter escape, a unicode
    escape. *)
Inductive escape_unit : pystr -> Prop :=
| unit_plain (c : char) :
    N.eqb c QUOTE = false -> N.eqb c BACKSLASH = false -> N.leb c 31 = false ->
    escape_unit [c]
| unit_letter (e x : char) :
    N.eqb e LOWER_U = false -> unescape e = Some x ->
    escape_unit [BACKSLASH; e]
| unit_unicode (h1 h2 h3 h4 : char) (u : N) :
    hex4 h1 h2 h3 h4 = Some u ->
    escape_unit [BACKSLASH; LOWER_U; h1; h2; h3; h4].

(** The member [name] of an object. *)
Definition field (name : pystr) (v : json) : option json :=
  match v with
  | JObj members => dict_get name members
  | _ => None
  end.

(** A provider that always raises, and one that always returns a response
    whose [text] is the one-member object. *)
Definition failing_provider (_ _ : pystr) : result pyval :=
  Raise (Exn OtherException (py "quota exceeded")).

Definition answering_provider (_ _ : pystr) : result pyval :=
  Ok (VObj (py "GenerateContentResponse") true
           [(py "text", Ok (VStr object_a1))]).

(** A model client that returns a text which is not JSON. *)
Definition prose_client (_ : pystr) (_ : pyval) : result pystr :=
  Ok (py "The code looks fine.").

(** The text from the first opening brace to the last closing brace of
    [s], as Python slices it. *)
Definition brace_span (s : pystr) : pystr :=
  slice s (find LBRACE s) (rfind RBRACE s + 1).

(** [t] has the braces of [s] at the same places, up to a shift [delta] of
    the indices: the same braces are there, the first opening and the last
    closing brace are both moved by [delta], and the span between them is the
    same text. *)
Definition same_braces (delta : Z) (s t : pystr) : Prop :=
  (In LBRACE s <-> In LBRACE t)
  /\ (In RBRACE s <-> In RBRACE t)
  /\ (In LBRACE s -> In RBRACE s ->
      find LBRACE t = (find LBRACE s - delta)%Z
      /\ rfind RBRACE t = (rfind RBRACE s - delta)%Z
      /\ brace_span t = brace_span s).

(** The hint that [review_code] gets from the language of the request when
    that is a string or missing. *)
Definition language_hint_of (language : pyval) : option pystr :=
  match language with
  | VStr s => Some s
  | _ => None
  end.

(** The model client as the handler calls it: [review_code] of
    [gemini_client] with its configuration and provider, in the interpreter
    of the handler. *)
Definition model_client {L : limits} (SYSTEM_INSTRUCTIONS GEMINI_MODEL : pystr)
           (GEMINI_API_KEY : option pystr)
           (generate_content : pystr -> pystr -> result pyval)
           (code : pystr) (language : pyval) : result pystr :=
  review_code SYSTEM_INSTRUCTIONS GEMINI_MODEL GEMINI_API_KEY generate_content
              code (language_hint_of language).

(** A response that has the text in its [text] attribute, and one that has
    it in the first part of the content of its first candidate. *)
Definition direct_response (cls : pystr) (s : pystr) : pyval :=
  VObj cls true [(py "text", Ok (VStr s))].

Definition nested_response (cls c1 c2 c3 : pystr) (s : pystr) : pyval :=
  VObj cls true
    [(py "candidates",
      Ok (VList
            [VObj c1 true
               [(py "content",
                 Ok (VObj c2 true
                       [(py "parts",
                         Ok (VList [VObj c3 true
                                      [(py "text", Ok (VStr s))]]))]))]]))].

(** A Unicode scalar value: a code point that is not a surrogate. *)
Definition is_scalar (c : char) : bool :=
  negb (between 55296%N 57343%N c) && N.ltb c 1114112%N.

Definition fresh_key (k : pystr) (members : list (pystr * json)) : bool :=
  negb (existsb (fun kv => str_eqb (fst kv) k) members).

(** A document that [json.dumps] and [json.loads] carry unchanged: no
    numbers, strings and keys of scalar values, and no key twice in an
    object. *)
Fixpoint round_trips (v : json) : bool :=
  match v with
  | JNull => true
  | JBool _ => true
  | JNumber _ => false
  | JStr s => forallb is_scalar s
  | JArr items => forallb round_trips items
  | JObj members =>
      (fix members_ok (ms : list (pystr * json)) : bool :=
         match ms with
         | [] => true
         | kv :: r =>
             forallb is_scalar (fst kv) && fresh_key (fst kv) r
             && round_trips (snd kv) && members_ok r
         end) members
  end.

(** The levels of objects and arrays in a document, which the scanner
    enters one inside the other. *)
Fixpoint height (v : json) : nat :=
  match v with
  | JArr items => S (list_max (List.map height items))
  | JObj members => S (list_max (List.map (fun kv => height (snd kv)) members))
  | _ => 0
  end.

(** The scanner reads the serialised [v] back as [v] and stops behind it,
    when it can enter the levels of [v]. *)
Definition scans_exact {L : limits} (v : json) : Prop :=
  forall rest depth, (height v <= depth)%nat ->
    exists k, scan_once k depth (json_dumps v ++ rest) = Scanned v rest.

(** A document without numbers: only such documents are serialised by the
    program. *)
Fixpoint number_free (v : json) : bool :=
  match v with
  | JNumber _ => false
  | JArr items => forallb number_free items
  | JObj members => forallb (fun kv => number_free (snd kv)) members
  | _ => true
  end.

(** One member of an object as [json_dumps] writes it. *)
Definition dump_member (kv : pystr * json) : pystr :=
  encode_basestring_ascii (fst kv) ++ py ": " ++ json_dumps (snd kv).

(** The scanner reads the serialised [v] and stops behind it, whatever
    follows, when it can enter the levels of [v]. *)
Definition scans {L : limits} (v : json) : Prop :=
  forall rest depth, (height v <= depth)%nat ->
    exists k v', scan_once k depth (json_dumps v ++ rest) = Scanned v' rest.

(** The decimal digits of a number. *)
Definition decimal (n : nat) : pystr :=
  py (NilZero.string_of_uint (Nat.to_uint n)).

(** A model client that returns a hundred thousand opening brackets. *)
Definition deep_array : pystr :=
  List.repeat LBRACKET (N.to_nat 100000).

Definition deep_client (_ : pystr) (_ : pyval) : result pystr :=
  Ok deep_array.

(** An interpreter with the limits CPython has by default: a thousand
    levels, 4300 digits, and its messages. *)
Definition default_limits : limits := {|
  max_depth := 1000;
  int_max_str_digits := 4300;
  recursion_message := fun c =>
    py "maximum recursion depth exceeded while decoding a JSON "
    ++ match c with InObject => py "object" | InArray => py "array" end
    ++ py " from a unicode string";
  digits_message := fun n =>
    py "Exceeds the limit (4300 digits) for integer string conversion: value has "
    ++ decimal n
    ++ py " digits; use sys.set_int_max_str_digits() to increase the limit";
  depth_enough := proj1 (Nat.leb_le 2 1000) eq_refl
|}.

End Notions.

(** * Properties *)

Import Py Json gemini_client app Notions.

Section Properties.

(** The interpreter that runs the program, with whatever limits it has. *)
Context {L : limits}.

Lemma max_depth_two : exists d, max_depth = S (S d).
Proof.
  pose proof depth_enough as H.
  destruct max_depth as [|[|d]]; [lia|lia|now exists d].
Qed.

(** The decoder on a given text: two levels are there to be entered. *)
Ltac decoder_at_depth_two :=
  let d := fresh "d" in
  let Hd := fresh "Hd" in
  destruct max_depth_two as [d Hd];
  unfold _clean_to_json_str, json_loads; rewrite ?Hd.

(** ** Strings *)

Lemma drop_while_all (p : char -> bool) (s : pystr) :
  forallb p s = true -> drop_while p s = [].
Proof.
  induction s as [|c s IH]; simpl; [reflexivity|].
  intros H. apply andb_prop in H. destruct H as [Hc Hs].
  rewrite Hc. auto.
Qed.

Lemma strip_whitespace (s : pystr) :
  forallb is_space s = true -> strip s = [].
Proof.
  intros H. unfold strip, lstrip, rstrip.
  rewrite (drop_while_all _ _ H). reflexivity.
Qed.

Lemma drop_while_length (p : char -> bool) (s : pystr) :
  (List.length (drop_while p s) <= List.length s)%nat.
Proof.
  induction s as [|c s IH]; simpl; [lia|].
  destruct (p c); simpl; lia.
Qed.

Lemma find_from_range (c : char) (s : pystr) (i : Z) :
  find_from c s i = (-1)%Z \/ (i <= find_from c s i)%Z.
Proof.
  revert i. induction s as [|x s IH]; intros i; simpl; [now left|].
  destruct (N.eqb x c); [right; lia|].
  destruct (IH (i + 1)%Z) as [H|H]; [now left|right; lia].
Qed.

(** ** The sanitizers *)

(** What [_clean_to_json_str] returns is the slice between the first
    opening and the last closing brace of the unfenced text, the closing one
    being behind the opening one, and it is a JSON document. *)
Lemma _clean_to_json_str_some (text c : pystr) :
  _clean_to_json_str text = Some c ->
  text <> []
  /\ (0 <= find LBRACE (unfenced text) < rfind RBRACE (unfenced text))%Z
  /\ c = slice (unfenced text) (find LBRACE (unfenced text))
                (rfind RBRACE (unfenced text) + 1)
  /\ exists v, json_loads c = Loaded v.
Proof.
  unfold _clean_to_json_str. fold (unfenced text).
  destruct text as [|a text']; [discriminate|].
  set (u := unfenced (a :: text')).
  destruct (negb (Z.eqb (find LBRACE u) (-1))) eqn:Hs; cbn [andb];
    [|discriminate].
  destruct (negb (Z.eqb (rfind RBRACE u) (-1))) eqn:He; cbn [andb];
    [|discriminate].
  destruct (Z.ltb (find LBRACE u) (rfind RBRACE u)) eqn:Hlt; [|discriminate].
  destruct (json_loads (slice u (find LBRACE u) (rfind RBRACE u + 1)))
    as [v| |e] eqn:Hv; [|discriminate|discriminate].
  intros H. injection H as <-.
  apply negb_true_iff, Z.eqb_neq in Hs. apply Z.ltb_lt in Hlt.
  repeat split; try discriminate; try assumption.
  - unfold find in *. destruct (find_from_range LBRACE u 0) as [F|F]; lia.
  - exists v. exact Hv.
Qed.

(** C9: whenever the client variant returns a candidate, the front-end
    variant returns the same string on the same input. *)
Theorem sanitizers_agree (raw c : pystr) :
  _clean_to_json_str raw = Some c -> clean_json_output raw = c.
Proof.
  intros H. apply _clean_to_json_str_some in H.
  destruct H as (Hne & Hr & -> & _).
  unfold clean_json_output. fold (unfenced raw).
  destruct raw as [|a raw']; [congruence|].
  set (u := unfenced (a :: raw')) in *.
  assert (Hs : Z.eqb (find LBRACE u) (-1) = false) by (apply Z.eqb_neq; lia).
  assert (He : Z.eqb (rfind RBRACE u) (-1) = false) by (apply Z.eqb_neq; lia).
  rewrite Hs, He. reflexivity.
Qed.

(** C7: the fenced object comes out of both sanitizers as the seven
    characters of the object, fences and language tag removed and the braces
    kept. *)
Theorem sanitizers_strip_fences :
  clean_json_output fenced_object_a1 = object_a1
  /\ _clean_to_json_str fenced_object_a1 = Some object_a1
  /\ List.length object_a1 = 7%nat.
Proof. decoder_at_depth_two. repeat split; vm_compute; reflexivity. Qed.

(** C8: on the clean object both sanitizers return their input, and
    sanitizing the result again gives the same string. *)
Theorem sanitizers_idempotent_on_clean_input :
  clean_json_output object_a1 = object_a1
  /\ _clean_to_json_str object_a1 = Some object_a1
  /\ clean_json_output (clean_json_output object_a1)
     = clean_json_output object_a1
  /\ match _clean_to_json_str object_a1 with
     | Some c => _clean_to_json_str c = Some c
     | None => False
     end.
Proof. decoder_at_depth_two. repeat split; vm_compute; reflexivity. Qed.

(** C3, at a text whose last closing brace is before its first opening
    brace: the client variant takes no slice, the front-end variant takes
    the slice all the same, which is empty, and returns it in place of the
    text. *)
Theorem front_end_slices_reversed_braces :
  let text := py "}{" in
  find LBRACE (unfenced text) = 1%Z
  /\ rfind RBRACE (unfenced text) = 0%Z
  /\ _clean_to_json_str text = None
  /\ clean_json_output text = slice (unfenced text) 1 1
  /\ clean_json_output text = []
  /\ unfenced text = py "}{".
Proof. decoder_at_depth_two. repeat split; vm_compute; reflexivity. Qed.

(** The front-end variant takes the slice whenever both braces are there,
    in whatever order. *)
Lemma clean_json_output_slices (raw : pystr) :
  raw <> [] ->
  find LBRACE (unfenced raw) <> (-1)%Z ->
  rfind RBRACE (unfenced raw) <> (-1)%Z ->
  clean_json_output raw
  = slice (unfenced raw) (find LBRACE (unfenced raw))
          (rfind RBRACE (unfenced raw) + 1).
Proof.
  intros Hne Hs He. unfold clean_json_output. fold (unfenced raw).
  destruct raw as [|a raw']; [congruence|].
  apply Z.eqb_neq in Hs. apply Z.eqb_neq in He. rewrite Hs, He. reflexivity.
Qed.

(** C4, as stated, fails on one space: the front-end variant tests for
    emptiness before it trims, and returns the empty string. *)
Lemma clean_json_output_whitespace_only :
  forallb is_space (py " ") = true /\ clean_json_output (py " ") <> py "{}".
Proof. split; [reflexivity|vm_compute; discriminate]. Qed.

(** C4, amended: on whitespace only, the front-end variant returns the
    empty object for the empty string and the empty string otherwise; the
    client variant returns [None]. *)
Theorem sanitizers_on_whitespace (raw : pystr) :
  forallb is_space raw = true ->
  clean_json_output raw = (match raw with [] => py "{}" | _ :: _ => [] end)
  /\ _clean_to_json_str raw = None.
Proof.
  intros H. unfold clean_json_output, _clean_to_json_str.
  destruct raw as [|a raw']; [split; reflexivity|].
  rewrite (strip_whitespace _ H). split; reflexivity.
Qed.

(** ** The decoder on encoded strings *)

Lemma scanstring_unicode (h1 h2 h3 h4 : char) (r2 : pystr) :
  scanstring (BACKSLASH :: LOWER_U :: h1 :: h2 :: h3 :: h4 :: r2)
  = match hex4 h1 h2 h3 h4 with
    | None => None
    | Some u =>
        if is_high_surrogate u then
          match low_surrogate_escape r2 with
          | None => None
          | Some (Some (u2, s3)) =>
              cons_char (join_surrogates u u2) (scanstring s3)
          | Some None => cons_char u (scanstring r2)
          end
        else cons_char u (scanstring r2)
    end.
Proof.
  change (scanstring (BACKSLASH :: LOWER_U :: h1 :: h2 :: h3 :: h4 :: r2))
    with (match hex4 h1 h2 h3 h4 with
          | None => None
          | Some u =>
              if is_high_surrogate u then
                match r2 with
                | b :: s1 =>
                    if N.eqb b BACKSLASH then
                      match s1 with
                      | x :: s2 =>
                          if N.eqb x LOWER_U then
                            match s2 with
                            | l1 :: l2 :: l3 :: l4 :: s3 =>
                                match hex4 l1 l2 l3 l4 with
                                | Some u2 =>
                                    if is_low_surrogate u2 then
                                      cons_char (join_surrogates u u2)
                                                (scanstring s3)
                                    else cons_char u (scanstring r2)
                                | None => None
                                end
                            | _ => None
                            end
                          else cons_char u (scanstring r2)
                      | [] => cons_char u (scanstring r2)
                      end
                    else cons_char u (scanstring r2)
                | [] => cons_char u (scanstring r2)
                end
              else cons_char u (scanstring r2)
          end).
  destruct (hex4 h1 h2 h3 h4) as [u|]; [|reflexivity].
  destruct (is_high_surrogate u); [|reflexivity].
  unfold low_surrogate_escape.
  destruct r2 as [|b s1]; [reflexivity|].
  destruct (N.eqb b BACKSLASH); [|reflexivity].
  destruct s1 as [|x s2]; [reflexivity|].
  destruct (N.eqb x LOWER_U); [|reflexivity].
  destruct s2 as [|l1 [|l2 [|l3 [|l4 s3]]]]; try reflexivity.
  destruct (hex4 l1 l2 l3 l4) as [u2|]; [|reflexivity].
  destruct (is_low_surrogate u2); reflexivity.
Qed.

Lemma scanstring_plain (c : char) (r : pystr) :
  N.eqb c QUOTE = false -> N.eqb c BACKSLASH = false -> N.leb c 31 = false ->
  scanstring (c :: r) = cons_char c (scanstring r).
Proof. intros H1 H2 H3. simpl. rewrite H1, H2, H3. reflexivity. Qed.

Lemma scanstring_letter (e x : char) (r : pystr) :
  N.eqb e LOWER_U = false -> unescape e = Some x ->
  scanstring (BACKSLASH :: e :: r) = cons_char x (scanstring r).
Proof. intros H1 H2. simpl. rewrite H1, H2. reflexivity. Qed.

(** Behind a high surrogate, an encoded string never shows a malformed
    escape: either nothing is joined, or the next piece is consumed. *)
Lemma low_surrogate_escape_units (us : list pystr) (rest : pystr) :
  Forall escape_unit us ->
  low_surrogate_escape (List.concat us ++ QUOTE :: rest) = Some None
  \/ exists u2 un us',
      us = un :: us'
      /\ low_surrogate_escape (List.concat us ++ QUOTE :: rest)
         = Some (Some (u2, List.concat us' ++ QUOTE :: rest)).
Proof.
  intros H. destruct H as [|un us' Hun Hus']; [left; reflexivity|].
  destruct Hun as [c H1 H2 H3|e x H1 H2|h1 h2 h3 h4 u Hu].
  - left. simpl. rewrite H2. reflexivity.
  - left. simpl. rewrite H1. reflexivity.
  - simpl. rewrite Hu. destruct (is_low_surrogate u).
    + right. exists u, [BACKSLASH; LOWER_U; h1; h2; h3; h4], us'.
      split; reflexivity.
    + left. reflexivity.
Qed.

Lemma scanstring_units_bounded (n : nat) :
  forall (us : list pystr) (rest : pystr),
    (List.length us <= n)%nat ->
    Forall escape_unit us ->
    exists t, scanstring (List.concat us ++ QUOTE :: rest) = Some (t, rest).
Proof.
  induction n as [|n IH]; intros us rest Hlen Hus.
  - destruct us; [|simpl in Hlen; lia]. exists []. reflexivity.
  - destruct us as [|un us']; [exists []; reflexivity|].
    simpl in Hlen. inversion Hus as [|? ? Hun Hus' E]; subst.
    destruct (IH us' rest ltac:(lia) Hus') as [t Ht].
    destruct Hun as [c H1 H2 H3|e x H1 H2|h1 h2 h3 h4 u Hu].
    + exists (c :: t). simpl List.concat. simpl app.
      rewrite scanstring_plain, Ht by assumption. reflexivity.
    + exists (x :: t). simpl List.concat. simpl app.
      rewrite (scanstring_letter _ _ H1 H2), Ht. reflexivity.
    + simpl List.concat. simpl app. rewrite scanstring_unicode, Hu.
      destruct (is_high_surrogate u).
      * destruct (low_surrogate_escape_units rest Hus')
          as [E|(u2 & un & us'' & -> & E)]; rewrite E.
        -- exists (u :: t). rewrite Ht. reflexivity.
        -- inversion Hus' as [|? ? _ Hus'' E']; subst.
           simpl in Hlen.
           destruct (IH us'' rest ltac:(lia) Hus'') as [t' Ht'].
           exists (join_surrogates u u2 :: t'). rewrite Ht'. reflexivity.
      * exists (u :: t). rewrite Ht. reflexivity.
Qed.

Lemma scanstring_units (us : list pystr) (rest : pystr) :
  Forall escape_unit us ->
  exists t, scanstring (List.concat us ++ QUOTE :: rest) = Some (t, rest).
Proof. apply (scanstring_units_bounded (n := List.length us)). lia. Qed.

Lemma hex_value_digit (d : N) :
  (d < 16)%N -> hex_value (hex_digit d) = Some d.
Proof.
  intros H.
  assert (E : (d = 0 \/ d = 1 \/ d = 2 \/ d = 3 \/ d = 4 \/ d = 5 \/ d = 6
               \/ d = 7 \/ d = 8 \/ d = 9 \/ d = 10 \/ d = 11 \/ d = 12
               \/ d = 13 \/ d = 14 \/ d = 15)%N) by lia.
  repeat (destruct E as [E|E]; [subst; reflexivity|]).
  subst. reflexivity.
Qed.

Lemma u_escape_unit (u : N) : escape_unit (u_escape u).
Proof.
  unfold u_escape.
  apply unit_unicode
    with (u := ((u / 4096 mod 16) * 4096 + (u / 256 mod 16) * 256
                + (u / 16 mod 16) * 16 + u mod 16)%N).
  unfold hex4.
  rewrite !hex_value_digit by (apply N.mod_upper_bound; discriminate).
  reflexivity.
Qed.

(** What the encoder writes for a character is one piece, or two for a
    character beyond the basic plane. *)
Lemma escape_char_units (c : char) :
  exists us, Forall escape_unit us /\ escape_char c = List.concat us.
Proof.
  unfold escape_char.
  destruct (N.eqb c QUOTE) eqn:Hq.
  { exists [[BACKSLASH; QUOTE]]. split; [|reflexivity].
    apply Forall_cons; [|apply Forall_nil]. now apply unit_letter with (x := QUOTE). }
  destruct (N.eqb c BACKSLASH) eqn:Hb.
  { exists [[BACKSLASH; BACKSLASH]]. split; [|reflexivity].
    apply Forall_cons; [|apply Forall_nil]. now apply unit_letter with (x := BACKSLASH). }
  destruct (N.eqb c 10%N).
  { exists [[BACKSLASH; 110%N]]. split; [|reflexivity].
    apply Forall_cons; [|apply Forall_nil]. now apply unit_letter with (x := 10%N). }
  destruct (N.eqb c 13%N).
  { exists [[BACKSLASH; 114%N]]. split; [|reflexivity].
    apply Forall_cons; [|apply Forall_nil]. now apply unit_letter with (x := 13%N). }
  destruct (N.eqb c 9%N).
  { exists [[BACKSLASH; 116%N]]. split; [|reflexivity].
    apply Forall_cons; [|apply Forall_nil]. now apply unit_letter with (x := 9%N). }
  destruct (N.eqb c 8%N).
  { exists [[BACKSLASH; 98%N]]. split; [|reflexivity].
    apply Forall_cons; [|apply Forall_nil]. now apply unit_letter with (x := 8%N). }
  destruct (N.eqb c 12%N).
  { exists [[BACKSLASH; 102%N]]. split; [|reflexivity].
    apply Forall_cons; [|apply Forall_nil]. now apply unit_letter with (x := 12%N). }
  destruct (between 32%N 126%N c) eqn:Hp.
  { exists [[c]]. split; [|reflexivity].
    apply Forall_cons; [|apply Forall_nil]. apply unit_plain; try assumption.
    unfold between in Hp. apply andb_prop in Hp. destruct Hp as [Hp _].
    apply N.leb_le in Hp. apply N.leb_gt. lia. }
  destruct (N.ltb c 65536%N).
  { exists [u_escape c]. split; [|reflexivity].
    apply Forall_cons; [|apply Forall_nil]. apply u_escape_unit. }
  eexists [u_escape _; u_escape _]. split.
  - repeat (apply Forall_cons; [apply u_escape_unit|]). apply Forall_nil.
  - reflexivity.
Qed.

Lemma escaped_units (s : pystr) :
  exists us, Forall escape_unit us /\ flat_map escape_char s = List.concat us.
Proof.
  induction s as [|c s (us & Hus & E)]; [exists []; split; [constructor|reflexivity]|].
  destruct (escape_char_units c) as (uc & Huc & Ec).
  exists (uc ++ us). split; [apply Forall_app; now split|].
  simpl. rewrite E, Ec, concat_app. reflexivity.
Qed.

(** The decoder reads every encoded string up to its closing quote. *)
Lemma scanstring_encoded (s rest : pystr) :
  exists t, scanstring (flat_map escape_char s ++ QUOTE :: rest) = Some (t, rest).
Proof.
  destruct (escaped_units s) as (us & Hus & ->).
  now apply scanstring_units.
Qed.

(** ** The scanner and its budget *)

Lemma scan_once_step (f d : nat) (s : pystr) :
  scan_once (S f) d s
  = match s with
    | [] => Malformed
    | c :: r =>
        if N.eqb c QUOTE then
          match scanstring r with
          | Some (t, r') => Scanned (JStr t) r'
          | None => Malformed
          end
        else if N.eqb c LBRACE then
          match d with
          | O => Failed (RecursionError InObject)
          | S d' =>
              match skip_ws r with
              | x :: r' =>
                  if N.eqb x RBRACE then Scanned (JObj []) r'
                  else if N.eqb x QUOTE
                       then scan_map JObj (JSONObject f d' [] r')
                  else Malformed
              | [] => Malformed
              end
          end
        else if N.eqb c LBRACKET then
          match d with
          | O => Failed (RecursionError InArray)
          | S d' =>
              match skip_ws r with
              | x :: r' =>
                  if N.eqb x RBRACKET then Scanned (JArr []) r'
                  else scan_map JArr (JSONArray f d' [] (x :: r'))
              | [] => Malformed
              end
          end
        else scan_literal s
    end.
Proof. reflexivity. Qed.

Lemma JSONArray_step (f d : nat) (acc : list json) (s : pystr) :
  JSONArray (S f) d acc s
  = match scan_once f d s with
    | Scanned v r =>
        match skip_ws r with
        | x :: r' =>
            if N.eqb x RBRACKET then Scanned (acc ++ [v]) r'
            else if N.eqb x COMMA then JSONArray f d (acc ++ [v]) (skip_ws r')
            else Malformed
        | [] => Malformed
        end
    | Malformed => Malformed
    | Failed e => Failed e
    | Exhausted => Exhausted
    end.
Proof. reflexivity. Qed.

Lemma JSONObject_step (f d : nat) (acc : list (pystr * json)) (s : pystr) :
  JSONObject (S f) d acc s
  = match scanstring s with
    | None => Malformed
    | Some (key, r) =>
        match skip_ws r with
        | x :: r1 =>
            if N.eqb x COLON then
              match scan_once f d (skip_ws r1) with
              | Scanned v r2 =>
                  match skip_ws r2 with
                  | y :: r3 =>
                      if N.eqb y RBRACE then Scanned (dict_set key v acc) r3
                      else if N.eqb y COMMA then
                        match skip_ws r3 with
                        | q :: r4 =>
                            if N.eqb q QUOTE
                            then JSONObject f d (dict_set key v acc) r4
                            else Malformed
                        | [] => Malformed
                        end
                      else Malformed
                  | [] => Malformed
                  end
              | Malformed => Malformed
              | Failed e => Failed e
              | Exhausted => Exhausted
              end
            else Malformed
        | [] => Malformed
        end
    end.
Proof. reflexivity. Qed.

(** A scan that does not run out of budget gives the same result with any
    larger budget. *)
Lemma scan_more_budget (k : nat) :
  (forall k' d s, (k <= k')%nat ->
     scan_once k d s <> Exhausted -> scan_once k' d s = scan_once k d s)
  /\ (forall k' d acc s, (k <= k')%nat ->
        JSONArray k d acc s <> Exhausted ->
        JSONArray k' d acc s = JSONArray k d acc s)
  /\ (forall k' d acc s, (k <= k')%nat ->
        JSONObject k d acc s <> Exhausted ->
        JSONObject k' d acc s = JSONObject k d acc s).
Proof.
  induction k as [|k (IHv & IHa & IHo)].
  - repeat split; intros; simpl in *; congruence.
  - repeat split.
    + intros [|k'] d s Hle H; [lia|].
      rewrite !scan_once_step. rewrite scan_once_step in H.
      destruct s as [|c r0]; [reflexivity|].
      destruct (N.eqb c QUOTE); [reflexivity|].
      destruct (N.eqb c LBRACE).
      { destruct d as [|d]; [reflexivity|].
        destruct (skip_ws r0) as [|x r']; [reflexivity|].
        destruct (N.eqb x RBRACE); [reflexivity|].
        destruct (N.eqb x QUOTE); [|reflexivity].
        rewrite (IHo k' d [] r'); [reflexivity|lia|].
        intros E. rewrite E in H. now apply H. }
      destruct (N.eqb c LBRACKET); [|reflexivity].
      destruct d as [|d]; [reflexivity|].
      destruct (skip_ws r0) as [|x r']; [reflexivity|].
      destruct (N.eqb x RBRACKET); [reflexivity|].
      rewrite (IHa k' d [] (x :: r')); [reflexivity|lia|].
      intros E. rewrite E in H. now apply H.
    + intros [|k'] d acc s Hle H; [lia|].
      rewrite !JSONArray_step. rewrite JSONArray_step in H.
      rewrite (IHv k' d s); [|lia|intros E; rewrite E in H; now apply H].
      destruct (scan_once k d s) as [w r1| |e|]; try reflexivity.
      destruct (skip_ws r1) as [|x r']; [reflexivity|].
      destruct (N.eqb x RBRACKET); [reflexivity|].
      destruct (N.eqb x COMMA); [|reflexivity].
      apply IHa; [lia|exact H].
    + intros [|k'] d acc s Hle H; [lia|].
      rewrite !JSONObject_step. rewrite JSONObject_step in H.
      destruct (scanstring s) as [[key r0]|]; [|reflexivity].
      destruct (skip_ws r0) as [|x r1]; [reflexivity|].
      destruct (N.eqb x COLON); [|reflexivity].
      rewrite (IHv k' d (skip_ws r1));
        [|lia|intros E; rewrite E in H; now apply H].
      destruct (scan_once k d (skip_ws r1)) as [w r2| |e|]; try reflexivity.
      destruct (skip_ws r2) as [|y r3]; [reflexivity|].
      destruct (N.eqb y RBRACE); [reflexivity|].
      destruct (N.eqb y COMMA); [|reflexivity].
      destruct (skip_ws r3) as [|q r4]; [reflexivity|].
      destruct (N.eqb q QUOTE); [|reflexivity].
      apply IHo; [lia|exact H].
Qed.

Lemma cons_char_some (c : char) (o : option (pystr * pystr)) (t r : pystr) :
  cons_char c o = Some (t, r) -> exists t', o = Some (t', r).
Proof.
  destruct o as [[t' r']|]; simpl; [|discriminate].
  intros H. injection H as _ <-. now exists t'.
Qed.

Lemma low_surrogate_escape_length (s s3 : pystr) (u2 : N) :
  low_surrogate_escape s = Some (Some (u2, s3)) ->
  List.length s = (6 + List.length s3)%nat.
Proof.
  unfold low_surrogate_escape.
  destruct s as [|b [|x [|l1 [|l2 [|l3 [|l4 s']]]]]];
    try discriminate;
    destruct (N.eqb b BACKSLASH); try discriminate;
    destruct (N.eqb x LOWER_U); try discriminate.
  destruct (hex4 l1 l2 l3 l4); [|discriminate].
  destruct (is_low_surrogate n); [|discriminate].
  intros H. injection H as _ <-. reflexivity.
Qed.

Lemma scanstring_shorter_bounded (n : nat) :
  forall s t r, (List.length s <= n)%nat ->
    scanstring s = Some (t, r) -> (List.length r < List.length s)%nat.
Proof.
  induction n as [|n IH]; intros s t r Hlen H.
  - destruct s; [discriminate|simpl in Hlen; lia].
  - destruct s as [|c r0]; [discriminate|].
    simpl in Hlen.
    destruct (N.eqb c QUOTE) eqn:Eq.
    { simpl in H. rewrite Eq in H. injection H as _ <-. simpl. lia. }
    destruct (N.eqb c BACKSLASH) eqn:Eb.
    + apply N.eqb_eq in Eb. subst c.
      destruct r0 as [|e r1]; [discriminate|].
      destruct (N.eqb e LOWER_U) eqn:Eu.
      * apply N.eqb_eq in Eu. subst e.
        destruct r1 as [|h1 [|h2 [|h3 [|h4 r2]]]]; try discriminate.
        rewrite scanstring_unicode in H.
        destruct (hex4 h1 h2 h3 h4) as [u|]; [|discriminate].
        assert (Hlone : forall t0, cons_char u (scanstring r2) = Some (t0, r) ->
                  (List.length r < List.length r2)%nat).
        { intros t0 H0. apply cons_char_some in H0. destruct H0 as [t' H0].
          apply IH in H0; [exact H0|simpl in Hlen; lia]. }
        simpl List.length.
        destruct (is_high_surrogate u).
        -- destruct (low_surrogate_escape r2) as [[[u2 s3]|]|] eqn:El;
             [|apply Hlone in H; lia|discriminate].
           apply low_surrogate_escape_length in El.
           apply cons_char_some in H. destruct H as [t' H].
           apply IH in H; [lia|simpl in Hlen; lia].
        -- apply Hlone in H. lia.
      * simpl in H. rewrite Eu in H.
        destruct (unescape e) as [x|]; [|discriminate].
        apply cons_char_some in H. destruct H as [t' H].
        apply IH in H; [simpl; lia|simpl in Hlen; lia].
    + simpl in H. rewrite Eq, Eb in H.
      destruct (N.leb c 31); [discriminate|].
      apply cons_char_some in H. destruct H as [t' H].
      apply IH in H; [simpl; lia|lia].
Qed.

Lemma scanstring_shorter (s t r : pystr) :
  scanstring s = Some (t, r) -> (List.length r < List.length s)%nat.
Proof. apply (scanstring_shorter_bounded (n := List.length s)). lia. Qed.

Lemma strip_prefix_length (p s r : pystr) :
  strip_prefix p s = Some r ->
  List.length s = (List.length p + List.length r)%nat.
Proof.
  revert s. induction p as [|x p IH]; intros s H; simpl in H.
  - injection H as <-. reflexivity.
  - destruct s as [|y s]; [discriminate|].
    destruct (N.eqb x y); [|discriminate].
    apply IH in H. simpl. lia.
Qed.

Lemma span_digits_length (s : pystr) :
  (List.length (snd (span_digits s)) <= List.length s)%nat.
Proof.
  induction s as [|c s IH]; simpl; [lia|].
  destruct (is_digit c); [|simpl; lia].
  destruct (span_digits s) as [d r]. simpl in *. lia.
Qed.

Lemma match_int_shorter (s i r : pystr) :
  match_int s = Some (i, r) -> (List.length r < List.length s)%nat.
Proof.
  unfold match_int.
  assert (Hd : forall (c : char) (r' : pystr) pre,
             (if N.eqb c 48%N
              then Some (pre ++ [c], r')
              else if between 49%N 57%N c
                   then let (d, r'') := span_digits r' in
                        Some (pre ++ c :: d, r'')
                   else None) = Some (i, r) ->
             (List.length r <= List.length r')%nat).
  { intros c r' pre H. destruct (N.eqb c 48%N).
    - injection H as _ <-. lia.
    - destruct (between 49%N 57%N c); [|discriminate].
      pose proof (span_digits_length r') as HL0.
      destruct (span_digits r') as [d r'']. injection H as _ <-. exact HL0. }
  destruct s as [|c s']; [discriminate|].
  destruct (N.eqb c 45%N).
  - destruct s' as [|c' r']; [discriminate|].
    intros H. apply Hd in H. simpl. lia.
  - intros H. apply Hd in H. simpl. lia.
Qed.

Lemma match_frac_length (s : pystr) :
  (List.length (snd (match_frac s)) <= List.length s)%nat.
Proof.
  unfold match_frac. destruct s as [|c r]; [simpl; lia|].
  destruct (N.eqb c 46%N); [|simpl; lia].
  pose proof (span_digits_length r) as HL0.
  destruct (span_digits r) as [[|d0 d] r']; simpl in *; lia.
Qed.

Lemma match_exp_length (s : pystr) :
  (List.length (snd (match_exp s)) <= List.length s)%nat.
Proof.
  unfold match_exp. destruct s as [|c r]; [simpl; lia|].
  destruct (N.eqb c 101%N || N.eqb c 69%N); [|simpl; lia].
  destruct r as [|x r1].
  - simpl. lia.
  - destruct (N.eqb x 43%N || N.eqb x 45%N).
    + pose proof (span_digits_length r1) as HL0.
      destruct (span_digits r1) as [[|d0 d] r']; simpl in *; lia.
    + pose proof (span_digits_length (x :: r1)) as HL0.
      destruct (span_digits (x :: r1)) as [[|d0 d] r']; simpl in *; lia.
Qed.

Lemma match_number_shorter (s lit r : pystr) :
  match_number s = Some (lit, r) -> (List.length r < List.length s)%nat.
Proof.
  unfold match_number.
  destruct (match_int s) as [[i r0]|] eqn:Ei; [|discriminate].
  apply match_int_shorter in Ei.
  pose proof (match_frac_length r0) as Lf.
  destruct (match_frac r0) as [f r1].
  pose proof (match_exp_length r1) as Le.
  destruct (match_exp r1) as [e r2].
  intros H. injection H as _ <-. simpl in *. lia.
Qed.

Lemma scan_literal_shorter (s : pystr) (v : json) (r : pystr) :
  scan_literal s = Scanned v r -> (List.length r < List.length s)%nat.
Proof.
  unfold scan_literal.
  repeat
    match goal with
    | |- context [strip_prefix ?p s] =>
        let E := fresh "E" in
        destruct (strip_prefix p s) eqn:E;
        [apply strip_prefix_length in E; simpl in E;
         intros H; injection H as _ <-; lia|]
    | |- context [match_number s] =>
        let E := fresh "E" in
        destruct (match_number s) as [[? ?]|] eqn:E;
        [apply match_number_shorter in E;
         destruct (is_integer_literal _ && exceeds_digits _);
         [discriminate|];
         intros H; injection H as _ <-; lia|]
    end.
  discriminate.
Qed.

Lemma skip_ws_length (s : pystr) :
  (List.length (skip_ws s) <= List.length s)%nat.
Proof. apply drop_while_length. Qed.

(** With a budget of twice the length of the text (and one or two more), no
    scan runs out of budget, and every scan that succeeds has consumed a
    character. *)
Lemma scan_within_budget (k : nat) :
  (forall d s, (2 * List.length s + 1 <= k)%nat ->
     scan_once k d s <> Exhausted
     /\ forall v r, scan_once k d s = Scanned v r ->
                    (List.length r < List.length s)%nat)
  /\ (forall d acc s, (2 * List.length s + 2 <= k)%nat ->
        JSONArray k d acc s <> Exhausted
        /\ forall v r, JSONArray k d acc s = Scanned v r ->
                       (List.length r < List.length s)%nat)
  /\ (forall d acc s, (2 * List.length s + 1 <= k)%nat ->
        JSONObject k d acc s <> Exhausted
        /\ forall v r, JSONObject k d acc s = Scanned v r ->
                       (List.length r < List.length s)%nat).
Proof.
  induction k as [|k (IHv & IHa & IHo)].
  - repeat split; intros; lia.
  - split; [|split].
    + intros d s Hk. rewrite scan_once_step.
      destruct s as [|c r0]; [split; [discriminate|intros; discriminate]|].
      simpl List.length in *.
      destruct (N.eqb c QUOTE).
      { destruct (scanstring r0) as [[t r']|] eqn:E;
          [|split; [discriminate|intros; discriminate]].
        apply scanstring_shorter in E.
        split; [discriminate|]. intros v r H. injection H as _ <-. lia. }
      destruct (N.eqb c LBRACE).
      { destruct d as [|d]; [split; [discriminate|intros; discriminate]|].
        pose proof (skip_ws_length r0) as Hl.
        destruct (skip_ws r0) as [|x r'];
          [split; [discriminate|intros; discriminate]|].
        simpl in Hl.
        destruct (N.eqb x RBRACE).
        { split; [discriminate|]. intros v r H. injection H as _ <-. lia. }
        destruct (N.eqb x QUOTE);
          [|split; [discriminate|intros; discriminate]].
        destruct (IHo d [] r' ltac:(lia)) as [Hne Hlt].
        destruct (JSONObject k d [] r') as [m r1| |e|] eqn:E; simpl.
        - split; [discriminate|]. intros v r H. injection H as _ <-.
          specialize (Hlt m r1 eq_refl). lia.
        - split; [discriminate|intros; discriminate].
        - split; [discriminate|intros; discriminate].
        - congruence. }
      destruct (N.eqb c LBRACKET).
      { destruct d as [|d]; [split; [discriminate|intros; discriminate]|].
        pose proof (skip_ws_length r0) as Hl.
        destruct (skip_ws r0) as [|x r'];
          [split; [discriminate|intros; discriminate]|].
        simpl in Hl.
        destruct (N.eqb x RBRACKET).
        { split; [discriminate|]. intros v r H. injection H as _ <-. lia. }
        destruct (IHa d [] (x :: r') ltac:(simpl; lia)) as [Hne Hlt].
        destruct (JSONArray k d [] (x :: r')) as [l r1| |e|] eqn:E; simpl.
        - split; [discriminate|]. intros v r H. injection H as _ <-.
          specialize (Hlt l r1 eq_refl). simpl in Hlt. lia.
        - split; [discriminate|intros; discriminate].
        - split; [discriminate|intros; discriminate].
        - congruence. }
      destruct (scan_literal (c :: r0)) as [v r| |e|] eqn:E.
      * apply scan_literal_shorter in E. simpl in E.
        split; [discriminate|]. intros v' r' H. injection H as _ <-. lia.
      * split; [discriminate|intros; discriminate].
      * split; [discriminate|intros; discriminate].
      * exfalso. unfold scan_literal in E.
        repeat
          match type of E with
          | context [strip_prefix ?p ?s] =>
              destruct (strip_prefix p s); [discriminate|]
          | context [match_number ?s] =>
              destruct (match_number s) as [[? ?]|];
              [destruct (is_integer_literal _ && exceeds_digits _);
               discriminate|]
          end.
        discriminate.
    + intros d acc s Hk. rewrite JSONArray_step.
      destruct (IHv d s ltac:(lia)) as [Hne Hlt].
      destruct (scan_once k d s) as [w r1| |e|] eqn:E;
        [|split; [discriminate|intros; discriminate]
         |split; [discriminate|intros; discriminate]|congruence].
      specialize (Hlt w r1 eq_refl).
      pose proof (skip_ws_length r1) as Hl.
      destruct (skip_ws r1) as [|x r'];
        [split; [discriminate|intros; discriminate]|].
      simpl in Hl.
      destruct (N.eqb x RBRACKET).
      { split; [discriminate|]. intros v r H. injection H as _ <-. lia. }
      destruct (N.eqb x COMMA);
        [|split; [discriminate|intros; discriminate]].
      pose proof (skip_ws_length r') as Hl'.
      destruct (IHa d (acc ++ [w]) (skip_ws r') ltac:(lia)) as [Hne' Hlt'].
      split; [exact Hne'|].
      intros v r H. apply Hlt' in H. lia.
    + intros d acc s Hk. rewrite JSONObject_step.
      destruct (scanstring s) as [[key r0]|] eqn:Es;
        [|split; [discriminate|intros; discriminate]].
      apply scanstring_shorter in Es.
      pose proof (skip_ws_length r0) as L0.
      destruct (skip_ws r0) as [|x r1];
        [split; [discriminate|intros; discriminate]|].
      simpl in L0.
      destruct (N.eqb x COLON);
        [|split; [discriminate|intros; discriminate]].
      pose proof (skip_ws_length r1) as L1.
      destruct (IHv d (skip_ws r1) ltac:(lia)) as [Hne Hlt].
      destruct (scan_once k d (skip_ws r1)) as [w r2| |e|] eqn:E;
        [|split; [discriminate|intros; discriminate]
         |split; [discriminate|intros; discriminate]|congruence].
      specialize (Hlt w r2 eq_refl).
      pose proof (skip_ws_length r2) as L2.
      destruct (skip_ws r2) as [|y r3];
        [split; [discriminate|intros; discriminate]|].
      simpl in L2.
      destruct (N.eqb y RBRACE).
      { split; [discriminate|]. intros v r H. injection H as _ <-. lia. }
      destruct (N.eqb y COMMA);
        [|split; [discriminate|intros; discriminate]].
      pose proof (skip_ws_length r3) as L3.
      destruct (skip_ws r3) as [|q r4];
        [split; [discriminate|intros; discriminate]|].
      simpl in L3.
      destruct (N.eqb q QUOTE);
        [|split; [discriminate|intros; discriminate]].
      destruct (IHo d (dict_set key w acc) r4 ltac:(lia)) as [Hne' Hlt'].
      split; [exact Hne'|].
      intros v r H. apply Hlt' in H. lia.
Qed.

(** The budget [json_loads] gives the scanner is never used up: a scan
    ends with a value, with malformed input or at a limit of the
    interpreter. *)
Lemma json_loads_budget (s : pystr) (d : nat) :
  scan_once (2 * List.length s + 1) d (skip_ws s) <> Exhausted.
Proof.
  pose proof (skip_ws_length s) as Hl.
  apply (scan_within_budget (2 * List.length s + 1)). lia.
Qed.

(** ** What [review_code] returns is a JSON document *)

(** [json_loads] in terms of the scanner, whatever the budget. *)
Lemma json_loads_scanned (s : pystr) (k : nat) (v : json) (r : pystr) :
  match s with c :: _ => N.eqb c BOM = false | [] => False end ->
  scan_once k max_depth (skip_ws s) = Scanned v r ->
  skip_ws r = [] ->
  json_loads s = Loaded v.
Proof.
  intros Hb Hs Hr. unfold json_loads.
  destruct s as [|c s']; [contradiction|]. rewrite Hb.
  set (K := (2 * List.length (c :: s') + 1)%nat).
  assert (E : scan_once K max_depth (skip_ws (c :: s')) = Scanned v r).
  { destruct (Nat.le_gt_cases k K) as [Hle|Hgt].
    - rewrite (proj1 (scan_more_budget k) K _ _ Hle); [exact Hs|].
      rewrite Hs. discriminate.
    - rewrite <- (proj1 (scan_more_budget K) k _ _ ltac:(lia)
                    (json_loads_budget (c :: s') max_depth)).
      exact Hs. }
  rewrite E, Hr. reflexivity.
Qed.

(** The levels of the elements of an array and of the values of an object
    are below those of the whole. *)
Lemma height_items (items : list json) (d : nat) :
  (list_max (List.map height items) <= d)%nat ->
  Forall (fun v => (height v <= d)%nat) items.
Proof.
  intros H. apply list_max_le in H. apply Forall_map in H. exact H.
Qed.

Lemma height_members (members : list (pystr * json)) (d : nat) :
  (list_max (List.map (fun kv => height (snd kv)) members) <= d)%nat ->
  Forall (fun kv => (height (snd kv) <= d)%nat) members.
Proof.
  intros H. apply list_max_le in H. apply Forall_map in H. exact H.
Qed.

Lemma json_nested_ind (P : json -> Prop) :
  P JNull ->
  (forall b, P (JBool b)) ->
  (forall lit, P (JNumber lit)) ->
  (forall s, P (JStr s)) ->
  (forall items, Forall P items -> P (JArr items)) ->
  (forall members, Forall (fun kv => P (snd kv)) members -> P (JObj members)) ->
  forall v, P v.
Proof.
  intros Hnull Hbool Hnum Hstr Harr Hobj.
  fix IH 1. intros [| b | lit | s | items | members].
  - exact Hnull.
  - apply Hbool.
  - apply Hnum.
  - apply Hstr.
  - apply Harr. revert items. fix IHl 1. intros [|x items].
    + constructor.
    + constructor; [apply IH|apply IHl].
  - apply Hobj. revert members. fix IHl 1. intros [|[key x] members].
    + constructor.
    + constructor; [apply IH|apply IHl].
Qed.

Lemma skip_ws_head (c : char) (s : pystr) :
  is_json_ws c = false -> skip_ws (c :: s) = c :: s.
Proof. intros H. unfold skip_ws. simpl. rewrite H. reflexivity. Qed.

Lemma skip_ws_space (s : pystr) : skip_ws (32%N :: s) = skip_ws s.
Proof. reflexivity. Qed.

(** A serialised document without numbers starts with a character that is
    neither whitespace nor a closing bracket nor a byte order mark. *)
Lemma json_dumps_head (v : json) :
  number_free v = true ->
  exists c s, json_dumps v = c :: s
              /\ is_json_ws c = false /\ N.eqb c RBRACKET = false
              /\ N.eqb c BOM = false.
Proof.
  destruct v as [| [|] | lit | s | items | members]; intros H;
    try discriminate; simpl json_dumps.
  - exists 110%N, (py "ull"). repeat split.
  - exists 116%N, (py "rue"). repeat split.
  - exists 102%N, (py "alse"). repeat split.
  - eexists QUOTE, _. repeat split.
  - eexists LBRACKET, _. repeat split.
  - eexists LBRACE, _. repeat split.
Qed.

Lemma join_comma_head (d : pystr) (ds : list pystr) (c : char) (s : pystr) :
  d = c :: s -> exists s', join_comma (d :: ds) = c :: s'.
Proof.
  intros ->. destruct ds as [|d' ds]; simpl; eauto.
Qed.

Lemma scan_once_at_least (k k' d : nat) (s : pystr) (v : json) (r : pystr) :
  (k <= k')%nat ->
  scan_once k d s = Scanned v r -> scan_once k' d s = Scanned v r.
Proof.
  intros Hle H. rewrite (proj1 (scan_more_budget k) k' d s Hle); [exact H|].
  rewrite H. discriminate.
Qed.

Lemma JSONArray_at_least (k k' d : nat) acc (s : pystr) l (r : pystr) :
  (k <= k')%nat ->
  JSONArray k d acc s = Scanned l r -> JSONArray k' d acc s = Scanned l r.
Proof.
  intros Hle H.
  rewrite (proj1 (proj2 (scan_more_budget k)) k' d acc s Hle); [exact H|].
  rewrite H. discriminate.
Qed.

Lemma JSONObject_at_least (k k' d : nat) acc (s : pystr) m (r : pystr) :
  (k <= k')%nat ->
  JSONObject k d acc s = Scanned m r -> JSONObject k' d acc s = Scanned m r.
Proof.
  intros Hle H.
  rewrite (proj2 (proj2 (scan_more_budget k)) k' d acc s Hle); [exact H|].
  rewrite H. discriminate.
Qed.

(** The elements of a serialised array, up to the closing bracket. *)
Lemma scan_elements (items : list json) :
  items <> [] ->
  Forall (fun v => number_free v = true /\ scans v) items ->
  forall d acc rest, Forall (fun v => (height v <= d)%nat) items ->
  exists k l,
    JSONArray k d acc
      (join_comma (List.map json_dumps items) ++ RBRACKET :: rest)
    = Scanned l rest.
Proof.
  induction items as [|x items IH]; [congruence|].
  intros _ HF d acc rest Hh. inversion HF as [|? ? [Hnf Hx] HF']; subst.
  inversion Hh as [|? ? Hhx Hh']; subst.
  destruct items as [|y items'].
  - destruct (Hx (RBRACKET :: rest) d Hhx) as (k & v' & E).
    exists (S k), (acc ++ [v']).
    rewrite JSONArray_step. simpl List.map. simpl join_comma. rewrite E.
    reflexivity.
  - set (J := join_comma (List.map json_dumps (y :: items'))) in *.
    change (join_comma (List.map json_dumps (x :: y :: items')))
      with (json_dumps x ++ [COMMA; 32%N] ++ J).
    rewrite <- !app_assoc.
    change ([COMMA; 32%N] ++ J ++ RBRACKET :: rest)
      with (COMMA :: 32%N :: (J ++ RBRACKET :: rest)).
    destruct (Hx (COMMA :: 32%N :: (J ++ RBRACKET :: rest)) d Hhx)
      as (k1 & v' & E1).
    destruct (IH ltac:(discriminate) HF' d (acc ++ [v']) rest Hh')
      as (k2 & l & E2).
    exists (S (Nat.max k1 k2)), l.
    rewrite JSONArray_step.
    rewrite (@scan_once_at_least k1 (Nat.max k1 k2) _ _ _ _ ltac:(lia) E1).
    change (skip_ws (COMMA :: 32%N :: (J ++ RBRACKET :: rest)))
      with (COMMA :: 32%N :: (J ++ RBRACKET :: rest)).
    change (N.eqb COMMA RBRACKET) with false.
    change (N.eqb COMMA COMMA) with true. cbv iota.
    rewrite skip_ws_space.
    inversion HF' as [|? ? [Hnfy _] _]; subst.
    destruct (json_dumps_head y Hnfy) as (c & s & Ey & Hws & _).
    destruct (join_comma_head (List.map json_dumps items') Ey) as (s' & EJ).
    fold J in EJ. simpl List.map in EJ.
    assert (Hskip : skip_ws (J ++ RBRACKET :: rest) = J ++ RBRACKET :: rest).
    { unfold J. simpl List.map. rewrite EJ. simpl app. now apply skip_ws_head. }
    rewrite Hskip.
    apply (@JSONArray_at_least k2 (Nat.max k1 k2) _ _ _ _ _ ltac:(lia) E2).
Qed.

Lemma dump_member_shape (kv : pystr * json) (R : pystr) :
  dump_member kv ++ R
  = QUOTE :: (flat_map escape_char (fst kv)
              ++ QUOTE :: COLON :: 32%N :: (json_dumps (snd kv) ++ R)).
Proof.
  unfold dump_member, encode_basestring_ascii.
  change (py ": ") with [COLON; 32%N].
  simpl. rewrite <- !app_assoc. reflexivity.
Qed.

(** One member of a serialised object, from behind the opening quote of its
    key to the character that follows its value. *)
Lemma scan_member (key : pystr) (v : json) (R : pystr) :
  number_free v = true ->
  exists t, forall k d v' acc,
    scan_once k d (json_dumps v ++ R) = Scanned v' R ->
    JSONObject (S k) d acc
      (flat_map escape_char key ++ QUOTE :: COLON :: 32%N :: (json_dumps v ++ R))
    = match skip_ws R with
      | y :: r3 =>
          if N.eqb y RBRACE then Scanned (dict_set t v' acc) r3
          else if N.eqb y COMMA then
            match skip_ws r3 with
            | q :: r4 =>
                if N.eqb q QUOTE then JSONObject k d (dict_set t v' acc) r4
                else Malformed
            | [] => Malformed
            end
          else Malformed
      | [] => Malformed
      end.
Proof.
  intros Hnf.
  destruct (scanstring_encoded key (COLON :: 32%N :: (json_dumps v ++ R)))
    as [t Ht].
  exists t. intros k d v' acc E.
  rewrite JSONObject_step, Ht.
  change (skip_ws (COLON :: 32%N :: (json_dumps v ++ R)))
    with (COLON :: 32%N :: (json_dumps v ++ R)).
  change (N.eqb COLON COLON) with true. cbv iota.
  rewrite skip_ws_space.
  destruct (json_dumps_head v Hnf) as (c & s & Ev & Hws & _).
  assert (Hskip : skip_ws (json_dumps v ++ R) = json_dumps v ++ R).
  { rewrite Ev. simpl app. now apply skip_ws_head. }
  rewrite Hskip, E. reflexivity.
Qed.

(** The members of a serialised object, from behind the opening quote of
    the first key up to the closing brace. *)
Lemma scan_members (members : list (pystr * json)) :
  members <> [] ->
  Forall (fun kv => number_free (snd kv) = true /\ scans (snd kv)) members ->
  forall d acc rest,
  Forall (fun kv => (height (snd kv) <= d)%nat) members ->
  exists k m s,
    join_comma (List.map dump_member members) ++ RBRACE :: rest = QUOTE :: s
    /\ JSONObject k d acc s = Scanned m rest.
Proof.
  induction members as [|[key x] members IH]; [congruence|].
  intros _ HF d acc rest Hh. inversion HF as [|? ? [Hnf Hx] HF']; subst.
  inversion Hh as [|? ? Hhx Hh']; subst.
  simpl in Hnf, Hx, Hhx.
  destruct members as [|kv2 members'].
  - destruct (@scan_member key x (RBRACE :: rest) Hnf) as [t Ht].
    destruct (Hx (RBRACE :: rest) d Hhx) as (k & v' & E).
    exists (S k), (dict_set t v' acc). eexists. split.
    + simpl List.map. simpl join_comma. apply dump_member_shape.
    + simpl fst. simpl snd. rewrite (Ht k d v' acc E). reflexivity.
  - set (J := join_comma (List.map dump_member (kv2 :: members'))) in *.
    destruct (@scan_member key x (COMMA :: 32%N :: (J ++ RBRACE :: rest)) Hnf)
      as [t Ht].
    destruct (Hx (COMMA :: 32%N :: (J ++ RBRACE :: rest)) d Hhx)
      as (k1 & v' & E1).
    destruct (IH ltac:(discriminate) HF' d (dict_set t v' acc) rest Hh')
      as (k2 & m & s & Es & E2).
    exists (S (Nat.max k1 k2)), m. eexists. split.
    + change (join_comma (List.map dump_member ((key, x) :: kv2 :: members')))
        with (dump_member (key, x) ++ [COMMA; 32%N] ++ J).
      rewrite <- !app_assoc.
      change ([COMMA; 32%N] ++ J ++ RBRACE :: rest)
        with (COMMA :: 32%N :: (J ++ RBRACE :: rest)).
      apply dump_member_shape.
    + simpl fst. simpl snd.
      rewrite (Ht (Nat.max k1 k2) d v' acc
                 (@scan_once_at_least k1 (Nat.max k1 k2) _ _ _ _ ltac:(lia) E1)).
      change (skip_ws (COMMA :: 32%N :: (J ++ RBRACE :: rest)))
        with (COMMA :: 32%N :: (J ++ RBRACE :: rest)).
      change (N.eqb COMMA RBRACE) with false.
      change (N.eqb COMMA COMMA) with true. cbv iota.
      rewrite skip_ws_space, Es.
      change (skip_ws (QUOTE :: s)) with (QUOTE :: s).
      change (N.eqb QUOTE QUOTE) with true. cbv iota.
      apply (@JSONObject_at_least k2 (Nat.max k1 k2) _ _ _ _ _ ltac:(lia) E2).
Qed.

Lemma forallb_Forall_both (A : Type) (f : A -> bool) (P : A -> Prop)
      (l : list A) :
  forallb f l = true -> Forall (fun a => f a = true -> P a) l ->
  Forall (fun a => f a = true /\ P a) l.
Proof.
  induction l as [|a l IH]; simpl; intros Hb HF; [constructor|].
  apply andb_prop in Hb. destruct Hb as [Ha Hl].
  inversion HF; subst. constructor; auto.
Qed.

(** The scanner reads back whatever [json_dumps] writes for a document
    without numbers. *)
Theorem scan_json_dumps (v : json) : number_free v = true -> scans v.
Proof.
  induction v as [| b | lit | s | items IH | members IH] using json_nested_ind;
    intros Hnf rest d Hh.
  - exists 1%nat, JNull. reflexivity.
  - exists 1%nat, (JBool b). destruct b; reflexivity.
  - discriminate.
  - destruct (scanstring_encoded s rest) as [t Ht].
    exists 1%nat, (JStr t).
    assert (Eq : json_dumps (JStr s) ++ rest
                 = QUOTE :: (flat_map escape_char s ++ QUOTE :: rest)).
    { change (json_dumps (JStr s))
        with (QUOTE :: flat_map escape_char s ++ [QUOTE]).
      rewrite <- app_comm_cons, <- app_assoc. reflexivity. }
    rewrite Eq, scan_once_step.
    change (N.eqb QUOTE QUOTE) with true. cbv iota. rewrite Ht. reflexivity.
  - simpl in Hnf. simpl in Hh.
    destruct d as [|d]; [lia|]. apply le_S_n, height_items in Hh.
    destruct items as [|x items'].
    { exists 1%nat, (JArr []). reflexivity. }
    pose proof (@forallb_Forall_both _ number_free scans _ Hnf IH) as HF.
    destruct (@scan_elements (x :: items') ltac:(discriminate) HF d [] rest Hh)
      as (k & l & E).
    exists (S k), (JArr l).
    assert (Eq : json_dumps (JArr (x :: items')) ++ rest
                 = LBRACKET :: (join_comma (List.map json_dumps (x :: items'))
                                ++ RBRACKET :: rest)).
    { change (json_dumps (JArr (x :: items')))
        with (LBRACKET :: join_comma (List.map json_dumps (x :: items'))
                       ++ [RBRACKET]).
      rewrite <- app_comm_cons, <- app_assoc. reflexivity. }
    rewrite Eq, scan_once_step.
    change (N.eqb LBRACKET QUOTE) with false.
    change (N.eqb LBRACKET LBRACE) with false.
    change (N.eqb LBRACKET LBRACKET) with true. cbv iota.
    inversion HF as [|? ? [Hnfx _] _]; subst.
    destruct (json_dumps_head x Hnfx) as (c & s & Ex & Hws & Hc & _).
    destruct (join_comma_head (List.map json_dumps items') Ex) as (s' & EJ).
    change (List.map json_dumps (x :: items'))
      with (json_dumps x :: List.map json_dumps items') in *.
    rewrite EJ in E |- *. rewrite <- !app_comm_cons in E |- *.
    rewrite (@skip_ws_head c _ Hws), Hc, E. reflexivity.
  - simpl in Hnf. simpl in Hh.
    destruct d as [|d]; [lia|]. apply le_S_n, height_members in Hh.
    destruct members as [|kv members'].
    { exists 1%nat, (JObj []). reflexivity. }
    pose proof (@forallb_Forall_both _ (fun kv => number_free (snd kv))
                  (fun kv => scans (snd kv)) _ Hnf IH) as HF.
    destruct (@scan_members (kv :: members') ltac:(discriminate) HF d [] rest Hh)
      as (k & m & s & Es & E).
    exists (S k), (JObj m).
    assert (Eq : json_dumps (JObj (kv :: members')) ++ rest
                 = LBRACE :: (join_comma (List.map dump_member (kv :: members'))
                              ++ RBRACE :: rest)).
    { change (json_dumps (JObj (kv :: members')))
        with (LBRACE :: join_comma (List.map dump_member (kv :: members'))
                     ++ [RBRACE]).
      rewrite <- app_comm_cons, <- app_assoc. reflexivity. }
    rewrite Eq, Es, scan_once_step.
    change (N.eqb LBRACE QUOTE) with false.
    change (N.eqb LBRACE LBRACE) with true. cbv iota.
    change (skip_ws (QUOTE :: s)) with (QUOTE :: s).
    change (N.eqb QUOTE RBRACE) with false.
    change (N.eqb QUOTE QUOTE) with true. cbv iota.
    rewrite E. reflexivity.
Qed.

(** [json.loads] accepts whatever [json.dumps] writes for a document
    without numbers whose levels the interpreter can enter. *)
Theorem json_loads_json_dumps (v : json) :
  number_free v = true -> (height v <= max_depth)%nat ->
  exists v', json_loads (json_dumps v) = Loaded v'.
Proof.
  intros Hnf Hh.
  destruct (@scan_json_dumps v Hnf [] max_depth Hh) as (k & v' & E).
  rewrite app_nil_r in E.
  destruct (json_dumps_head v Hnf) as (c & s & Ev & Hws & _ & Hb).
  exists v'. apply json_loads_scanned with (k := k) (r := []).
  - rewrite Ev. exact Hb.
  - rewrite Ev in *. rewrite (@skip_ws_head c _ Hws). exact E.
  - reflexivity.
Qed.

(** The two dictionaries of [review_code] have two levels. *)
Lemma height_error_json (e : exn) : (height (error_json e) <= max_depth)%nat.
Proof. exact depth_enough. Qed.

Lemma height_fallback : (height fallback <= max_depth)%nat.
Proof. exact depth_enough. Qed.

(** ** The model client *)

Lemma clean_text_some (text : pyval) (c : pystr) :
  clean_text text = Ok (Some c) -> exists s, _clean_to_json_str s = Some c.
Proof.
  unfold clean_text.
  destruct (if truthy text then text else VStr []) as
      [| b | z | f | s | l | d | cls t attrs] eqn:Ev;
    try (unfold call_strip, attr_lookup, bind; discriminate).
  - intros H. injection H as H. now exists s.
  - unfold call_strip, attr_lookup, bind.
    destruct (dict_get (py "strip") attrs) as [[a|e]|]; discriminate.
Qed.

(** C1: once the client is constructed, [review_code] returns, whatever the
    provider does, and what it returns is accepted by [json.loads]. *)
Theorem review_code_returns_json
        (SYSTEM_INSTRUCTIONS GEMINI_MODEL : pystr)
        (GEMINI_API_KEY : option pystr)
        (generate_content : pystr -> pystr -> result pyval)
        (user_code : pystr) (language_hint : option pystr) :
  get_client GEMINI_API_KEY = Ok tt ->
  exists s v,
    review_code SYSTEM_INSTRUCTIONS GEMINI_MODEL GEMINI_API_KEY
                generate_content user_code language_hint = Ok s
    /\ json_loads s = Loaded v.
Proof.
  intros Hc. unfold review_code. rewrite Hc. unfold bind. cbv beta iota.
  assert (Herr : forall e, exists s v,
             Ok (json_dumps (error_json e)) = Ok s /\ json_loads s = Loaded v).
  { intros e.
    destruct (json_loads_json_dumps (error_json e) eq_refl
                (height_error_json e)) as [v Hv].
    exists (json_dumps (error_json e)), v. split; [reflexivity|exact Hv]. }
  assert (Hfb : exists s v,
             Ok (json_dumps fallback) = Ok s /\ json_loads s = Loaded v).
  { destruct (json_loads_json_dumps fallback eq_refl height_fallback) as [v Hv].
    exists (json_dumps fallback), v. split; [reflexivity|exact Hv]. }
  destruct (generate_content _ _) as [response|e]; [|apply Herr].
  destruct (extract_text response) as [text|e]; [|apply Herr].
  destruct (clean_text text) as [json_str|e] eqn:Et; [|apply Herr].
  destruct json_str as [[|c j]|]; [exact Hfb| |exact Hfb].
  apply clean_text_some in Et. destruct Et as [s Hs].
  apply _clean_to_json_str_some in Hs.
  destruct Hs as (_ & _ & _ & v & Hv).
  exists (c :: j), v. split; [reflexivity|exact Hv].
Qed.

(** C5: when the provider call raises, [review_code] catches the exception
    and returns the serialised fallback object, with the status Incorrect,
    an issue that names the failure, and suggestions. *)
Theorem review_code_provider_failure
        (SYSTEM_INSTRUCTIONS GEMINI_MODEL : pystr)
        (GEMINI_API_KEY : option pystr)
        (generate_content : pystr -> pystr -> result pyval)
        (user_code : pystr) (language_hint : option pystr) (e : exn) :
  get_client GEMINI_API_KEY = Ok tt ->
  generate_content GEMINI_MODEL
    (SYSTEM_INSTRUCTIONS ++ [LF; LF] ++ build_prompt user_code language_hint)
  = Raise e ->
  review_code SYSTEM_INSTRUCTIONS GEMINI_MODEL GEMINI_API_KEY
              generate_content user_code language_hint
  = Ok (json_dumps (error_json e))
  /\ field (py "code_status") (error_json e) = Some (JStr (py "Incorrect"))
  /\ (exists issues,
        field (py "issues_found") (error_json e) = Some (JArr issues)
        /\ In (JStr (py "Model call failed: " ++ str_of e)) issues)
  /\ (exists suggestions,
        field (py "suggestions") (error_json e) = Some (JArr suggestions)
        /\ suggestions <> []).
Proof.
  intros Hc Hg. split.
  - unfold review_code. rewrite Hc. unfold bind. cbv beta iota.
    rewrite Hg. reflexivity.
  - split; [reflexivity|]. split.
    + eexists. split; [reflexivity|]. left. reflexivity.
    + eexists. split; [reflexivity|]. discriminate.
Qed.

(** ** The review endpoint *)

(** C2, amended: when the request data is a dictionary (the decoded body
    when that is an object, the empty dictionary when the body is missing,
    undecodable or a false value) that has no [code], or a [code] that is a
    string empty after trimming, the answer is 400 with the one-member error
    object, and the model client is not called. *)
Theorem api_review_no_code
        (review_code : pystr -> pyval -> result pystr)
        (got_json : pyval) (d : list (pystr * pyval)) :
  request_data got_json = VDict d ->
  (dict_get (py "code") d = None
   \/ exists s, dict_get (py "code") d = Some (VStr s) /\ strip s = []) ->
  api_review review_code got_json
  = Served (Ok (Response 400
                  (JObj [(py "error", JStr (py "No code provided."))])))
           [].
Proof.
  intros Hd Hcode. unfold api_review, request_fields. rewrite Hd.
  unfold call_get, bind.
  destruct Hcode as [Hnone|(s & Hs & Hstrip)].
  - rewrite Hnone. destruct (dict_get (py "language") d); reflexivity.
  - rewrite Hs. unfold call_strip. rewrite Hstrip.
    destruct (dict_get (py "language") d); reflexivity.
Qed.

(** C6, amended: when the model client returns a text on whose sanitized
    form [json.loads] raises [json.JSONDecodeError], the answer is 200 with
    the summary and the raw text as it came; when [json.loads] raises
    another exception there, the answer is 500 with the message of the
    exception. *)
Theorem api_review_soft_fail
        (review_code : pystr -> pyval -> result pystr)
        (got_json : pyval) (c : char) (code' : pystr) (language : pyval)
        (raw : pystr) :
  request_fields (request_data got_json) = Ok (c :: code', language) ->
  review_code (c :: code') language = Ok raw ->
  (json_loads (clean_json_output raw) = DecodeError ->
   api_review review_code got_json
   = Served (Ok (Response 200
                   (JObj [ (py "summary",
                            JStr (py "Gemini returned non-JSON. Showing raw."));
                           (py "raw", JStr raw) ])))
            [(c :: code', language)])
  /\ (forall e, json_loads (clean_json_output raw) = OtherError e ->
      api_review review_code got_json
      = Served (Ok (Response 500 (JObj [(py "error", JStr (str_of e))])))
               [(c :: code', language)]).
Proof.
  intros Hf Hr. unfold api_review. rewrite Hf, Hr.
  split; [intros Hj|intros e Hj]; rewrite Hj; reflexivity.
Qed.

(** C10: when [code] is there and is not a string, the exception of the
    call of [strip] leaves the handler: there is no response and the model
    client is not called. *)
Theorem api_review_code_not_str
        (review_code : pystr -> pyval -> result pystr)
        (got_json : pyval) (d : list (pystr * pyval)) (v : pyval) :
  request_data got_json = VDict d ->
  dict_get (py "code") d = Some v ->
  (forall s, v <> VStr s) ->
  exists e,
    call_strip v = Raise e
    /\ api_review review_code got_json = Served (Raise e) [].
Proof.
  intros Hd Hv Hns. unfold api_review, request_fields. rewrite Hd.
  unfold call_get, bind. rewrite Hv.
  assert (Hraise : exists e, call_strip v = Raise e).
  { destruct v as [| b | z | f | s | l | d' | cls t attrs];
      try (eexists; reflexivity).
    - exfalso. now apply (Hns s).
    - unfold call_strip, attr_lookup, bind.
      destruct (dict_get (py "strip") attrs) as [[a|e]|]; eexists; reflexivity. }
  destruct Hraise as [e He]. exists e. rewrite He. split; reflexivity.
Qed.

(** ** Searching and slicing *)

Lemma find_from_absent (c : char) (s : pystr) (i : Z) :
  ~ In c s -> find_from c s i = (-1)%Z.
Proof.
  revert i. induction s as [|x s IH]; intros i H; simpl; [reflexivity|].
  destruct (N.eqb x c) eqn:E.
  - apply N.eqb_eq in E. exfalso. apply H. now left.
  - apply IH. intros Hin. apply H. now right.
Qed.

Lemma find_from_present (c : char) (s : pystr) (i : Z) :
  In c s ->
  (i <= find_from c s i < i + Z.of_nat (List.length s))%Z
  /\ forall k, find_from c s (i + k) = (find_from c s i + k)%Z.
Proof.
  revert i. induction s as [|x s IH]; intros i H; [contradiction|].
  simpl find_from. simpl List.length.
  destruct (N.eqb x c) eqn:E.
  - split; [lia|reflexivity].
  - destruct H as [H|H]; [apply N.eqb_neq in E; congruence|].
    destruct (IH (i + 1)%Z H) as [Hr Hs]. split; [lia|].
    intros k. replace (i + k + 1)%Z with (i + 1 + k)%Z by lia. apply Hs.
Qed.

Lemma find_from_app_absent (c : char) (p s : pystr) (i : Z) :
  ~ In c p ->
  find_from c (p ++ s) i = find_from c s (i + Z.of_nat (List.length p)).
Proof.
  revert i. induction p as [|x p IH]; intros i H.
  - simpl. f_equal. lia.
  - simpl app. simpl find_from. simpl List.length.
    destruct (N.eqb x c) eqn:E.
    + apply N.eqb_eq in E. exfalso. apply H. now left.
    + rewrite IH by (intros Hin; apply H; now right). f_equal. lia.
Qed.

Lemma find_from_app_present (c : char) (s q : pystr) (i : Z) :
  In c s -> find_from c (s ++ q) i = find_from c s i.
Proof.
  revert i. induction s as [|x s IH]; intros i H; [contradiction|].
  simpl. destruct (N.eqb x c) eqn:E; [reflexivity|].
  destruct H as [H|H]; [apply N.eqb_neq in E; congruence|]. now apply IH.
Qed.

Lemma rfind_from_app (c : char) (p s : pystr) (i last : Z) :
  rfind_from c (p ++ s) i last
  = rfind_from c s (i + Z.of_nat (List.length p)) (rfind_from c p i last).
Proof.
  revert i last. induction p as [|x p IH]; intros i last.
  - simpl. f_equal. lia.
  - simpl app. simpl rfind_from. simpl List.length. rewrite IH. f_equal. lia.
Qed.

Lemma rfind_from_absent (c : char) (s : pystr) (i last : Z) :
  ~ In c s -> rfind_from c s i last = last.
Proof.
  revert i last. induction s as [|x s IH]; intros i last H; [reflexivity|].
  simpl. destruct (N.eqb x c) eqn:E.
  - apply N.eqb_eq in E. exfalso. apply H. now left.
  - apply IH. intros Hin. apply H. now right.
Qed.

Lemma rfind_from_range (c : char) (s : pystr) (i last : Z) :
  rfind_from c s i last = last
  \/ (i <= rfind_from c s i last < i + Z.of_nat (List.length s))%Z.
Proof.
  revert i last. induction s as [|x s IH]; intros i last; [now left|].
  simpl rfind_from. simpl List.length.
  destruct (IH (i + 1)%Z (if N.eqb x c then i else last)) as [H|H].
  - rewrite H. destruct (N.eqb x c); [right; lia|now left].
  - right. lia.
Qed.

Lemma rfind_from_present (c : char) (s : pystr) (i last : Z) :
  In c s ->
  (i <= rfind_from c s i last < i + Z.of_nat (List.length s))%Z
  /\ forall k last',
      rfind_from c s (i + k) last' = (rfind_from c s i last + k)%Z.
Proof.
  revert i last. induction s as [|x s IH]; intros i last H; [contradiction|].
  simpl rfind_from. simpl List.length.
  destruct (in_dec N.eq_dec c s) as [Hin|Hout].
  - destruct (IH (i + 1)%Z (if N.eqb x c then i else last) Hin) as [Hr Hs].
    split; [lia|]. intros k last'.
    replace (i + k + 1)%Z with (i + 1 + k)%Z by lia. apply Hs.
  - destruct H as [H|H]; [|contradiction]. subst x.
    rewrite N.eqb_refl. split.
    + rewrite rfind_from_absent by assumption. lia.
    + intros k last'. rewrite !rfind_from_absent by assumption. reflexivity.
Qed.

Lemma slice_shift (p s : pystr) (i j : Z) :
  (0 <= i <= Z.of_nat (List.length s))%Z ->
  (0 <= j <= Z.of_nat (List.length s))%Z ->
  slice (p ++ s) (i + Z.of_nat (List.length p)) (j + Z.of_nat (List.length p))
  = slice s i j.
Proof.
  intros Hi Hj. unfold slice, clamp. rewrite length_app.
  destruct (Z.ltb_spec (i + Z.of_nat (List.length p)) 0); [lia|].
  destruct (Z.ltb_spec (j + Z.of_nat (List.length p)) 0); [lia|].
  destruct (Z.ltb_spec i 0); [lia|]. destruct (Z.ltb_spec j 0); [lia|].
  rewrite !Z.min_l by lia.
  replace (Z.to_nat (i + Z.of_nat (List.length p)))
    with (List.length p + Z.to_nat i)%nat by lia.
  rewrite skipn_app.
  replace (List.length p + Z.to_nat i - List.length p)%nat
    with (Z.to_nat i) by lia.
  rewrite skipn_all2 by lia. simpl. f_equal. lia.
Qed.

Lemma slice_app_within (s q : pystr) (i j : Z) :
  (0 <= i <= Z.of_nat (List.length s))%Z ->
  (0 <= j <= Z.of_nat (List.length s))%Z ->
  slice (s ++ q) i j = slice s i j.
Proof.
  intros Hi Hj. unfold slice, clamp. rewrite length_app.
  destruct (Z.ltb_spec i 0); [lia|]. destruct (Z.ltb_spec j 0); [lia|].
  rewrite !Z.min_l by lia.
  rewrite skipn_app.
  replace (Z.to_nat i - List.length s)%nat with 0%nat by lia.
  simpl skipn. rewrite firstn_app.
  replace (Z.to_nat (j - i) - List.length (skipn (Z.to_nat i) s))%nat
    with 0%nat by (rewrite length_skipn; lia).
  simpl. now rewrite app_nil_r.
Qed.

Lemma find_present (c : char) (s : pystr) :
  In c s -> (0 <= find c s < Z.of_nat (List.length s))%Z.
Proof. intros H. apply (@find_from_present c s 0%Z H). Qed.

Lemma rfind_present (c : char) (s : pystr) :
  In c s -> (0 <= rfind c s < Z.of_nat (List.length s))%Z.
Proof. intros H. apply (@rfind_from_present c s 0%Z (-1)%Z H). Qed.

Lemma find_absent (c : char) (s : pystr) : ~ In c s -> find c s = (-1)%Z.
Proof. apply find_from_absent. Qed.

Lemma rfind_absent (c : char) (s : pystr) : ~ In c s -> rfind c s = (-1)%Z.
Proof. apply rfind_from_absent. Qed.

(** ** The braces of a text under trimming and fence removal *)

Lemma same_braces_refl (s : pystr) : same_braces 0 s s.
Proof.
  repeat split; auto; lia.
Qed.

Lemma same_braces_sym (d : Z) (s t : pystr) :
  same_braces d s t -> same_braces (- d) t s.
Proof.
  intros (HL & HR & H). split; [tauto|]. split; [tauto|].
  intros Hl Hr. destruct (H (proj2 HL Hl) (proj2 HR Hr)) as (F & G & E).
  repeat split; [lia|lia|congruence].
Qed.

Lemma same_braces_trans (d1 d2 : Z) (s t u : pystr) :
  same_braces d1 s t -> same_braces d2 t u -> same_braces (d1 + d2) s u.
Proof.
  intros (HL1 & HR1 & H1) (HL2 & HR2 & H2).
  split; [tauto|]. split; [tauto|].
  intros Hl Hr. destruct (H1 Hl Hr) as (F1 & G1 & E1).
  destruct (H2 (proj1 HL1 Hl) (proj1 HR1 Hr)) as (F2 & G2 & E2).
  repeat split; [lia|lia|congruence].
Qed.

Lemma same_braces_drop_prefix (p t : pystr) :
  ~ In LBRACE p -> ~ In RBRACE p ->
  same_braces (Z.of_nat (List.length p)) (p ++ t) t.
Proof.
  intros HL HR. split; [rewrite in_app_iff; tauto|].
  split; [rewrite in_app_iff; tauto|].
  intros Hl Hr. apply in_app_iff in Hl. apply in_app_iff in Hr.
  destruct Hl as [Hl|Hl]; [contradiction|].
  destruct Hr as [Hr|Hr]; [contradiction|].
  assert (F : find LBRACE (p ++ t)
              = (find LBRACE t + Z.of_nat (List.length p))%Z).
  { unfold find. rewrite find_from_app_absent by assumption.
    apply (@find_from_present LBRACE t 0%Z Hl). }
  assert (G : rfind RBRACE (p ++ t)
              = (rfind RBRACE t + Z.of_nat (List.length p))%Z).
  { unfold rfind. rewrite rfind_from_app.
    apply (@rfind_from_present RBRACE t 0%Z (-1)%Z Hr). }
  split; [lia|]. split; [lia|].
  unfold brace_span. rewrite F, G.
  pose proof (@find_present LBRACE t Hl). pose proof (@rfind_present RBRACE t Hr).
  replace (rfind RBRACE t + Z.of_nat (List.length p) + 1)%Z
    with (rfind RBRACE t + 1 + Z.of_nat (List.length p))%Z by lia.
  symmetry. apply slice_shift; lia.
Qed.

Lemma same_braces_drop_suffix (t q : pystr) :
  ~ In LBRACE q -> ~ In RBRACE q -> same_braces 0 (t ++ q) t.
Proof.
  intros HL HR. split; [rewrite in_app_iff; tauto|].
  split; [rewrite in_app_iff; tauto|].
  intros Hl Hr. apply in_app_iff in Hl. apply in_app_iff in Hr.
  destruct Hl as [Hl|Hl]; [|contradiction].
  destruct Hr as [Hr|Hr]; [|contradiction].
  assert (F : find LBRACE (t ++ q) = find LBRACE t).
  { unfold find. now apply find_from_app_present. }
  assert (G : rfind RBRACE (t ++ q) = rfind RBRACE t).
  { unfold rfind. rewrite rfind_from_app. now apply rfind_from_absent. }
  split; [lia|]. split; [lia|].
  unfold brace_span. rewrite F, G.
  pose proof (@find_present LBRACE t Hl). pose proof (@rfind_present RBRACE t Hr).
  symmetry. apply slice_app_within; lia.
Qed.

Lemma drop_while_split (P : char -> bool) (s : pystr) :
  exists p, s = p ++ drop_while P s /\ Forall (fun c => P c = true) p.
Proof.
  induction s as [|c s (p & E & H)]; [exists []; split; [reflexivity|constructor]|].
  simpl. destruct (P c) eqn:Ec.
  - exists (c :: p). split; [simpl; congruence|now constructor].
  - exists []. split; [reflexivity|constructor].
Qed.

Lemma not_in_class (P : char -> bool) (c : char) (p : pystr) :
  Forall (fun x => P x = true) p -> P c = false -> ~ In c p.
Proof.
  intros H Hc Hin. rewrite Forall_forall in H. apply H in Hin. congruence.
Qed.

Lemma lstrip_braces (s : pystr) : exists d, same_braces d s (lstrip s).
Proof.
  unfold lstrip. destruct (drop_while_split is_space s) as (p & E & H).
  exists (Z.of_nat (List.length p)). rewrite E at 1.
  apply same_braces_drop_prefix; apply (@not_in_class _ _ _ H); reflexivity.
Qed.

Lemma rstrip_braces (s : pystr) : exists d, same_braces d s (rstrip s).
Proof.
  unfold rstrip. destruct (drop_while_split is_space (rev s)) as (p & E & H).
  exists 0%Z.
  assert (Es : s = rev (drop_while is_space (rev s)) ++ rev p).
  { rewrite <- rev_app_distr, <- E. now rewrite rev_involutive. }
  rewrite Es at 1.
  apply same_braces_drop_suffix; rewrite <- in_rev;
    apply (@not_in_class _ _ _ H); reflexivity.
Qed.

Lemma sub_leading_fence_braces (s : pystr) :
  exists d, same_braces d s (sub_leading_fence s).
Proof.
  unfold sub_leading_fence.
  destruct s as [|a [|b [|c r]]]; try (exists 0%Z; apply same_braces_refl).
  destruct (N.eqb a BACKTICK && N.eqb b BACKTICK && N.eqb c BACKTICK) eqn:E;
    [|exists 0%Z; apply same_braces_refl].
  apply andb_prop in E. destruct E as [E Ec]. apply andb_prop in E.
  destruct E as [Ea Eb].
  apply N.eqb_eq in Ea. apply N.eqb_eq in Eb. apply N.eqb_eq in Ec. subst.
  destruct (drop_while_split is_ascii_letter r) as (p & E & H).
  assert (HL : ~ In LBRACE p) by (apply (@not_in_class _ _ _ H); reflexivity).
  assert (HR : ~ In RBRACE p) by (apply (@not_in_class _ _ _ H); reflexivity).
  destruct (drop_while is_ascii_letter r) as [|d r'] eqn:Ed.
  - exists (Z.of_nat (List.length (BACKTICK :: BACKTICK :: BACKTICK :: r))).
    rewrite <- (app_nil_r (BACKTICK :: BACKTICK :: BACKTICK :: r)) at 2.
    rewrite E, app_nil_r.
    apply same_braces_drop_prefix; simpl; intros [F|[F|[F|F]]];
      try discriminate; contradiction.
  - destruct (N.eqb d LF) eqn:El.
    + apply N.eqb_eq in El. subst d.
      exists (Z.of_nat (List.length
                          (BACKTICK :: BACKTICK :: BACKTICK :: p ++ [LF]))).
      replace (BACKTICK :: BACKTICK :: BACKTICK :: r)
        with ((BACKTICK :: BACKTICK :: BACKTICK :: p ++ [LF]) ++ r').
      2:{ rewrite E. simpl. rewrite <- app_assoc. reflexivity. }
      apply same_braces_drop_prefix; simpl; rewrite in_app_iff;
        intros [F|[F|[F|[F|[F|F]]]]]; try discriminate; contradiction.
    + exists (Z.of_nat (List.length (BACKTICK :: BACKTICK :: BACKTICK :: p))).
      replace (BACKTICK :: BACKTICK :: BACKTICK :: r)
        with ((BACKTICK :: BACKTICK :: BACKTICK :: p) ++ d :: r').
      2:{ rewrite E. reflexivity. }
      apply same_braces_drop_prefix; simpl; intros [F|[F|[F|F]]];
        try discriminate; contradiction.
Qed.

Lemma str_eqb_eq (a b : pystr) : str_eqb a b = true -> a = b.
Proof.
  revert b. induction a as [|x a IH]; intros [|y b] H; simpl in H;
    try discriminate; [reflexivity|].
  apply andb_prop in H. destruct H as [Hx Hr].
  apply N.eqb_eq in Hx. apply IH in Hr. congruence.
Qed.

Lemma sub_trailing_fence_shape (s : pystr) :
  exists x q q',
    s = x ++ q /\ sub_trailing_fence s = x ++ q'
    /\ ~ In LBRACE q /\ ~ In RBRACE q /\ ~ In LBRACE q' /\ ~ In RBRACE q'.
Proof.
  induction s as [|c r (x & q & q' & E & E' & H)].
  - exists [], [], []. repeat split; auto.
  - simpl sub_trailing_fence. destruct (fence_at_end (c :: r)) eqn:F.
    + exists [], (c :: r), (skipn 3 (c :: r)). split; [reflexivity|].
      split; [reflexivity|].
      unfold fence_at_end in F. apply orb_prop in F.
      destruct F as [F|F]; apply str_eqb_eq in F; rewrite F; simpl;
        repeat split; intros G;
        repeat (destruct G as [G|G]; [discriminate|]); contradiction.
    + exists (c :: x), q, q'. simpl. rewrite <- E, <- E'. tauto.
Qed.

Lemma sub_trailing_fence_braces (s : pystr) :
  same_braces 0 s (sub_trailing_fence s).
Proof.
  destruct (sub_trailing_fence_shape s)
    as (x & q & q' & E & E' & HL & HR & HL' & HR').
  rewrite E', E at 1. change 0%Z with (0 + - 0)%Z.
  apply same_braces_trans with (t := x).
  - now apply same_braces_drop_suffix.
  - apply same_braces_sym. now apply same_braces_drop_suffix.
Qed.

(** Trimming and the removal of the fences leave the braces of a text where
    they are, up to a shift of the indices. *)
Lemma unfenced_braces (raw : pystr) :
  exists d, same_braces d raw (unfenced raw).
Proof.
  unfold unfenced, strip.
  destruct (lstrip_braces raw) as [d1 H1].
  destruct (rstrip_braces (lstrip raw)) as [d2 H2].
  destruct (sub_leading_fence_braces (rstrip (lstrip raw))) as [d3 H3].
  pose proof (sub_trailing_fence_braces
                (sub_leading_fence (rstrip (lstrip raw)))) as H4.
  exists (d1 + d2 + d3 + 0)%Z.
  eapply same_braces_trans; [|exact H4].
  eapply same_braces_trans; [|exact H3].
  eapply same_braces_trans; [exact H1|exact H2].
Qed.

(** On a text that has an opening and a closing brace, the front-end
    sanitizer returns the slice of the text itself from its first opening to
    its last closing brace: trimming and fences do not change the result. *)
Lemma clean_json_output_brace_span_lemma (raw : pystr) :
  In LBRACE raw -> In RBRACE raw ->
  clean_json_output raw = brace_span raw.
Proof.
  intros Hl Hr.
  destruct (unfenced_braces raw) as (d & HL & HR & H).
  destruct (H Hl Hr) as (_ & _ & E).
  rewrite <- E. unfold brace_span.
  apply clean_json_output_slices.
  - intros ->. contradiction.
  - pose proof (@find_present LBRACE _ (proj1 HL Hl)). lia.
  - pose proof (@rfind_present RBRACE _ (proj1 HR Hr)). lia.
Qed.

(** The client sanitizer in terms of the text itself: it returns the slice
    from the first opening to the last closing brace when the closing one is
    behind the opening one and [json.loads] reads the slice, and [None] in
    every other case. *)
Lemma _clean_to_json_str_brace_span_lemma (text : pystr) :
  _clean_to_json_str text
  = if Z.leb 0 (find LBRACE text) && Z.ltb (find LBRACE text) (rfind RBRACE text)
    then match json_loads (brace_span text) with
         | Loaded _ => Some (brace_span text)
         | DecodeError | OtherError _ => None
         end
    else None.
Proof.
  destruct (unfenced_braces text) as (d & HL & HR & H).
  unfold _clean_to_json_str. fold (unfenced text).
  destruct text as [|a text']; [reflexivity|].
  set (raw := a :: text') in *. set (u := unfenced raw) in *.
  destruct (in_dec N.eq_dec LBRACE raw) as [Hl|Hl];
    destruct (in_dec N.eq_dec RBRACE raw) as [Hr|Hr].
  - destruct (H Hl Hr) as (F & G & E).
    pose proof (@find_present LBRACE _ Hl).
    pose proof (@rfind_present RBRACE _ Hr).
    pose proof (@find_present LBRACE _ (proj1 HL Hl)).
    pose proof (@rfind_present RBRACE _ (proj1 HR Hr)).
    fold (brace_span u). rewrite E.
    replace (Z.eqb (find LBRACE u) (-1)) with false
      by (symmetry; apply Z.eqb_neq; lia).
    replace (Z.eqb (rfind RBRACE u) (-1)) with false
      by (symmetry; apply Z.eqb_neq; lia).
    replace (Z.leb 0 (find LBRACE raw)) with true
      by (symmetry; apply Z.leb_le; lia).
    replace (Z.ltb (find LBRACE u) (rfind RBRACE u))
      with (Z.ltb (find LBRACE raw) (rfind RBRACE raw)).
    + reflexivity.
    + rewrite F, G.
      destruct (Z.ltb_spec (find LBRACE raw) (rfind RBRACE raw));
        symmetry; [apply Z.ltb_lt|apply Z.ltb_ge]; lia.
  - assert (Hu : ~ In RBRACE u) by tauto.
    rewrite (@rfind_absent _ _ Hu), (@rfind_absent _ _ Hr).
    rewrite andb_false_r. simpl.
    replace (Z.ltb (find LBRACE raw) (-1)) with false.
    + now rewrite andb_false_r.
    + symmetry. apply Z.ltb_ge.
      pose proof (@find_present LBRACE _ Hl). lia.
  - assert (Hu : ~ In LBRACE u) by tauto.
    rewrite (@find_absent _ _ Hu), (@find_absent _ _ Hl). reflexivity.
  - assert (Hu : ~ In LBRACE u) by tauto.
    rewrite (@find_absent _ _ Hu), (@find_absent _ _ Hl). reflexivity.
Qed.

(** Without an opening brace, or without a closing brace, there is nothing
    to extract: the client sanitizer returns [None], and the front-end
    sanitizer returns the trimmed text without its fences. *)
Lemma sanitizers_without_braces_lemma (raw : pystr) :
  ~ In LBRACE raw \/ ~ In RBRACE raw ->
  _clean_to_json_str raw = None
  /\ (raw <> [] -> clean_json_output raw = unfenced raw)
  /\ (~ In LBRACE (unfenced raw) \/ ~ In RBRACE (unfenced raw)).
Proof.
  intros Hno. destruct (unfenced_braces raw) as (d & HL & HR & _).
  assert (Hu : ~ In LBRACE (unfenced raw) \/ ~ In RBRACE (unfenced raw))
    by tauto.
  split; [|split; [|exact Hu]].
  - rewrite _clean_to_json_str_brace_span_lemma.
    destruct Hno as [Hl|Hr].
    + rewrite (@find_absent _ _ Hl). reflexivity.
    + rewrite (@rfind_absent _ _ Hr).
      destruct (Z.leb_spec 0 (find LBRACE raw)); [|reflexivity].
      replace (Z.ltb (find LBRACE raw) (-1)) with false; [reflexivity|].
      symmetry. apply Z.ltb_ge. lia.
  - intros Hne. unfold clean_json_output. fold (unfenced raw).
    destruct raw as [|a raw']; [congruence|].
    destruct Hu as [Hl|Hr].
    + rewrite (@find_absent _ _ Hl). reflexivity.
    + rewrite (@rfind_absent _ _ Hr). now rewrite andb_false_r.
Qed.

(** ** Texts in braces *)

Lemma first_occurrence (c : char) (s : pystr) :
  In c s ->
  exists p t, s = p ++ c :: t /\ find c s = Z.of_nat (List.length p).
Proof.
  intros H. unfold find.
  induction s as [|x s IH]; [contradiction|].
  simpl find_from. destruct (N.eqb x c) eqn:E.
  - apply N.eqb_eq in E. subst x. exists [], s. split; reflexivity.
  - destruct H as [H|H]; [apply N.eqb_neq in E; congruence|].
    destruct (IH H) as (p & t & Es & Ef).
    exists (x :: p), t. split; [simpl; congruence|].
    pose proof (proj2 (@find_from_present c s 0%Z H) 1%Z) as Hs.
    change (0 + 1)%Z with 1%Z in Hs. rewrite Hs. simpl List.length. lia.
Qed.

Lemma last_occurrence (c : char) (s : pystr) :
  In c s ->
  exists p t, s = p ++ c :: t /\ rfind c s = Z.of_nat (List.length p).
Proof.
  intros Hin. unfold rfind.
  induction s as [|x s IH] using rev_ind; [contradiction|].
  destruct (N.eqb x c) eqn:E.
  - apply N.eqb_eq in E. subst x. exists s, []. split; [reflexivity|].
    rewrite rfind_from_app. simpl. rewrite N.eqb_refl. lia.
  - apply in_app_iff in Hin. destruct Hin as [Hin|[Hin|[]]];
      [|apply N.eqb_neq in E; congruence].
    destruct (IH Hin) as (p & t & Es & Ef).
    exists p, (t ++ [x]). split.
    + rewrite Es, <- app_assoc. reflexivity.
    + rewrite rfind_from_app. simpl. rewrite E. exact Ef.
Qed.

Lemma slice_all (s : pystr) : slice s 0 (Z.of_nat (List.length s)) = s.
Proof.
  unfold slice, clamp.
  destruct (Z.ltb_spec (Z.of_nat (List.length s)) 0); [lia|].
  change (0 <? 0)%Z with false. cbv iota.
  rewrite !Z.min_l by lia.
  replace (Z.to_nat (Z.of_nat (List.length s) - 0)) with (List.length s) by lia.
  change (Z.to_nat 0) with 0%nat. apply firstn_all.
Qed.

(** When the first opening brace is before the last closing brace, the span
    between them starts with the one and ends with the other. *)
Lemma brace_span_in_braces (s : pystr) :
  (0 <= find LBRACE s < rfind RBRACE s)%Z ->
  exists m, brace_span s = LBRACE :: m ++ [RBRACE].
Proof.
  intros Hlt.
  assert (Hl : In LBRACE s).
  { destruct (in_dec N.eq_dec LBRACE s) as [H|H]; [exact H|].
    rewrite (@find_absent _ _ H) in Hlt. lia. }
  assert (Hr : In RBRACE s).
  { destruct (in_dec N.eq_dec RBRACE s) as [H|H]; [exact H|].
    rewrite (@rfind_absent _ _ H) in Hlt. lia. }
  destruct (@first_occurrence _ _ Hl) as (p1 & t1 & E1 & F1).
  destruct (@last_occurrence _ _ Hr) as (p2 & t2 & E2 & F2).
  rewrite F1, F2 in Hlt.
  assert (Hp : exists m, p2 = p1 ++ LBRACE :: m /\ t1 = m ++ RBRACE :: t2).
  { assert (E : p1 ++ LBRACE :: t1 = p2 ++ RBRACE :: t2) by congruence.
    clear - E Hlt. revert p2 E Hlt.
    induction p1 as [|x p1 IH]; intros [|y p2] E Hlt; simpl in *; try lia.
    - injection E as <- ->. now exists p2.
    - injection E as <- E. destruct (IH p2 E ltac:(lia)) as (m & -> & ->).
      now exists m. }
  destruct Hp as (m & -> & ->).
  exists m. unfold brace_span. rewrite F1, F2, E1.
  replace (Z.of_nat (List.length p1))
    with (0 + Z.of_nat (List.length p1))%Z by lia.
  replace (Z.of_nat (List.length (p1 ++ LBRACE :: m)) + 1)%Z
    with (Z.of_nat (List.length (LBRACE :: m ++ [RBRACE]))
          + Z.of_nat (List.length p1))%Z.
  2:{ simpl List.length. rewrite !length_app. simpl List.length. lia. }
  change (LBRACE :: m ++ RBRACE :: t2)
    with ((LBRACE :: m) ++ RBRACE :: t2).
  replace ((LBRACE :: m) ++ RBRACE :: t2)
    with ((LBRACE :: m ++ [RBRACE]) ++ t2).
  2:{ simpl. rewrite <- app_assoc. reflexivity. }
  rewrite slice_shift.
  - rewrite slice_app_within by lia. apply slice_all.
  - rewrite length_app. lia.
  - rewrite length_app. lia.
Qed.

(** A JSON document that starts with an opening brace is an object. *)
Lemma json_loads_object (r : pystr) (v : json) :
  json_loads (LBRACE :: r) = Loaded v -> exists members, v = JObj members.
Proof.
  unfold json_loads. change (N.eqb LBRACE BOM) with false. cbv iota.
  change (skip_ws (LBRACE :: r)) with (LBRACE :: r).
  replace (2 * List.length (LBRACE :: r) + 1)%nat
    with (S (2 * List.length (LBRACE :: r)))%nat by lia.
  rewrite scan_once_step.
  change (N.eqb LBRACE QUOTE) with false.
  change (N.eqb LBRACE LBRACE) with true. cbv iota.
  destruct max_depth as [|d]; [discriminate|].
  destruct (skip_ws r) as [|x r']; [discriminate|].
  destruct (N.eqb x RBRACE).
  { destruct (skip_ws r'); [|discriminate].
    intros H. injection H as <-. now exists []. }
  destruct (N.eqb x QUOTE); [|discriminate].
  destruct (JSONObject _ _ [] r') as [m r1| |e|]; unfold scan_map;
    try discriminate.
  destruct (skip_ws r1); [|discriminate].
  intros H. injection H as <-. now exists m.
Qed.

(** Whatever the client sanitizer returns is a text in braces that
    [json.loads] reads as an object. *)
Lemma _clean_to_json_str_object_lemma (text c : pystr) :
  _clean_to_json_str text = Some c ->
  (exists m, c = LBRACE :: m ++ [RBRACE])
  /\ exists members, json_loads c = Loaded (JObj members).
Proof.
  intros H. apply _clean_to_json_str_some in H.
  destruct H as (_ & Hlt & -> & v & Hv).
  destruct (@brace_span_in_braces _ Hlt) as [m Em].
  fold (brace_span (unfenced text)) in Hv |- *. rewrite Em in Hv |- *.
  split; [now exists m|].
  destruct (@json_loads_object _ _ Hv) as [members ->]. now exists members.
Qed.

(** On a text in braces the front-end sanitizer changes nothing. *)
Lemma clean_json_output_in_braces_lemma (m : pystr) :
  clean_json_output (LBRACE :: m ++ [RBRACE]) = LBRACE :: m ++ [RBRACE].
Proof.
  set (s := LBRACE :: m ++ [RBRACE]).
  assert (Hl : In LBRACE s) by now left.
  assert (Hr : In RBRACE s).
  { right. apply in_app_iff. right. now left. }
  rewrite (@clean_json_output_brace_span_lemma s Hl Hr). unfold brace_span.
  assert (F : find LBRACE s = 0%Z) by reflexivity.
  assert (G : (rfind RBRACE s + 1)%Z = Z.of_nat (List.length s)).
  { unfold rfind, s.
    change (LBRACE :: m ++ [RBRACE]) with ((LBRACE :: m) ++ [RBRACE]).
    rewrite rfind_from_app, length_app. simpl rfind_from.
    try rewrite N.eqb_refl. simpl List.length. lia. }
  rewrite F, G. apply slice_all.
Qed.

Lemma json_dumps_object_text (members : list (pystr * json)) :
  number_free (JObj members) = true ->
  (height (JObj members) <= max_depth)%nat ->
  exists m parsed,
    json_dumps (JObj members) = LBRACE :: m ++ [RBRACE]
    /\ json_loads (LBRACE :: m ++ [RBRACE]) = Loaded (JObj parsed).
Proof.
  intros Hnf Hh.
  destruct (json_loads_json_dumps (JObj members) Hnf Hh) as [v Hv].
  change (json_dumps (JObj members))
    with (LBRACE :: join_comma (List.map dump_member members) ++ [RBRACE])
    in Hv |- *.
  destruct (@json_loads_object _ _ Hv) as [parsed ->].
  now exists (join_comma (List.map dump_member members)), parsed.
Qed.

(** Once the client is constructed, what [review_code] returns is a text in
    braces that [json.loads] reads as an object, whatever the provider
    does. *)
Lemma review_code_returns_object_lemma
        (SYSTEM_INSTRUCTIONS GEMINI_MODEL : pystr)
        (GEMINI_API_KEY : option pystr)
        (generate_content : pystr -> pystr -> result pyval)
        (user_code : pystr) (language_hint : option pystr) :
  get_client GEMINI_API_KEY = Ok tt ->
  exists m members,
    review_code SYSTEM_INSTRUCTIONS GEMINI_MODEL GEMINI_API_KEY
                generate_content user_code language_hint
    = Ok (LBRACE :: m ++ [RBRACE])
    /\ json_loads (LBRACE :: m ++ [RBRACE]) = Loaded (JObj members).
Proof.
  intros Hc. unfold review_code. rewrite Hc. unfold bind. cbv beta iota.
  assert (Herr : forall e, exists m members,
             Ok (json_dumps (error_json e)) = Ok (LBRACE :: m ++ [RBRACE])
             /\ json_loads (LBRACE :: m ++ [RBRACE]) = Loaded (JObj members)).
  { intros e.
    destruct (@json_dumps_object_text _
                (eq_refl : number_free (error_json e) = true)
                (height_error_json e))
      as (m & parsed & E & HL0).
    exists m, parsed. split; [f_equal; exact E|exact HL0]. }
  assert (Hfb : exists m members,
             Ok (json_dumps fallback) = Ok (LBRACE :: m ++ [RBRACE])
             /\ json_loads (LBRACE :: m ++ [RBRACE]) = Loaded (JObj members)).
  { destruct (@json_dumps_object_text _
                (eq_refl : number_free fallback = true) height_fallback)
      as (m & parsed & E & HL0).
    exists m, parsed. split; [f_equal; exact E|exact HL0]. }
  destruct (generate_content _ _) as [response|e]; [|apply Herr].
  destruct (extract_text response) as [text|e]; [|apply Herr].
  destruct (clean_text text) as [json_str|e] eqn:Et; [|apply Herr].
  destruct json_str as [[|c j]|]; [exact Hfb| |exact Hfb].
  apply clean_text_some in Et. destruct Et as [s Hs].
  apply _clean_to_json_str_object_lemma in Hs.
  destruct Hs as ((m & Em) & members & HL0).
  exists m, members. rewrite Em in HL0 |- *. split; [reflexivity|exact HL0].
Qed.

(** ** The endpoint with the model client behind it *)


(** Without an API key (missing or empty), the same request is answered 500
    with the message of [get_client], and the provider plays no part. *)
Theorem endpoint_without_key
        (SYSTEM_INSTRUCTIONS GEMINI_MODEL : pystr)
        (GEMINI_API_KEY : option pystr)
        (generate_content : pystr -> pystr -> result pyval)
        (got_json : pyval) (c : char) (code' : pystr) (language : pyval) :
  GEMINI_API_KEY = None \/ GEMINI_API_KEY = Some [] ->
  request_fields (request_data got_json) = Ok (c :: code', language) ->
  (language = VNone \/ exists s, language = VStr s) ->
  api_review (model_client SYSTEM_INSTRUCTIONS GEMINI_MODEL GEMINI_API_KEY
                           generate_content) got_json
  = Served
      (Ok (Response 500
             (JObj [(py "error",
                     JStr (10060%N
                           :: py " GEMINI_API_KEY environment variable is not set."))])))
      [(c :: code', language)].
Proof.
  intros Hk Hf _. unfold api_review. rewrite Hf.
  unfold model_client, review_code.
  destruct Hk as [-> | ->]; reflexivity.
Qed.

(** ** The shapes of the response *)

Lemma extract_text_direct (cls s : pystr) :
  extract_text (direct_response cls s) = Ok (VStr s).
Proof. destruct s; reflexivity. Qed.

Lemma extract_text_nested (cls c1 c2 c3 s : pystr) :
  extract_text (nested_response cls c1 c2 c3 s) = Ok (VStr s).
Proof. reflexivity. Qed.

(** A response that carries the text in the first part of its first
    candidate is reviewed like one that carries it in its [text]
    attribute. *)
Theorem review_code_response_shapes
        (SYSTEM_INSTRUCTIONS GEMINI_MODEL : pystr)
        (GEMINI_API_KEY : option pystr)
        (direct nested : pystr -> pystr -> result pyval)
        (user_code : pystr) (language_hint : option pystr)
        (cls cls' c1 c2 c3 s : pystr) :
  (forall model contents, direct model contents = Ok (direct_response cls s)) ->
  (forall model contents,
      nested model contents = Ok (nested_response cls' c1 c2 c3 s)) ->
  review_code SYSTEM_INSTRUCTIONS GEMINI_MODEL GEMINI_API_KEY direct
              user_code language_hint
  = review_code SYSTEM_INSTRUCTIONS GEMINI_MODEL GEMINI_API_KEY nested
                user_code language_hint.
Proof.
  intros Hd Hn. unfold review_code. rewrite Hd, Hn. unfold bind.
  cbv beta iota. rewrite extract_text_direct, extract_text_nested.
  reflexivity.
Qed.

(** ** Trimming *)

Lemma drop_while_middle (P : char -> bool) (a b : pystr) (c : char) :
  P c = false -> drop_while P (a ++ c :: b) = drop_while P a ++ c :: b.
Proof.
  intros Hc. induction a as [|x a IH]; simpl.
  - now rewrite Hc.
  - destruct (P x); [exact IH|reflexivity].
Qed.

Lemma rstrip_cons (c : char) (r : pystr) :
  is_space c = false -> rstrip (c :: r) = c :: rstrip r.
Proof.
  intros Hc. unfold rstrip. simpl rev.
  rewrite (@drop_while_middle is_space (rev r) [] c Hc), rev_app_distr.
  reflexivity.
Qed.

Lemma drop_while_idempotent (P : char -> bool) (s : pystr) :
  drop_while P (drop_while P s) = drop_while P s.
Proof.
  induction s as [|c s IH]; [reflexivity|].
  simpl. destruct (P c) eqn:E; [exact IH|]. simpl. now rewrite E.
Qed.

Lemma rstrip_idempotent (s : pystr) : rstrip (rstrip s) = rstrip s.
Proof.
  unfold rstrip. now rewrite rev_involutive, drop_while_idempotent.
Qed.

(** [strip] on a trimmed text changes nothing. *)
Lemma strip_idempotent (s : pystr) : strip (strip s) = strip s.
Proof.
  unfold strip.
  assert (H : lstrip (rstrip (lstrip s)) = rstrip (lstrip s)).
  { unfold lstrip at 2 3. destruct (drop_while is_space s) as [|c r] eqn:E.
    - reflexivity.
    - assert (Hc : is_space c = false).
      { pose proof (drop_while_idempotent is_space s) as I.
        rewrite E in I. simpl in I.
        destruct (is_space c) eqn:Ec; [|reflexivity].
        exfalso. assert (HL0 := drop_while_length is_space r).
        rewrite I in HL0. simpl in HL0. lia. }
      rewrite (@rstrip_cons c r Hc). unfold lstrip. simpl. now rewrite Hc. }
  rewrite H. apply rstrip_idempotent.
Qed.

(** The model client is called at most once, and only with code that is
    not empty and has no whitespace around it. *)
Theorem api_review_calls_trimmed
        (review_code : pystr -> pyval -> result pystr) (got_json : pyval) :
  (List.length (model_calls (api_review review_code got_json)) <= 1)%nat
  /\ forall code language,
      In (code, language) (model_calls (api_review review_code got_json)) ->
      code <> [] /\ strip code = code.
Proof.
  unfold api_review, request_fields, bind.
  destruct (call_get (request_data got_json) (py "code") (VStr []))
    as [cv|e]; [|split; [simpl; lia|intros ? ? []]].
  destruct (call_strip cv) as [code0|e] eqn:Ec;
    [|split; [simpl; lia|intros ? ? []]].
  destruct (call_get (request_data got_json) (py "language") VNone)
    as [lang|e]; [|split; [simpl; lia|intros ? ? []]].
  destruct code0 as [|c code']; [split; [simpl; lia|intros ? ? []]|].
  split; [simpl; lia|].
  intros code language [H|[]]. injection H as <- <-.
  split; [discriminate|].
  destruct cv as [| b | z | f | s | l | d | cls t attrs];
    try (unfold call_strip, attr_lookup, bind in Ec; discriminate).
  - simpl in Ec. injection Ec as Ec. rewrite <- Ec. apply strip_idempotent.
  - unfold call_strip, attr_lookup, bind in Ec.
    destruct (dict_get (py "strip") attrs) as [[a|e]|]; discriminate.
Qed.

(** A body that is a true value and not a dictionary (a list, a number, a
    string) makes the handler raise before anything else: there is no
    response and the model client is not called. *)
Theorem api_review_body_not_dict
        (review_code : pystr -> pyval -> result pystr) (got_json : pyval) :
  truthy got_json = true ->
  (forall d, got_json <> VDict d) ->
  exists e, api_review review_code got_json = Served (Raise e) [].
Proof.
  intros Ht Hnd. unfold api_review, request_fields, request_data.
  rewrite Ht. unfold call_get at 1, bind at 1.
  destruct got_json as [| b | z | f | s | l | d | cls t attrs];
    try (eexists; reflexivity).
  - exfalso. now apply (Hnd d).
  - unfold attr_lookup, bind.
    destruct (dict_get (py "get") attrs) as [[a|e]|]; eexists; reflexivity.
Qed.

(** ** The fallback for a model that does not return JSON *)

Lemma json_loads_fallback : json_loads (json_dumps fallback) = Loaded fallback.
Proof. decoder_at_depth_two. vm_compute. reflexivity. Qed.

Lemma clean_json_output_fallback :
  clean_json_output (json_dumps fallback) = json_dumps fallback.
Proof. vm_compute. reflexivity. Qed.

(** When the text of the response has no opening brace, or no closing
    brace, [review_code] returns the serialised fallback dictionary, and
    [json.loads] reads it back as that dictionary. *)
Lemma review_code_without_json_lemma
        (SYSTEM_INSTRUCTIONS GEMINI_MODEL : pystr)
        (GEMINI_API_KEY : option pystr)
        (generate_content : pystr -> pystr -> result pyval)
        (user_code : pystr) (language_hint : option pystr)
        (cls s : pystr) :
  get_client GEMINI_API_KEY = Ok tt ->
  generate_content GEMINI_MODEL
    (SYSTEM_INSTRUCTIONS ++ [LF; LF] ++ build_prompt user_code language_hint)
  = Ok (direct_response cls s) ->
  ~ In LBRACE s \/ ~ In RBRACE s ->
  review_code SYSTEM_INSTRUCTIONS GEMINI_MODEL GEMINI_API_KEY
              generate_content user_code language_hint
  = Ok (json_dumps fallback)
  /\ json_loads (json_dumps fallback) = Loaded fallback.
Proof.
  intros Hc Hg Hno. split; [|exact json_loads_fallback].
  unfold review_code. rewrite Hc. unfold bind. cbv beta iota.
  rewrite Hg. cbv beta iota. rewrite extract_text_direct. cbv beta iota.
  unfold clean_text.
  destruct s as [|c s']; [reflexivity|].
  change (truthy (VStr (c :: s'))) with true. cbv beta iota.
  rewrite (proj1 (@sanitizers_without_braces_lemma (c :: s') Hno)). reflexivity.
Qed.

(** The same through the endpoint: the answer is 200 with the fallback
    dictionary as its body. *)
Theorem endpoint_without_json
        (SYSTEM_INSTRUCTIONS GEMINI_MODEL : pystr)
        (GEMINI_API_KEY : option pystr)
        (generate_content : pystr -> pystr -> result pyval)
        (got_json : pyval) (c : char) (code' : pystr) (language : pyval)
        (cls s : pystr) :
  get_client GEMINI_API_KEY = Ok tt ->
  request_fields (request_data got_json) = Ok (c :: code', language) ->
  (language = VNone \/ exists h, language = VStr h) ->
  generate_content GEMINI_MODEL
    (SYSTEM_INSTRUCTIONS ++ [LF; LF]
       ++ build_prompt (c :: code') (language_hint_of language))
  = Ok (direct_response cls s) ->
  ~ In LBRACE s \/ ~ In RBRACE s ->
  api_review (model_client SYSTEM_INSTRUCTIONS GEMINI_MODEL GEMINI_API_KEY
                           generate_content) got_json
  = Served (Ok (Response 200 fallback)) [(c :: code', language)].
Proof.
  intros Hc Hf _ Hg Hno. unfold api_review. rewrite Hf. unfold model_client.
  rewrite (proj1 (@review_code_without_json_lemma SYSTEM_INSTRUCTIONS GEMINI_MODEL
                    GEMINI_API_KEY generate_content (c :: code')
                    (language_hint_of language) cls s Hc Hg Hno)).
  rewrite clean_json_output_fallback, json_loads_fallback. reflexivity.
Qed.

(** ** The round trip through [json.dumps] and [json.loads] *)

Lemma hex_digits_value (u : N) :
  (u < 65536)%N ->
  ((u / 4096 mod 16) * 4096 + (u / 256 mod 16) * 256
   + (u / 16 mod 16) * 16 + u mod 16 = u)%N.
Proof. intros H. zify. Z.to_euclidean_division_equations. lia. Qed.

Lemma hex4_u_escape (u : N) :
  (u < 65536)%N ->
  hex4 (hex_digit (u / 4096 mod 16)) (hex_digit (u / 256 mod 16))
       (hex_digit (u / 16 mod 16)) (hex_digit (u mod 16)) = Some u.
Proof.
  intros H. unfold hex4.
  rewrite !hex_value_digit by (apply N.mod_upper_bound; discriminate).
  f_equal. now apply hex_digits_value.
Qed.

Lemma lor_low_bits (a b : N) :
  (b < 1024)%N -> N.lor (a * 1024) b = (a * 1024 + b)%N.
Proof.
  intros Hb.
  assert (HL0 : N.land (a * 1024) b = 0%N).
  { apply N.bits_inj. intros i. rewrite N.land_spec, N.bits_0.
    destruct (N.lt_ge_cases i 10) as [Hi|Hi].
    - change 1024%N with (2 ^ 10)%N.
      rewrite N.mul_pow2_bits_low by assumption. reflexivity.
    - destruct (N.eq_dec b 0) as [->|Hnz];
        [rewrite N.bits_0; apply andb_false_r|].
      rewrite (N.bits_above_log2 b i); [apply andb_false_r|].
      apply N.log2_lt_pow2; [lia|].
      apply N.lt_le_trans with (2 ^ 10)%N; [exact Hb|].
      apply N.pow_le_mono_r; [discriminate|exact Hi]. }
  rewrite <- N.lxor_lor by exact HL0. symmetry.
  apply N.add_nocarry_lxor. exact HL0.
Qed.

(** The surrogate pair the encoder writes for a character beyond the basic
    plane, and the character the decoder joins it to. *)
Lemma surrogate_pair (c : N) :
  (65536 <= c < 1114112)%N ->
  let n := (c - 65536)%N in
  let hi := N.lor 55296 (N.land (N.shiftr n 10) 1023) in
  let lo := N.lor 56320 (N.land n 1023) in
  (55296 <= hi <= 56319)%N /\ (56320 <= lo <= 57343)%N
  /\ join_surrogates hi lo = c.
Proof.
  intros H n hi lo.
  assert (Hn : (n < 1048576)%N) by (unfold n; lia).
  assert (Ha : N.land (N.shiftr n 10) 1023 = (n / 1024)%N).
  { rewrite N.shiftr_div_pow2. change (2 ^ 10)%N with 1024%N.
    change 1023%N with (N.ones 10). rewrite N.land_ones.
    change (2 ^ 10)%N with 1024%N. apply N.mod_small.
    zify. Z.to_euclidean_division_equations. lia. }
  assert (Hb : N.land n 1023 = (n mod 1024)%N).
  { change 1023%N with (N.ones 10). rewrite N.land_ones. reflexivity. }
  assert (Hq : (n / 1024 < 1024)%N)
    by (zify; Z.to_euclidean_division_equations; lia).
  assert (Hm : (n mod 1024 < 1024)%N)
    by (apply N.mod_upper_bound; discriminate).
  assert (Hhi : hi = (55296 + n / 1024)%N).
  { unfold hi. rewrite Ha. change 55296%N with (54 * 1024)%N.
    now apply lor_low_bits. }
  assert (Hlo : lo = (56320 + n mod 1024)%N).
  { unfold lo. rewrite Hb. change 56320%N with (55 * 1024)%N.
    now apply lor_low_bits. }
  split; [lia|]. split; [lia|].
  unfold join_surrogates. rewrite Hhi, Hlo.
  replace (55296 + n / 1024 - 55296)%N with (n / 1024)%N by lia.
  replace (56320 + n mod 1024 - 56320)%N with (n mod 1024)%N by lia.
  rewrite N.shiftl_mul_pow2. change (2 ^ 10)%N with 1024%N.
  rewrite lor_low_bits by exact Hm.
  unfold n. zify. Z.to_euclidean_division_equations. lia.
Qed.

(** The decoder reads an encoded string of scalar values back as it
    was. *)
Lemma scanstring_encoded_exact (s rest : pystr) :
  forallb is_scalar s = true ->
  scanstring (flat_map escape_char s ++ QUOTE :: rest) = Some (s, rest).
Proof.
  induction s as [|c s IH]; intros Hs; [reflexivity|].
  simpl in Hs. apply andb_prop in Hs. destruct Hs as [Hc Hs].
  specialize (IH Hs). simpl flat_map. rewrite <- app_assoc.
  set (R := flat_map escape_char s ++ QUOTE :: rest) in *.
  unfold is_scalar, between in Hc. apply andb_prop in Hc.
  destruct Hc as [Hsur Hmax]. apply N.ltb_lt in Hmax.
  apply negb_true_iff in Hsur.
  unfold escape_char.
  destruct (N.eqb c QUOTE) eqn:Eq.
  { apply N.eqb_eq in Eq. subst c. simpl app.
    rewrite (@scanstring_letter QUOTE QUOTE R eq_refl eq_refl), IH.
    reflexivity. }
  destruct (N.eqb c BACKSLASH) eqn:Eb.
  { apply N.eqb_eq in Eb. subst c. simpl app.
    rewrite (@scanstring_letter BACKSLASH BACKSLASH R eq_refl eq_refl), IH.
    reflexivity. }
  destruct (N.eqb c 10%N) eqn:E1.
  { apply N.eqb_eq in E1. subst c. simpl app.
    rewrite (@scanstring_letter 110%N 10%N R eq_refl eq_refl), IH.
    reflexivity. }
  destruct (N.eqb c 13%N) eqn:E2.
  { apply N.eqb_eq in E2. subst c. simpl app.
    rewrite (@scanstring_letter 114%N 13%N R eq_refl eq_refl), IH.
    reflexivity. }
  destruct (N.eqb c 9%N) eqn:E3.
  { apply N.eqb_eq in E3. subst c. simpl app.
    rewrite (@scanstring_letter 116%N 9%N R eq_refl eq_refl), IH.
    reflexivity. }
  destruct (N.eqb c 8%N) eqn:E4.
  { apply N.eqb_eq in E4. subst c. simpl app.
    rewrite (@scanstring_letter 98%N 8%N R eq_refl eq_refl), IH.
    reflexivity. }
  destruct (N.eqb c 12%N) eqn:E5.
  { apply N.eqb_eq in E5. subst c. simpl app.
    rewrite (@scanstring_letter 102%N 12%N R eq_refl eq_refl), IH.
    reflexivity. }
  destruct (between 32%N 126%N c) eqn:Ep.
  { unfold between in Ep. apply andb_prop in Ep. destruct Ep as [Ep _].
    apply N.leb_le in Ep. simpl app.
    rewrite (@scanstring_plain c R Eq Eb), IH; [reflexivity|].
    apply N.leb_gt. lia. }
  destruct (N.ltb c 65536%N) eqn:El.
  { apply N.ltb_lt in El. unfold u_escape. simpl app.
    rewrite scanstring_unicode, (hex4_u_escape El).
    replace (is_high_surrogate c) with false.
    - rewrite IH. reflexivity.
    - symmetry. unfold is_high_surrogate, between.
      apply andb_false_iff in Hsur.
      destruct Hsur as [H|H]; [rewrite H; reflexivity|].
      apply N.leb_gt in H. apply andb_false_iff. right.
      apply N.leb_gt. lia. }
  apply N.ltb_ge in El.
  destruct (@surrogate_pair c ltac:(lia)) as (Hhi & Hlo & Hj).
  cbv zeta in Hhi, Hlo, Hj.
  set (hi := N.lor 55296 (N.land (N.shiftr (c - 65536) 10) 1023)) in *.
  set (lo := N.lor 56320 (N.land (c - 65536) 1023)) in *.
  unfold u_escape. rewrite <- app_assoc. simpl app.
  rewrite scanstring_unicode, (@hex4_u_escape hi ltac:(lia)).
  replace (is_high_surrogate hi) with true.
  2:{ symmetry. unfold is_high_surrogate, between.
      apply andb_true_intro. split; apply N.leb_le; lia. }
  unfold low_surrogate_escape.
  change (N.eqb BACKSLASH BACKSLASH) with true.
  change (N.eqb LOWER_U LOWER_U) with true. cbv iota.
  rewrite (@hex4_u_escape lo ltac:(lia)).
  replace (is_low_surrogate lo) with true.
  2:{ symmetry. unfold is_low_surrogate, between.
      apply andb_true_intro. split; apply N.leb_le; lia. }
  rewrite Hj, IH. reflexivity.
Qed.

Lemma str_eqb_refl (a : pystr) : str_eqb a a = true.
Proof.
  induction a as [|x a IH]; [reflexivity|]. simpl. now rewrite N.eqb_refl.
Qed.

Lemma fresh_key_not_in (k : pystr) (members : list (pystr * json)) :
  fresh_key k members = true -> ~ In k (List.map fst members).
Proof.
  unfold fresh_key. intros H Hin. apply negb_true_iff in H.
  apply in_map_iff in Hin. destruct Hin as ([k' v] & Ek & Hin).
  simpl in Ek. subst k'.
  assert (E : existsb (fun kv => str_eqb (fst kv) k) members = true).
  { apply existsb_exists. exists (k, v). split; [exact Hin|].
    apply str_eqb_refl. }
  congruence.
Qed.

Lemma dict_set_fresh (V : Type) (k : pystr) (v : V) (d : list (pystr * V)) :
  ~ In k (List.map fst d) -> dict_set k v d = d ++ [(k, v)].
Proof.
  induction d as [|[k' v'] d IH]; intros H; [reflexivity|].
  simpl. destruct (str_eqb k' k) eqn:E.
  - apply str_eqb_eq in E. exfalso. apply H. now left.
  - rewrite IH; [reflexivity|]. intros Hin. apply H. now right.
Qed.

Lemma round_trips_members (kv : pystr * json) (r : list (pystr * json)) :
  round_trips (JObj (kv :: r))
  = forallb is_scalar (fst kv) && fresh_key (fst kv) r
    && round_trips (snd kv) && round_trips (JObj r).
Proof. reflexivity. Qed.

Lemma round_trips_number_free (v : json) :
  round_trips v = true -> number_free v = true.
Proof.
  induction v as [| b | lit | s | items IH | members IH] using json_nested_ind;
    try reflexivity; try discriminate.
  - simpl. intros H. apply forallb_forall. intros x Hx.
    rewrite Forall_forall in IH. apply (IH x Hx).
    rewrite forallb_forall in H. now apply H.
  - induction members as [|kv r IHr]; [reflexivity|].
    rewrite round_trips_members. intros H.
    apply andb_prop in H. destruct H as [H Hr].
    apply andb_prop in H. destruct H as [_ Hv].
    inversion IH as [|? ? Hkv IH']; subst.
    change (number_free (JObj (kv :: r)))
      with (number_free (snd kv) && number_free (JObj r)).
    rewrite (Hkv Hv), (IHr IH' Hr). reflexivity.
Qed.

(** The elements of a serialised array come back as they were. *)
Lemma scan_elements_exact (items : list json) :
  items <> [] ->
  Forall (fun v => number_free v = true /\ scans_exact v) items ->
  forall d acc rest, Forall (fun v => (height v <= d)%nat) items ->
  exists k,
    JSONArray k d acc
      (join_comma (List.map json_dumps items) ++ RBRACKET :: rest)
    = Scanned (acc ++ items) rest.
Proof.
  induction items as [|x items IH]; [congruence|].
  intros _ HF d acc rest Hh. inversion HF as [|? ? [Hnf Hx] HF']; subst.
  inversion Hh as [|? ? Hhx Hh']; subst.
  destruct items as [|y items'].
  - destruct (Hx (RBRACKET :: rest) d Hhx) as (k & E).
    exists (S k).
    rewrite JSONArray_step. simpl List.map. simpl join_comma. rewrite E.
    reflexivity.
  - set (J := join_comma (List.map json_dumps (y :: items'))) in *.
    change (join_comma (List.map json_dumps (x :: y :: items')))
      with (json_dumps x ++ [COMMA; 32%N] ++ J).
    rewrite <- !app_assoc.
    change ([COMMA; 32%N] ++ J ++ RBRACKET :: rest)
      with (COMMA :: 32%N :: (J ++ RBRACKET :: rest)).
    destruct (Hx (COMMA :: 32%N :: (J ++ RBRACKET :: rest)) d Hhx)
      as (k1 & E1).
    destruct (IH ltac:(discriminate) HF' d (acc ++ [x]) rest Hh')
      as (k2 & E2).
    exists (S (Nat.max k1 k2)).
    rewrite JSONArray_step.
    rewrite (@scan_once_at_least k1 (Nat.max k1 k2) _ _ _ _ ltac:(lia) E1).
    change (skip_ws (COMMA :: 32%N :: (J ++ RBRACKET :: rest)))
      with (COMMA :: 32%N :: (J ++ RBRACKET :: rest)).
    change (N.eqb COMMA RBRACKET) with false.
    change (N.eqb COMMA COMMA) with true. cbv iota.
    rewrite skip_ws_space.
    inversion HF' as [|? ? [Hnfy _] _]; subst.
    destruct (json_dumps_head y Hnfy) as (c & s & Ey & Hws & _).
    destruct (join_comma_head (List.map json_dumps items') Ey) as (s' & EJ).
    fold J in EJ. simpl List.map in EJ.
    assert (Hskip : skip_ws (J ++ RBRACKET :: rest) = J ++ RBRACKET :: rest).
    { unfold J. simpl List.map. rewrite EJ. simpl app. now apply skip_ws_head. }
    rewrite Hskip.
    rewrite (@JSONArray_at_least k2 (Nat.max k1 k2) _ _ _ _ _ ltac:(lia) E2).
    rewrite <- app_assoc. reflexivity.
Qed.

Lemma scan_member_exact (key : pystr) (v : json) (R : pystr) :
  forallb is_scalar key = true ->
  number_free v = true ->
  forall k d v' acc,
    scan_once k d (json_dumps v ++ R) = Scanned v' R ->
    JSONObject (S k) d acc
      (flat_map escape_char key ++ QUOTE :: COLON :: 32%N :: (json_dumps v ++ R))
    = match skip_ws R with
      | y :: r3 =>
          if N.eqb y RBRACE then Scanned (dict_set key v' acc) r3
          else if N.eqb y COMMA then
            match skip_ws r3 with
            | q :: r4 =>
                if N.eqb q QUOTE then JSONObject k d (dict_set key v' acc) r4
                else Malformed
            | [] => Malformed
            end
          else Malformed
      | [] => Malformed
      end.
Proof.
  intros Hkey Hnf k d v' acc E.
  rewrite JSONObject_step, (scanstring_encoded_exact _ _ Hkey).
  change (skip_ws (COLON :: 32%N :: (json_dumps v ++ R)))
    with (COLON :: 32%N :: (json_dumps v ++ R)).
  change (N.eqb COLON COLON) with true. cbv iota.
  rewrite skip_ws_space.
  destruct (json_dumps_head v Hnf) as (c & s & Ev & Hws & _).
  assert (Hskip : skip_ws (json_dumps v ++ R) = json_dumps v ++ R).
  { rewrite Ev. simpl app. now apply skip_ws_head. }
  rewrite Hskip, E. reflexivity.
Qed.

(** The members of a serialised object come back as they were, when no key
    is there twice. *)
Lemma scan_members_exact (members : list (pystr * json)) :
  members <> [] ->
  Forall (fun kv => forallb is_scalar (fst kv) = true
                    /\ number_free (snd kv) = true
                    /\ scans_exact (snd kv)) members ->
  forall d acc rest,
    Forall (fun kv => (height (snd kv) <= d)%nat) members ->
    NoDup (List.map fst (acc ++ members)) ->
    exists k s,
      join_comma (List.map dump_member members) ++ RBRACE :: rest = QUOTE :: s
      /\ JSONObject k d acc s = Scanned (acc ++ members) rest.
Proof.
  induction members as [|[key x] members IH]; [congruence|].
  intros _ HF d acc rest Hh Hnd.
  inversion HF as [|? ? (Hkey & Hnf & Hx) HF']; subst.
  inversion Hh as [|? ? Hhx Hh']; subst.
  simpl in Hkey, Hnf, Hx, Hhx.
  assert (Hfresh : ~ In key (List.map fst acc)).
  { rewrite map_app in Hnd. simpl in Hnd.
    apply NoDup_remove_2 in Hnd. intros Hin. apply Hnd.
    apply in_or_app. now left. }
  destruct members as [|kv2 members'].
  - destruct (Hx (RBRACE :: rest) d Hhx) as (k & E).
    exists (S k). eexists. split.
    + simpl List.map. simpl join_comma. apply dump_member_shape.
    + simpl fst. simpl snd.
      rewrite (@scan_member_exact key x (RBRACE :: rest) Hkey Hnf k d x acc E).
      rewrite (@dict_set_fresh _ key x acc Hfresh). reflexivity.
  - set (J := join_comma (List.map dump_member (kv2 :: members'))) in *.
    destruct (Hx (COMMA :: 32%N :: (J ++ RBRACE :: rest)) d Hhx)
      as (k1 & E1).
    assert (Hnd' : NoDup (List.map fst ((acc ++ [(key, x)])
                                          ++ kv2 :: members'))).
    { rewrite <- app_assoc. exact Hnd. }
    destruct (IH ltac:(discriminate) HF' d (acc ++ [(key, x)]) rest Hh' Hnd')
      as (k2 & s & Es & E2).
    exists (S (Nat.max k1 k2)). eexists. split.
    + change (join_comma (List.map dump_member ((key, x) :: kv2 :: members')))
        with (dump_member (key, x) ++ [COMMA; 32%N] ++ J).
      rewrite <- !app_assoc.
      change ([COMMA; 32%N] ++ J ++ RBRACE :: rest)
        with (COMMA :: 32%N :: (J ++ RBRACE :: rest)).
      apply dump_member_shape.
    + simpl fst. simpl snd.
      rewrite (@scan_member_exact key x _ Hkey Hnf (Nat.max k1 k2) d x acc
                 (@scan_once_at_least k1 (Nat.max k1 k2) _ _ _ _ ltac:(lia) E1)).
      change (skip_ws (COMMA :: 32%N :: (J ++ RBRACE :: rest)))
        with (COMMA :: 32%N :: (J ++ RBRACE :: rest)).
      change (N.eqb COMMA RBRACE) with false.
      change (N.eqb COMMA COMMA) with true. cbv iota.
      rewrite skip_ws_space, Es.
      change (skip_ws (QUOTE :: s)) with (QUOTE :: s).
      change (N.eqb QUOTE QUOTE) with true. cbv iota.
      rewrite (@dict_set_fresh _ key x acc Hfresh).
      rewrite (@JSONObject_at_least k2 (Nat.max k1 k2) _ _ _ _ _ ltac:(lia) E2).
      rewrite <- app_assoc. reflexivity.
Qed.

Lemma round_trips_object (members : list (pystr * json)) :
  round_trips (JObj members) = true ->
  NoDup (List.map fst members)
  /\ Forall (fun kv => forallb is_scalar (fst kv) = true
                       /\ round_trips (snd kv) = true) members.
Proof.
  induction members as [|kv r IH]; [intros _; split; constructor|].
  rewrite round_trips_members. intros H.
  apply andb_prop in H. destruct H as [H Hr].
  apply andb_prop in H. destruct H as [H Hv].
  apply andb_prop in H. destruct H as [Hk Hf].
  destruct (IH Hr) as [Hnd HF]. split.
  - simpl. constructor; [now apply fresh_key_not_in|exact Hnd].
  - constructor; [now split|exact HF].
Qed.

(** The scanner reads back exactly what [json_dumps] was given. *)
Theorem scan_json_dumps_exact (v : json) :
  round_trips v = true -> scans_exact v.
Proof.
  induction v as [| b | lit | s | items IH | members IH] using json_nested_ind;
    intros Hrt rest d Hh.
  - exists 1%nat. reflexivity.
  - exists 1%nat. destruct b; reflexivity.
  - discriminate.
  - exists 1%nat.
    assert (Eq : json_dumps (JStr s) ++ rest
                 = QUOTE :: (flat_map escape_char s ++ QUOTE :: rest)).
    { change (json_dumps (JStr s))
        with (QUOTE :: flat_map escape_char s ++ [QUOTE]).
      rewrite <- app_comm_cons, <- app_assoc. reflexivity. }
    rewrite Eq, scan_once_step.
    change (N.eqb QUOTE QUOTE) with true. cbv iota.
    rewrite (scanstring_encoded_exact _ _ Hrt). reflexivity.
  - simpl in Hh. destruct d as [|d]; [lia|].
    apply le_S_n, height_items in Hh.
    destruct items as [|x items'].
    { exists 1%nat. reflexivity. }
    assert (HF : Forall (fun v => number_free v = true /\ scans_exact v)
                        (x :: items')).
    { change (round_trips (JArr (x :: items')))
        with (forallb round_trips (x :: items')) in Hrt.
      rewrite forallb_forall in Hrt.
      rewrite Forall_forall in IH |- *. intros y Hy. split.
      - apply round_trips_number_free. now apply Hrt.
      - apply (IH y Hy). now apply Hrt. }
    destruct (@scan_elements_exact (x :: items') ltac:(discriminate) HF d []
                rest Hh) as (k & E).
    exists (S k).
    assert (Eq : json_dumps (JArr (x :: items')) ++ rest
                 = LBRACKET :: (join_comma (List.map json_dumps (x :: items'))
                                ++ RBRACKET :: rest)).
    { change (json_dumps (JArr (x :: items')))
        with (LBRACKET :: join_comma (List.map json_dumps (x :: items'))
                       ++ [RBRACKET]).
      rewrite <- app_comm_cons, <- app_assoc. reflexivity. }
    rewrite Eq, scan_once_step.
    change (N.eqb LBRACKET QUOTE) with false.
    change (N.eqb LBRACKET LBRACE) with false.
    change (N.eqb LBRACKET LBRACKET) with true. cbv iota.
    inversion HF as [|? ? [Hnfx _] _]; subst.
    destruct (json_dumps_head x Hnfx) as (c & s & Ex & Hws & Hc & _).
    destruct (join_comma_head (List.map json_dumps items') Ex) as (s' & EJ).
    change (List.map json_dumps (x :: items'))
      with (json_dumps x :: List.map json_dumps items') in *.
    rewrite EJ in E |- *. rewrite <- !app_comm_cons in E |- *.
    rewrite (@skip_ws_head c _ Hws), Hc, E. reflexivity.
  - simpl in Hh. destruct d as [|d]; [lia|].
    apply le_S_n, height_members in Hh.
    destruct members as [|kv members'].
    { exists 1%nat. reflexivity. }
    destruct (round_trips_object _ Hrt) as [Hnd Hall].
    assert (HF : Forall (fun kv => forallb is_scalar (fst kv) = true
                                   /\ number_free (snd kv) = true
                                   /\ scans_exact (snd kv)) (kv :: members')).
    { rewrite Forall_forall in IH, Hall |- *. intros y Hy.
      destruct (Hall y Hy) as [Hk Hv]. split; [exact Hk|]. split.
      - now apply round_trips_number_free.
      - now apply (IH y Hy). }
    destruct (@scan_members_exact (kv :: members') ltac:(discriminate) HF d []
                rest Hh Hnd) as (k & s & Es & E).
    exists (S k).
    assert (Eq : json_dumps (JObj (kv :: members')) ++ rest
                 = LBRACE :: (join_comma (List.map dump_member (kv :: members'))
                              ++ RBRACE :: rest)).
    { change (json_dumps (JObj (kv :: members')))
        with (LBRACE :: join_comma (List.map dump_member (kv :: members'))
                     ++ [RBRACE]).
      rewrite <- app_comm_cons, <- app_assoc. reflexivity. }
    rewrite Eq, Es, scan_once_step.
    change (N.eqb LBRACE QUOTE) with false.
    change (N.eqb LBRACE LBRACE) with true. cbv iota.
    change (skip_ws (QUOTE :: s)) with (QUOTE :: s).
    change (N.eqb QUOTE RBRACE) with false.
    change (N.eqb QUOTE QUOTE) with true. cbv iota.
    rewrite E. reflexivity.
Qed.

(** [json.loads(json.dumps(v))] is [v] for a document without numbers,
    without surrogates in its strings and without a key twice, whose levels
    the interpreter can enter. *)
Theorem json_round_trip (v : json) :
  round_trips v = true -> (height v <= max_depth)%nat ->
  json_loads (json_dumps v) = Loaded v.
Proof.
  intros Hrt Hh.
  destruct (@scan_json_dumps_exact v Hrt [] max_depth Hh) as (k & E).
  rewrite app_nil_r in E.
  destruct (json_dumps_head v (round_trips_number_free v Hrt))
    as (c & s & Ev & Hws & _ & Hb).
  apply json_loads_scanned with (k := k) (r := []).
  - rewrite Ev. exact Hb.
  - rewrite Ev in *. rewrite (@skip_ws_head c _ Hws). exact E.
  - reflexivity.
Qed.

Lemma round_trips_error_json (e : exn) :
  forallb is_scalar (str_of e) = true -> round_trips (error_json e) = true.
Proof.
  intros H.
  assert (Hm : forallb is_scalar (py "Model call failed: " ++ str_of e) = true).
  { rewrite forallb_app, H. reflexivity. }
  unfold error_json. rewrite !round_trips_members.
  change (round_trips
            (snd (py "issues_found",
                  JArr [JStr (py "Model call failed: " ++ str_of e)])))
    with (forallb is_scalar (py "Model call failed: " ++ str_of e) && true).
  rewrite Hm. reflexivity.
Qed.

(** After a failure of the provider whose message has no surrogates, what
    [review_code] returns is read back by [json.loads] as the fallback
    dictionary itself, message included. *)
Theorem review_code_failure_round_trip
        (SYSTEM_INSTRUCTIONS GEMINI_MODEL : pystr)
        (GEMINI_API_KEY : option pystr)
        (generate_content : pystr -> pystr -> result pyval)
        (user_code : pystr) (language_hint : option pystr) (e : exn) :
  get_client GEMINI_API_KEY = Ok tt ->
  generate_content GEMINI_MODEL
    (SYSTEM_INSTRUCTIONS ++ [LF; LF] ++ build_prompt user_code language_hint)
  = Raise e ->
  forallb is_scalar (str_of e) = true ->
  exists s,
    review_code SYSTEM_INSTRUCTIONS GEMINI_MODEL GEMINI_API_KEY
                generate_content user_code language_hint = Ok s
    /\ json_loads s = Loaded (error_json e).
Proof.
  intros Hc Hg Hs. exists (json_dumps (error_json e)). split.
  - unfold review_code. rewrite Hc. unfold bind. cbv beta iota.
    rewrite Hg. reflexivity.
  - apply json_round_trip; [now apply round_trips_error_json|].
    apply height_error_json.
Qed.

(** The same through the endpoint: a failure of the provider is answered
    200, with the fallback dictionary that names the failure as the body. *)
Theorem endpoint_on_provider_failure
        (SYSTEM_INSTRUCTIONS GEMINI_MODEL : pystr)
        (GEMINI_API_KEY : option pystr)
        (generate_content : pystr -> pystr -> result pyval)
        (got_json : pyval) (c : char) (code' : pystr) (language : pyval)
        (e : exn) :
  get_client GEMINI_API_KEY = Ok tt ->
  request_fields (request_data got_json) = Ok (c :: code', language) ->
  (language = VNone \/ exists h, language = VStr h) ->
  generate_content GEMINI_MODEL
    (SYSTEM_INSTRUCTIONS ++ [LF; LF]
       ++ build_prompt (c :: code') (language_hint_of language))
  = Raise e ->
  forallb is_scalar (str_of e) = true ->
  api_review (model_client SYSTEM_INSTRUCTIONS GEMINI_MODEL GEMINI_API_KEY
                           generate_content) got_json
  = Served (Ok (Response 200 (error_json e))) [(c :: code', language)].
Proof.
  intros Hc Hf _ Hg Hs. unfold api_review. rewrite Hf. unfold model_client.
  assert (E : review_code SYSTEM_INSTRUCTIONS GEMINI_MODEL GEMINI_API_KEY
                          generate_content (c :: code')
                          (language_hint_of language)
              = Ok (json_dumps (error_json e))).
  { unfold review_code. rewrite Hc. unfold bind. cbv beta iota.
    rewrite Hg. reflexivity. }
  rewrite E.
  change (json_dumps (error_json e))
    with (LBRACE :: join_comma
                      (List.map dump_member
                         [ (py "code_status", JStr (py "Incorrect"));
                           (py "issues_found",
                            JArr [JStr (py "Model call failed: " ++ str_of e)]);
                           (py "suggestions",
                            JArr [JStr (py "Check your GEMINI_API_KEY and internet connectivity.");
                                  JStr (py "Ensure google-genai is installed (version 0.3.0).")]) ])
                   ++ [RBRACE]).
  rewrite clean_json_output_in_braces_lemma.
  change (LBRACE :: join_comma
                      (List.map dump_member
                         [ (py "code_status", JStr (py "Incorrect"));
                           (py "issues_found",
                            JArr [JStr (py "Model call failed: " ++ str_of e)]);
                           (py "suggestions",
                            JArr [JStr (py "Check your GEMINI_API_KEY and internet connectivity.");
                                  JStr (py "Ensure google-genai is installed (version 0.3.0).")]) ])
                   ++ [RBRACE])
    with (json_dumps (error_json e)).
  rewrite (json_round_trip _ (round_trips_error_json e Hs)
                           (height_error_json e)).
  reflexivity.
Qed.

(** ** The reply of the model on its way to the caller *)

Lemma in_braces_span (m : pystr) :
  let X := LBRACE :: m ++ [RBRACE] in
  find LBRACE X = 0%Z
  /\ (rfind RBRACE X + 1)%Z = Z.of_nat (List.length X)
  /\ brace_span X = X.
Proof.
  intros X.
  assert (F : find LBRACE X = 0%Z) by reflexivity.
  assert (G : (rfind RBRACE X + 1)%Z = Z.of_nat (List.length X)).
  { unfold rfind, X.
    change (LBRACE :: m ++ [RBRACE]) with ((LBRACE :: m) ++ [RBRACE]).
    rewrite rfind_from_app, length_app. simpl rfind_from.
    try rewrite N.eqb_refl. simpl List.length. lia. }
  split; [exact F|]. split; [exact G|].
  unfold brace_span. rewrite F, G. apply slice_all.
Qed.

(** A text in braces inside a text that has no other brace is its brace
    span. *)
Lemma brace_span_embedded (pre m post : pystr) :
  ~ In LBRACE pre -> ~ In RBRACE pre ->
  ~ In LBRACE post -> ~ In RBRACE post ->
  let X := LBRACE :: m ++ [RBRACE] in
  (0 <= find LBRACE (pre ++ X ++ post) < rfind RBRACE (pre ++ X ++ post))%Z
  /\ brace_span (pre ++ X ++ post) = X.
Proof.
  intros Hl1 Hr1 Hl2 Hr2 X.
  pose proof (same_braces_trans
                (@same_braces_drop_prefix pre (X ++ post) Hl1 Hr1)
                (@same_braces_drop_suffix X post Hl2 Hr2)) as (HL & HR & H).
  assert (Hl : In LBRACE X) by now left.
  assert (Hr : In RBRACE X).
  { right. apply in_app_iff. right. now left. }
  destruct (H (proj2 HL Hl) (proj2 HR Hr)) as (F & G & E).
  destruct (in_braces_span m) as (F0 & G0 & E0). fold X in F0, G0, E0.
  split; [|congruence].
  assert (HL0 : (2 <= Z.of_nat (List.length X))%Z).
  { unfold X. simpl List.length. rewrite length_app. simpl List.length. lia. }
  lia.
Qed.

(** When the text of the response is a serialised object whose levels the
    interpreter can enter, with fences or prose around it that have no
    braces, [review_code] returns the serialised object. *)
Lemma review_code_passes_object_lemma
        (SYSTEM_INSTRUCTIONS GEMINI_MODEL : pystr)
        (GEMINI_API_KEY : option pystr)
        (generate_content : pystr -> pystr -> result pyval)
        (user_code : pystr) (language_hint : option pystr)
        (cls pre post : pystr) (members : list (pystr * json)) :
  get_client GEMINI_API_KEY = Ok tt ->
  generate_content GEMINI_MODEL
    (SYSTEM_INSTRUCTIONS ++ [LF; LF] ++ build_prompt user_code language_hint)
  = Ok (direct_response cls (pre ++ json_dumps (JObj members) ++ post)) ->
  ~ In LBRACE pre -> ~ In RBRACE pre ->
  ~ In LBRACE post -> ~ In RBRACE post ->
  round_trips (JObj members) = true ->
  (height (JObj members) <= max_depth)%nat ->
  review_code SYSTEM_INSTRUCTIONS GEMINI_MODEL GEMINI_API_KEY
              generate_content user_code language_hint
  = Ok (json_dumps (JObj members)).
Proof.
  intros Hc Hg Hl1 Hr1 Hl2 Hr2 Hrt Hh.
  set (X := json_dumps (JObj members)) in *.
  set (m := join_comma (List.map dump_member members)).
  assert (EX : X = LBRACE :: m ++ [RBRACE]) by reflexivity.
  destruct (@brace_span_embedded pre m post Hl1 Hr1 Hl2 Hr2) as [Hlt Hspan].
  cbv zeta in Hlt, Hspan. rewrite <- EX in Hlt, Hspan.
  assert (Hclean : _clean_to_json_str (pre ++ X ++ post) = Some X).
  { rewrite _clean_to_json_str_brace_span_lemma, Hspan.
    replace (Z.leb 0 (find LBRACE (pre ++ X ++ post))) with true
      by (symmetry; apply Z.leb_le; lia).
    replace (Z.ltb (find LBRACE (pre ++ X ++ post))
                   (rfind RBRACE (pre ++ X ++ post))) with true
      by (symmetry; apply Z.ltb_lt; lia).
    unfold X. rewrite (json_round_trip _ Hrt Hh). reflexivity. }
  unfold review_code. rewrite Hc. unfold bind. cbv beta iota.
  rewrite Hg. cbv beta iota. rewrite extract_text_direct. cbv beta iota.
  unfold clean_text.
  assert (Hne : exists c t, pre ++ X ++ post = c :: t).
  { rewrite EX. destruct pre; simpl; eauto. }
  destruct Hne as (c & t & Et). rewrite Et in *.
  change (truthy (VStr (c :: t))) with true. cbv beta iota.
  rewrite Hclean, EX. reflexivity.
Qed.


(** ** Further facts on the sanitizers *)

Lemma braces_present (s : pystr) :
  (0 <= find LBRACE s < rfind RBRACE s)%Z -> In LBRACE s /\ In RBRACE s.
Proof.
  intros Hlt. split.
  - destruct (in_dec N.eq_dec LBRACE s) as [H|H]; [exact H|].
    rewrite (@find_absent _ _ H) in Hlt. lia.
  - destruct (in_dec N.eq_dec RBRACE s) as [H|H]; [exact H|].
    rewrite (@rfind_absent _ _ H) in Hlt. lia.
Qed.

Lemma clean_json_output_in_order (raw : pystr) :
  (0 <= find LBRACE raw < rfind RBRACE raw)%Z ->
  exists m, clean_json_output raw = LBRACE :: m ++ [RBRACE].
Proof.
  intros Hlt. destruct (@braces_present raw Hlt) as [Hl Hr].
  rewrite (@clean_json_output_brace_span_lemma raw Hl Hr).
  now apply brace_span_in_braces.
Qed.

(** The front-end sanitizer is idempotent on every text whose first opening
    brace is before its last closing brace. *)
Theorem clean_json_output_idempotent (raw : pystr) :
  (0 <= find LBRACE raw < rfind RBRACE raw)%Z ->
  clean_json_output (clean_json_output raw) = clean_json_output raw.
Proof.
  intros Hlt. destruct (@clean_json_output_in_order raw Hlt) as [m ->].
  apply clean_json_output_in_braces_lemma.
Qed.

(** The converse of the agreement of the sanitizers: when the braces are in
    order and what the front-end sanitizer returns is a JSON document, the
    client sanitizer returns the same text. *)
Theorem sanitizers_agree_conversely (raw : pystr) (v : json) :
  (0 <= find LBRACE raw < rfind RBRACE raw)%Z ->
  json_loads (clean_json_output raw) = Loaded v ->
  _clean_to_json_str raw = Some (clean_json_output raw).
Proof.
  intros Hlt Hv. destruct (@braces_present raw Hlt) as [Hl Hr].
  rewrite (@clean_json_output_brace_span_lemma raw Hl Hr) in Hv |- *.
  rewrite _clean_to_json_str_brace_span_lemma, Hv.
  replace (Z.leb 0 (find LBRACE raw)) with true
    by (symmetry; apply Z.leb_le; lia).
  replace (Z.ltb (find LBRACE raw) (rfind RBRACE raw)) with true
    by (symmetry; apply Z.ltb_lt; lia).
  reflexivity.
Qed.

(** A text of the response that is true and not a string cannot be
    trimmed: the exception is caught like a failure of the provider, and the
    fallback names it. *)
Theorem review_code_text_not_str
        (SYSTEM_INSTRUCTIONS GEMINI_MODEL : pystr)
        (GEMINI_API_KEY : option pystr)
        (generate_content : pystr -> pystr -> result pyval)
        (user_code : pystr) (language_hint : option pystr)
        (response text : pyval) :
  get_client GEMINI_API_KEY = Ok tt ->
  generate_content GEMINI_MODEL
    (SYSTEM_INSTRUCTIONS ++ [LF; LF] ++ build_prompt user_code language_hint)
  = Ok response ->
  extract_text response = Ok text ->
  truthy text = true ->
  (forall s, text <> VStr s) ->
  (forall cls t attrs, text <> VObj cls t attrs) ->
  review_code SYSTEM_INSTRUCTIONS GEMINI_MODEL GEMINI_API_KEY
              generate_content user_code language_hint
  = Ok (json_dumps (error_json (no_attribute text (py "strip")))).
Proof.
  intros Hc Hg He Ht Hns Hno.
  unfold review_code. rewrite Hc. unfold bind. cbv beta iota.
  rewrite Hg. cbv beta iota. rewrite He. cbv beta iota.
  unfold clean_text. rewrite Ht.
  destruct text as [| b | z | f | s | l | d | cls t attrs];
    try reflexivity.
  - exfalso. now apply (Hns s).
  - exfalso. now apply (Hno cls t attrs).
Qed.

(** ** Nesting beyond the levels of the interpreter *)

(** More opening brackets than the scanner has levels for: it raises
    [RecursionError] at the first bracket it cannot enter, before it reads
    what follows. *)
Lemma scan_once_too_deep (d : nat) :
  forall n k rest, (d < n)%nat -> (2 * d + 1 <= k)%nat ->
    scan_once k d (List.repeat LBRACKET n ++ rest)
    = Failed (RecursionError InArray).
Proof.
  induction d as [|d IH]; intros n k rest Hn Hk.
  - destruct n as [|n]; [lia|]. destruct k as [|k]; [lia|]. reflexivity.
  - destruct n as [|[|n]]; [lia|lia|]. destruct k as [|[|k]]; [lia|lia|].
    change (List.repeat LBRACKET (S (S n)) ++ rest)
      with (LBRACKET :: (List.repeat LBRACKET (S n) ++ rest)).
    rewrite scan_once_step.
    change (N.eqb LBRACKET QUOTE) with false.
    change (N.eqb LBRACKET LBRACE) with false.
    change (N.eqb LBRACKET LBRACKET) with true. cbv iota.
    change (List.repeat LBRACKET (S n) ++ rest)
      with (LBRACKET :: (List.repeat LBRACKET n ++ rest)).
    rewrite (@skip_ws_head LBRACKET _ eq_refl).
    change (N.eqb LBRACKET RBRACKET) with false. cbv iota.
    change (LBRACKET :: (List.repeat LBRACKET n ++ rest))
      with (List.repeat LBRACKET (S n) ++ rest).
    rewrite JSONArray_step.
    rewrite (IH (S n) k rest) by lia. reflexivity.
Qed.

Lemma json_loads_too_deep (n : nat) :
  (max_depth < n)%nat ->
  json_loads (List.repeat LBRACKET n) = OtherError (RecursionError InArray).
Proof.
  intros Hn. destruct n as [|n]; [lia|].
  pose proof (@scan_once_too_deep max_depth (S n)
                (2 * List.length (List.repeat LBRACKET (S n)) + 1) [] Hn)
    as E.
  rewrite app_nil_r, repeat_length in E. specialize (E ltac:(lia)).
  unfold json_loads. rewrite repeat_length.
  change (List.repeat LBRACKET (S n))
    with (LBRACKET :: List.repeat LBRACKET n) in E |- *.
  change (N.eqb LBRACKET BOM) with false. cbv iota.
  rewrite (@skip_ws_head LBRACKET _ eq_refl), E. reflexivity.
Qed.

Lemma rev_repeat_char (c : char) (n : nat) :
  rev (List.repeat c n) = List.repeat c n.
Proof.
  induction n as [|n IH]; [reflexivity|].
  simpl. rewrite IH. symmetry. apply repeat_cons.
Qed.

Lemma sub_trailing_fence_brackets (n : nat) :
  sub_trailing_fence (List.repeat LBRACKET n) = List.repeat LBRACKET n.
Proof.
  induction n as [|n IH]; [reflexivity|].
  change (List.repeat LBRACKET (S n)) with (LBRACKET :: List.repeat LBRACKET n).
  change (sub_trailing_fence (LBRACKET :: List.repeat LBRACKET n))
    with (LBRACKET :: sub_trailing_fence (List.repeat LBRACKET n)).
  now rewrite IH.
Qed.

(** Opening brackets only: there is nothing for the front-end sanitizer to
    remove. *)
Lemma clean_json_output_brackets (n : nat) :
  (0 < n)%nat ->
  clean_json_output (List.repeat LBRACKET n) = List.repeat LBRACKET n.
Proof.
  intros Hn.
  assert (Hno : ~ In LBRACE (List.repeat LBRACKET n)
                \/ ~ In RBRACE (List.repeat LBRACKET n)).
  { left. intros H. apply repeat_spec in H. discriminate H. }
  destruct (@sanitizers_without_braces_lemma _ Hno) as (_ & -> & _).
  2:{ destruct n; [lia|discriminate]. }
  unfold unfenced, strip, lstrip, rstrip.
  assert (E : drop_while is_space (List.repeat LBRACKET n)
              = List.repeat LBRACKET n).
  { destruct n; reflexivity. }
  rewrite E, rev_repeat_char, E, rev_repeat_char.
  replace (sub_leading_fence (List.repeat LBRACKET n))
    with (List.repeat LBRACKET n)
    by (destruct n as [|[|[|n']]]; reflexivity).
  apply sub_trailing_fence_brackets.
Qed.

(** The answer of the handler when [json.loads] raises an exception that
    is not [json.JSONDecodeError]. *)
Lemma api_review_other_exception
      (review_code : pystr -> pyval -> result pystr)
      (got_json : pyval) (c : char) (code' : pystr) (language : pyval)
      (raw : pystr) (e : exn) :
  request_fields (request_data got_json) = Ok (c :: code', language) ->
  review_code (c :: code') language = Ok raw ->
  json_loads (clean_json_output raw) = OtherError e ->
  api_review review_code got_json
  = Served (Ok (Response 500 (JObj [(py "error", JStr (str_of e))])))
           [(c :: code', language)].
Proof.
  intros Hf Hr Hj. unfold api_review. rewrite Hf, Hr, Hj. reflexivity.
Qed.

(** ** Summary of the sanitizers and of the model client *)

(** On a text that has an opening and a closing brace, the front-end
    sanitizer returns the slice of the text itself from its first opening to
    its last closing brace: trimming and fences do not change the result. *)
Theorem clean_json_output_brace_span (raw : pystr) :
  In LBRACE raw -> In RBRACE raw ->
  clean_json_output raw = brace_span raw.
Proof. exact (@clean_json_output_brace_span_lemma raw). Qed.

(** The client sanitizer in terms of the text itself: it returns the slice
    from the first opening to the last closing brace when the closing one is
    behind the opening one and [json.loads] reads the slice, and [None] in
    every other case. *)
Theorem _clean_to_json_str_brace_span (text : pystr) :
  _clean_to_json_str text
  = if Z.leb 0 (find LBRACE text) && Z.ltb (find LBRACE text) (rfind RBRACE text)
    then match json_loads (brace_span text) with
         | Loaded _ => Some (brace_span text)
         | DecodeError | OtherError _ => None
         end
    else None.
Proof. exact (@_clean_to_json_str_brace_span_lemma text). Qed.

(** Without an opening brace, or without a closing brace, there is nothing
    to extract: the client sanitizer returns [None], and the front-end
    sanitizer returns the trimmed text without its fences. *)
Theorem sanitizers_without_braces (raw : pystr) :
  ~ In LBRACE raw \/ ~ In RBRACE raw ->
  _clean_to_json_str raw = None
  /\ (raw <> [] -> clean_json_output raw = unfenced raw)
  /\ (~ In LBRACE (unfenced raw) \/ ~ In RBRACE (unfenced raw)).
Proof. exact (@sanitizers_without_braces_lemma raw). Qed.

(** Whatever the client sanitizer returns is a text in braces that
    [json.loads] reads as an object. *)
Theorem _clean_to_json_str_object (text c : pystr) :
  _clean_to_json_str text = Some c ->
  (exists m, c = LBRACE :: m ++ [RBRACE])
  /\ exists members, json_loads c = Loaded (JObj members).
Proof. exact (@_clean_to_json_str_object_lemma text c). Qed.

(** On a text in braces the front-end sanitizer changes nothing. *)
Theorem clean_json_output_in_braces (m : pystr) :
  clean_json_output (LBRACE :: m ++ [RBRACE]) = LBRACE :: m ++ [RBRACE].
Proof. exact (@clean_json_output_in_braces_lemma m). Qed.

(** Once the client is constructed, what [review_code] returns is a text in
    braces that [json.loads] reads as an object, whatever the provider
    does. *)
Theorem review_code_returns_object
        (SYSTEM_INSTRUCTIONS GEMINI_MODEL : pystr)
        (GEMINI_API_KEY : option pystr)
        (generate_content : pystr -> pystr -> result pyval)
        (user_code : pystr) (language_hint : option pystr) :
  get_client GEMINI_API_KEY = Ok tt ->
  exists m members,
    review_code SYSTEM_INSTRUCTIONS GEMINI_MODEL GEMINI_API_KEY
                generate_content user_code language_hint
    = Ok (LBRACE :: m ++ [RBRACE])
    /\ json_loads (LBRACE :: m ++ [RBRACE]) = Loaded (JObj members).
Proof. exact (@review_code_returns_object_lemma SYSTEM_INSTRUCTIONS GEMINI_MODEL GEMINI_API_KEY generate_content user_code language_hint). Qed.

(** When the text of the response has no opening brace, or no closing
    brace, [review_code] returns the serialised fallback dictionary, and
    [json.loads] reads it back as that dictionary. *)
Theorem review_code_without_json
        (SYSTEM_INSTRUCTIONS GEMINI_MODEL : pystr)
        (GEMINI_API_KEY : option pystr)
        (generate_content : pystr -> pystr -> result pyval)
        (user_code : pystr) (language_hint : option pystr)
        (cls s : pystr) :
  get_client GEMINI_API_KEY = Ok tt ->
  generate_content GEMINI_MODEL
    (SYSTEM_INSTRUCTIONS ++ [LF; LF] ++ build_prompt user_code language_hint)
  = Ok (direct_response cls s) ->
  ~ In LBRACE s \/ ~ In RBRACE s ->
  review_code SYSTEM_INSTRUCTIONS GEMINI_MODEL GEMINI_API_KEY
              generate_content user_code language_hint
  = Ok (json_dumps fallback)
  /\ json_loads (json_dumps fallback) = Loaded fallback.
Proof. exact (@review_code_without_json_lemma SYSTEM_INSTRUCTIONS GEMINI_MODEL GEMINI_API_KEY generate_content user_code language_hint cls s). Qed.

(** When the text of the response is a serialised object whose levels the
    interpreter can enter, with fences or prose around it that have no
    braces, [review_code] returns the serialised object. *)
Theorem review_code_passes_object
        (SYSTEM_INSTRUCTIONS GEMINI_MODEL : pystr)
        (GEMINI_API_KEY : option pystr)
        (generate_content : pystr -> pystr -> result pyval)
        (user_code : pystr) (language_hint : option pystr)
        (cls pre post : pystr) (members : list (pystr * json)) :
  get_client GEMINI_API_KEY = Ok tt ->
  generate_content GEMINI_MODEL
    (SYSTEM_INSTRUCTIONS ++ [LF; LF] ++ build_prompt user_code language_hint)
  = Ok (direct_response cls (pre ++ json_dumps (JObj members) ++ post)) ->
  ~ In LBRACE pre -> ~ In RBRACE pre ->
  ~ In LBRACE post -> ~ In RBRACE post ->
  round_trips (JObj members) = true ->
  (height (JObj members) <= max_depth)%nat ->
  review_code SYSTEM_INSTRUCTIONS GEMINI_MODEL GEMINI_API_KEY
              generate_content user_code language_hint
  = Ok (json_dumps (JObj members)).
Proof. exact (@review_code_passes_object_lemma SYSTEM_INSTRUCTIONS GEMINI_MODEL GEMINI_API_KEY generate_content user_code language_hint cls pre post members). Qed.

End Properties.

(** * Instances

    The theorems above at concrete requests, texts and providers, in an
    interpreter with the default limits. *)

#[local] Existing Instance default_limits.

(** C2, as stated, fails on a body that is a list: it has no field [code],
    but it is a true value and has no [get], so the first statement of the
    handler raises and no response is made. *)
Lemma api_review_list_body :
  truthy (VList [VInt 1]) = true
  /\ api_review prose_client (VList [VInt 1])
     = Served (Raise (no_attribute (VList [VInt 1]) (py "get"))) []
  /\ outcome (api_review prose_client (VList [VInt 1]))
     <> Ok (Response 400 (JObj [(py "error", JStr (py "No code provided."))])).
Proof.
  split; [reflexivity|]. split; [reflexivity|]. discriminate.
Qed.

(** C6, as stated, fails on a text of opening brackets only, a hundred
    thousand of them, far more than any interpreter allows: the sanitized
    form does not parse, but what [json.loads] raises is [RecursionError],
    and the answer is 500. *)
Lemma api_review_nesting_too_deep :
  clean_json_output deep_array = deep_array
  /\ json_loads (clean_json_output deep_array)
     = OtherError (RecursionError InArray)
  /\ api_review deep_client (VDict [(py "code", VStr (py "x = 1"))])
     = Served (Ok (Response 500
                     (JObj [(py "error", JStr (recursion_message InArray))])))
              [(py "x = 1", VNone)]
  /\ status (Response 500
               (JObj [(py "error", JStr (recursion_message InArray))]))
     <> 200%Z.
Proof.
  assert (Hn : (max_depth < N.to_nat 100000)%nat)
    by (apply Nat.ltb_lt; vm_compute; reflexivity).
  assert (Hc : clean_json_output deep_array = deep_array)
    by (apply clean_json_output_brackets; lia).
  assert (Hj : json_loads (clean_json_output deep_array)
               = OtherError (RecursionError InArray))
    by (rewrite Hc; apply json_loads_too_deep; exact Hn).
  split; [exact Hc|]. split; [exact Hj|]. split; [|discriminate].
  exact (@api_review_other_exception default_limits deep_client
           (VDict [(py "code", VStr (py "x = 1"))]) 120%N (py " = 1") VNone
           deep_array (RecursionError InArray) eq_refl eq_refl Hj).
Qed.

Lemma sanitizers_on_whitespace_witness :
  forallb is_space (py "  ") = true
  /\ clean_json_output (py "  ") = []
  /\ _clean_to_json_str (py "  ") = None.
Proof.
  split; [reflexivity|].
  apply (sanitizers_on_whitespace (py "  ")). reflexivity.
Defined.

Lemma sanitizers_agree_witness :
  _clean_to_json_str fenced_object_a1 = Some object_a1
  /\ clean_json_output fenced_object_a1 = object_a1.
Proof.
  split; [vm_compute; reflexivity|].
  apply (sanitizers_agree fenced_object_a1). vm_compute. reflexivity.
Defined.

Lemma review_code_returns_json_witness :
  get_client (Some (py "key")) = Ok tt
  /\ exists s v,
      review_code (py "instructions") (py "gemini-2.5-flash")
                  (Some (py "key")) answering_provider
                  (py "print(1)") (Some (py "python")) = Ok s
      /\ json_loads s = Loaded v.
Proof.
  split; [reflexivity|].
  apply (@review_code_returns_json default_limits (py "instructions")
           (py "gemini-2.5-flash")
           (Some (py "key")) answering_provider
           (py "print(1)") (Some (py "python"))).
  vm_compute. reflexivity.
Defined.

Lemma review_code_provider_failure_witness :
  get_client (Some (py "key")) = Ok tt
  /\ failing_provider (py "gemini-2.5-flash")
       (py "instructions" ++ [LF; LF] ++ build_prompt (py "print(1)") None)
     = Raise (Exn OtherException (py "quota exceeded"))
  /\ review_code (py "instructions") (py "gemini-2.5-flash") (Some (py "key"))
                 failing_provider (py "print(1)") None
     = Ok (json_dumps (error_json (Exn OtherException (py "quota exceeded")))).
Proof.
  split; [reflexivity|]. split; [reflexivity|].
  apply (@review_code_provider_failure default_limits (py "instructions")
           (py "gemini-2.5-flash") (Some (py "key")) failing_provider
           (py "print(1)") None (Exn OtherException (py "quota exceeded")));
    reflexivity.
Defined.

Lemma api_review_no_code_witness :
  request_data (VDict [(py "code", VStr (py "   "))])
  = VDict [(py "code", VStr (py "   "))]
  /\ api_review prose_client (VDict [(py "code", VStr (py "   "))])
     = Served (Ok (Response 400
                     (JObj [(py "error", JStr (py "No code provided."))])))
              [].
Proof.
  split; [reflexivity|].
  apply (@api_review_no_code default_limits prose_client
           (VDict [(py "code", VStr (py "   "))])
           [(py "code", VStr (py "   "))]); [reflexivity|].
  right. exists (py "   "). split; reflexivity.
Defined.

Lemma api_review_soft_fail_witness :
  request_fields (request_data (VDict [(py "code", VStr (py "x = 1"))]))
  = Ok (py "x = 1", VNone)
  /\ json_loads (clean_json_output (py "The code looks fine.")) = DecodeError
  /\ api_review prose_client (VDict [(py "code", VStr (py "x = 1"))])
     = Served (Ok (Response 200
                     (JObj [ (py "summary",
                              JStr (py "Gemini returned non-JSON. Showing raw."));
                             (py "raw", JStr (py "The code looks fine.")) ])))
              [(py "x = 1", VNone)].
Proof.
  split; [reflexivity|]. split; [vm_compute; reflexivity|].
  apply (proj1 (@api_review_soft_fail default_limits prose_client
                  (VDict [(py "code", VStr (py "x = 1"))])
                  120%N (py " = 1") VNone (py "The code looks fine.")
                  eq_refl eq_refl)).
  vm_compute. reflexivity.
Defined.

Lemma api_review_code_not_str_witness :
  request_data (VDict [(py "code", VInt 42)]) = VDict [(py "code", VInt 42)]
  /\ exists e,
      call_strip (VInt 42) = Raise e
      /\ api_review prose_client (VDict [(py "code", VInt 42)])
         = Served (Raise e) [].
Proof.
  split; [reflexivity|].
  apply (@api_review_code_not_str default_limits prose_client
           (VDict [(py "code", VInt 42)]) [(py "code", VInt 42)] (VInt 42));
    [reflexivity|reflexivity|discriminate].
Defined.


Lemma endpoint_without_key_witness :
  request_fields (request_data (VDict [(py "code", VStr (py "x = 1"))]))
  = Ok (py "x = 1", VNone)
  /\ outcome
       (api_review (model_client (py "instructions") (py "gemini-2.5-flash")
                                 None answering_provider)
                   (VDict [(py "code", VStr (py "x = 1"))]))
     = Ok (Response 500
             (JObj [(py "error",
                     JStr (10060%N
                           :: py " GEMINI_API_KEY environment variable is not set."))])).
Proof.
  split; [reflexivity|].
  rewrite (@endpoint_without_key default_limits (py "instructions")
           (py "gemini-2.5-flash")
             None answering_provider
             (VDict [(py "code", VStr (py "x = 1"))]) 120%N (py " = 1") VNone
             (or_introl eq_refl) eq_refl (or_introl eq_refl)).
  reflexivity.
Defined.

Lemma review_code_response_shapes_witness :
  review_code (py "instructions") (py "gemini-2.5-flash") (Some (py "key"))
              (fun _ _ => Ok (direct_response (py "Response") object_a1))
              (py "x = 1") None
  = review_code (py "instructions") (py "gemini-2.5-flash") (Some (py "key"))
                (fun _ _ =>
                   Ok (nested_response (py "Response") (py "Candidate")
                                       (py "Content") (py "Part") object_a1))
                (py "x = 1") None.
Proof.
  apply (@review_code_response_shapes default_limits (py "instructions")
           (py "gemini-2.5-flash") (Some (py "key"))
           (fun _ _ => Ok (direct_response (py "Response") object_a1))
           (fun _ _ =>
              Ok (nested_response (py "Response") (py "Candidate")
                                  (py "Content") (py "Part") object_a1))
           (py "x = 1") None
           (py "Response") (py "Response") (py "Candidate") (py "Content")
           (py "Part") object_a1); reflexivity.
Defined.

Lemma api_review_body_not_dict_witness :
  truthy (VList [VInt 1]) = true
  /\ exists e, api_review prose_client (VList [VInt 1]) = Served (Raise e) [].
Proof.
  split; [reflexivity|].
  apply (@api_review_body_not_dict default_limits prose_client (VList [VInt 1]));
    [reflexivity|discriminate].
Defined.

Lemma endpoint_without_json_witness :
  api_review (model_client (py "instructions") (py "gemini-2.5-flash")
                           (Some (py "key"))
                           (fun _ _ => Ok (direct_response (py "Response")
                                                           (py "Looks fine."))))
             (VDict [(py "code", VStr (py "x = 1"))])
  = Served (Ok (Response 200 fallback)) [(py "x = 1", VNone)].
Proof.
  apply (@endpoint_without_json default_limits (py "instructions")
           (py "gemini-2.5-flash")
           (Some (py "key"))
           (fun _ _ => Ok (direct_response (py "Response") (py "Looks fine.")))
           (VDict [(py "code", VStr (py "x = 1"))]) 120%N (py " = 1") VNone
           (py "Response") (py "Looks fine.")).
  - reflexivity.
  - reflexivity.
  - left. reflexivity.
  - reflexivity.
  - left. vm_compute. intros G.
    repeat (destruct G as [G|G]; [discriminate|]). contradiction.
Defined.

Lemma review_code_failure_round_trip_witness :
  get_client (Some (py "key")) = Ok tt
  /\ forallb is_scalar (py "quota exceeded") = true
  /\ exists s,
      review_code (py "instructions") (py "gemini-2.5-flash") (Some (py "key"))
                  failing_provider (py "print(1)") None = Ok s
      /\ json_loads s
         = Loaded (error_json (Exn OtherException (py "quota exceeded"))).
Proof.
  split; [reflexivity|]. split; [reflexivity|].
  apply (@review_code_failure_round_trip default_limits (py "instructions")
           (py "gemini-2.5-flash") (Some (py "key")) failing_provider
           (py "print(1)") None (Exn OtherException (py "quota exceeded")));
    reflexivity.
Defined.

Lemma endpoint_on_provider_failure_witness :
  api_review (model_client (py "instructions") (py "gemini-2.5-flash")
                           (Some (py "key")) failing_provider)
             (VDict [(py "code", VStr (py "x = 1"))])
  = Served (Ok (Response 200
                  (error_json (Exn OtherException (py "quota exceeded")))))
           [(py "x = 1", VNone)].
Proof.
  apply (@endpoint_on_provider_failure default_limits (py "instructions")
           (py "gemini-2.5-flash") (Some (py "key")) failing_provider
           (VDict [(py "code", VStr (py "x = 1"))]) 120%N (py " = 1") VNone
           (Exn OtherException (py "quota exceeded")));
    try reflexivity.
  left. reflexivity.
Defined.


Lemma clean_json_output_idempotent_witness :
  (0 <= find LBRACE fenced_object_a1 < rfind RBRACE fenced_object_a1)%Z
  /\ clean_json_output (clean_json_output fenced_object_a1)
     = clean_json_output fenced_object_a1.
Proof.
  assert (H : (0 <= find LBRACE fenced_object_a1
               < rfind RBRACE fenced_object_a1)%Z) by (vm_compute; split; congruence).
  split; [exact H|].
  exact (@clean_json_output_idempotent fenced_object_a1 H).
Defined.

Lemma sanitizers_agree_conversely_witness :
  (0 <= find LBRACE fenced_object_a1 < rfind RBRACE fenced_object_a1)%Z
  /\ _clean_to_json_str fenced_object_a1
     = Some (clean_json_output fenced_object_a1).
Proof.
  assert (H : (0 <= find LBRACE fenced_object_a1
               < rfind RBRACE fenced_object_a1)%Z) by (vm_compute; split; congruence).
  split; [exact H|].
  apply (@sanitizers_agree_conversely default_limits fenced_object_a1
           (JObj [([97%N], JNumber [49%N])]) H).
  vm_compute. reflexivity.
Defined.

Lemma review_code_text_not_str_witness :
  review_code (py "instructions") (py "gemini-2.5-flash") (Some (py "key"))
              (fun _ _ => Ok (VObj (py "Response") true
                                   [(py "text", Ok (VInt 5))]))
              (py "x = 1") None
  = Ok (json_dumps (error_json (no_attribute (VInt 5) (py "strip")))).
Proof.
  apply (@review_code_text_not_str default_limits (py "instructions")
           (py "gemini-2.5-flash") (Some (py "key"))
           (fun _ _ => Ok (VObj (py "Response") true
                                [(py "text", Ok (VInt 5))]))
           (py "x = 1") None
           (VObj (py "Response") true [(py "text", Ok (VInt 5))]) (VInt 5));
    try reflexivity; discriminate.
Defined.

Lemma clean_json_output_brace_span_witness :
  In LBRACE fenced_object_a1 /\ In RBRACE fenced_object_a1
  /\ clean_json_output fenced_object_a1 = brace_span fenced_object_a1.
Proof.
  assert (Hl : In LBRACE fenced_object_a1).
  { vm_compute. do 8 right. left. reflexivity. }
  assert (Hr : In RBRACE fenced_object_a1).
  { vm_compute. do 14 right. left. reflexivity. }
  split; [exact Hl|]. split; [exact Hr|].
  exact (@clean_json_output_brace_span fenced_object_a1 Hl Hr).
Defined.

Lemma sanitizers_without_braces_witness :
  (~ In LBRACE (py "no json here") \/ ~ In RBRACE (py "no json here"))
  /\ _clean_to_json_str (py "no json here") = None.
Proof.
  assert (H : ~ In LBRACE (py "no json here")
              \/ ~ In RBRACE (py "no json here")).
  { left. vm_compute. intros G.
    repeat (destruct G as [G|G]; [discriminate|]). contradiction. }
  split; [exact H|].
  exact (proj1 (@sanitizers_without_braces default_limits (py "no json here") H)).
Defined.

Lemma _clean_to_json_str_object_witness :
  _clean_to_json_str fenced_object_a1 = Some object_a1
  /\ (exists m, object_a1 = LBRACE :: m ++ [RBRACE])
  /\ exists members, json_loads object_a1 = Loaded (JObj members).
Proof.
  split; [vm_compute; reflexivity|].
  apply (@_clean_to_json_str_object default_limits fenced_object_a1 object_a1).
  vm_compute. reflexivity.
Defined.

Lemma review_code_returns_object_witness :
  get_client (Some (py "key")) = Ok tt
  /\ exists m members,
      review_code (py "instructions") (py "gemini-2.5-flash")
                  (Some (py "key")) failing_provider (py "print(1)") None
      = Ok (LBRACE :: m ++ [RBRACE])
      /\ json_loads (LBRACE :: m ++ [RBRACE]) = Loaded (JObj members).
Proof.
  split; [reflexivity|].
  apply (@review_code_returns_object default_limits (py "instructions")
           (py "gemini-2.5-flash") (Some (py "key")) failing_provider
           (py "print(1)") None).
  reflexivity.
Defined.

Lemma review_code_without_json_witness :
  get_client (Some (py "key")) = Ok tt
  /\ review_code (py "instructions") (py "gemini-2.5-flash") (Some (py "key"))
                 (fun _ _ => Ok (direct_response (py "Response")
                                                 (py "Looks fine to me.")))
                 (py "x = 1") None
     = Ok (json_dumps fallback).
Proof.
  split; [reflexivity|].
  apply (@review_code_without_json default_limits (py "instructions")
           (py "gemini-2.5-flash") (Some (py "key"))
           (fun _ _ => Ok (direct_response (py "Response")
                                           (py "Looks fine to me.")))
           (py "x = 1") None (py "Response") (py "Looks fine to me.")).
  - reflexivity.
  - reflexivity.
  - left. vm_compute. intros G.
    repeat (destruct G as [G|G]; [discriminate|]). contradiction.
Defined.

Lemma review_code_passes_object_witness :
  review_code (py "instructions") (py "gemini-2.5-flash") (Some (py "key"))
              (fun _ _ =>
                 Ok (direct_response (py "Response")
                       (py "Here you go: " ++ json_dumps fallback
                           ++ py " Done.")))
              (py "x = 1") None
  = Ok (json_dumps fallback).
Proof.
  apply (@review_code_passes_object default_limits (py "instructions")
           (py "gemini-2.5-flash") (Some (py "key"))
           (fun _ _ =>
              Ok (direct_response (py "Response")
                    (py "Here you go: " ++ json_dumps fallback ++ py " Done.")))
           (py "x = 1") None (py "Response") (py "Here you go: ")
           (py " Done.")
           [ (py "code_status", JStr (py "Incorrect"));
             (py "issues_found",
              JArr [JStr (py "Model did not return valid JSON output.")]);
             (py "suggestions",
              JArr [JStr (py "Re-run the review.");
                    JStr (py "Ensure the snippet is complete and includes required imports.")]) ]);
    try reflexivity;
    try (apply Nat.leb_le; reflexivity);
    vm_compute; intros G;
    repeat (destruct G as [G|G]; [discriminate|]); contradiction.
Defined.

Lemma api_review_calls_trimmed_witness :
  In (py "x = 1", VNone)
     (model_calls (api_review prose_client
                              (VDict [(py "code", VStr (py "  x = 1 "))])))
  /\ py "x = 1" <> []
  /\ strip (py "x = 1") = py "x = 1".
Proof.
  assert (H : In (py "x = 1", VNone)
                 (model_calls
                    (api_review prose_client
                                (VDict [(py "code", VStr (py "  x = 1 "))]))))
    by (left; reflexivity).
  split; [exact H|].
  exact (proj2 (@api_review_calls_trimmed default_limits prose_client
                  (VDict [(py "code", VStr (py "  x = 1 "))]))
               (py "x = 1") VNone H).
Defined.
